(** * Starlink dashboard: link budget, handover simulation, frame sampling
      and satellite state, embedded from the JavaScript sources.

    Numbers.  The dashboard computes with JavaScript [Number]s.  The
    link-budget arithmetic is embedded over the real numbers [R]: rounding
    is outside the model, and so are [NaN] and the infinities, except in
    the throughput chart of the enhanced variant, whose link budget is
    embedded over numbers with infinities and [NaN] ([JSNumber]) because
    the chart is drawn for elevations where they arise.  An equation
    between a function of the code and a closed form is an equation
    between real expressions built from the same operations; a bound or a
    comparison is stated on inputs where the real operations agree with
    the JavaScript ones ([Math.log10] and [Math.pow] on positive
    arguments, division by a non-zero sine), and not where it would hold
    over the reals only by an exact cancellation that rounding breaks
    (the cosine of 90 degrees, acos (cos e) - e, 1 + 10^x above 1, a
    strict bound at the end of a range of random draws).  The satellite
    state computation only stores and tests
    numbers produced by satellite.js, so it is embedded over an abstract
    number type with its [isFinite] test.

    Variants.  The repository holds near-duplicate copies of the dashboard:
    basic, terminal, tactical, the corrected Pro copy with the first
    handover simulation, and the enhanced copy (docs/app-enhanced.js, also
    headed "Dashboard Pro").  Each
    function is embedded per copy where the copies differ. *)

From Stdlib Require Import Reals Lra Lia List Arith PeanoNat Bool String.
From Stdlib Require Import Permutation Sorted.
Import ListNotations.

Set Implicit Arguments.

(* ------------------------------------------------------------------ *)
(** * JavaScript [Math] over the reals *)

Module JSMath.
Open Scope R_scope.

Definition Math_PI : R := PI.
Definition Math_sin (x : R) : R := sin x.
Definition Math_max (x y : R) : R := Rmax x y.
Definition Math_min (x y : R) : R := Rmin x y.

(** [Math.log10 x], for [0 < x]. *)
Definition Math_log10 (x : R) : R := ln x / ln 10.

(** [Math.pow x y], for [0 < x]. *)
Definition Math_pow (x y : R) : R := Rpower x y.

(** The comparisons the sources branch on. *)
Definition js_lt (x y : R) : bool := if Rlt_dec x y then true else false.
Definition js_gt (x y : R) : bool := js_lt y x.
Definition js_ge (x y : R) : bool := if Rle_dec y x then true else false.
Definition js_eq (x y : R) : bool := if Req_dec_T x y then true else false.
End JSMath.

(* ------------------------------------------------------------------ *)
(** * Shared data: configuration, observer, weather, satellite state *)

(** [config] of the terminal and tactical variants (the fields either
    variant declares). *)
Record Config := mkConfig {
  considerRain : bool;
  showFootprints : bool;
  footprintOnlySelected : bool;
  maxFootprints : nat
}.

(** [obs = { lat, lon, elevMin }]. *)
Record Observer := mkObserver {
  obs_lat : R;
  obs_lon : R;
  elevMin : R
}.

(** [weatherData]; the global is [null] until the first fetch. *)
Record Weather := mkWeather {
  cloudCover : R;
  precipitation : R;
  humidity : R;
  temperature : R
}.

(** The object [getSatState] returns in the terminal variant:
    [{ lat, lon, alt, az, el, range, speed }]. *)
Record SatState := mkSatState {
  lat : R;
  lon : R;
  alt : R;
  az : R;
  el : R;
  range : R;
  speed : R
}.

(** One entry of the TLE list: [{ name, noradId, line1, line2 }]. *)
Record TLE := mkTLE {
  name : string;
  noradId : nat;
  line1 : string;
  line2 : string
}.

(* ------------------------------------------------------------------ *)
(** * Link budget and rain attenuation *)

Module LinkBudget.
Import JSMath.
Open Scope R_scope.

(** The object returned by [calculateLinkBudget] in the terminal variant. *)
Record Budget := mkBudget {
  SNR : R;
  rxPower : R;
  FSPL : R;
  rainAttenuation : R
}.

(** The object returned by [calculateLinkBudget] in the tactical variant. *)
Record TacticalBudget := mkTacticalBudget {
  t_SNR : R;
  t_rxPower : R;
  t_FSPL : R;
  t_rainAttenuation : R;
  modulation : string;
  dataRate : nat;
  margin : R
}.

(** The object returned by [calculateLinkBudget] in the enhanced variant. *)
Record EnhancedBudget := mkEnhancedBudget {
  e_distance : R;
  e_FSPL : R;
  e_atmosphericLoss : R;
  e_rainLoss : R;
  e_rxPower : R;
  e_noiseFloor : R;
  e_SNR : R;
  marginDb : R
}.

(** ** Terminal variant (docs/app.js, terminal edition) *)
Module Terminal.
Definition calculateLinkBudget (config : Config)
           (elevationDeg rainAtt : R) : Budget :=
  let FREQ := 11.5e9 in
  let EIRP := 35 in
  let GAIN := 33 in
  let distance := 550 / Math_sin (Math_max elevationDeg 1 * Math_PI / 180) in
  let FSPL := 20 * Math_log10 (distance * 1000) + 20 * Math_log10 FREQ + 92.45 in
  let atmosphericLoss :=
    0.5 / Math_sin (Math_max elevationDeg 5 * Math_PI / 180) in
  let appliedRainAtt := if considerRain config then rainAtt else 0 in
  let rxPower := EIRP - FSPL - atmosphericLoss - appliedRainAtt + GAIN in
  let noiseFloor := -134 in
  let SNR := rxPower - noiseFloor in
  mkBudget SNR rxPower FSPL appliedRainAtt.

Definition calculateRainAttenuation (config : Config)
           (elevation precip : R) : R :=
  if js_eq precip 0 || negb (considerRain config) then 0
  else
    let freq := 11.5 in
    let k := 0.0101 * Math_pow freq 2.03 in
    let alpha := 1.065 in
    let slantPath := 550 / Math_sin (Math_max elevation 5 * Math_PI / 180) in
    let attenuation :=
      k * Math_pow precip alpha * Math_min (slantPath / 10) 5 in
    Math_min attenuation 20.
End Terminal.

(** ** Tactical variant *)
Module Tactical.
Definition calculateLinkBudget (config : Config)
           (elevationDeg rainAtt : R) : TacticalBudget :=
  let FREQ := 11.5e9 in
  let EIRP := 35 in
  let GAIN := 33 in
  let distance := 550 / Math_sin (Math_max elevationDeg 1 * Math_PI / 180) in
  let FSPL := 20 * Math_log10 (distance * 1000) + 20 * Math_log10 FREQ + 92.45 in
  let atmosphericLoss :=
    0.5 / Math_sin (Math_max elevationDeg 5 * Math_PI / 180) in
  let appliedRainAtt := if considerRain config then rainAtt else 0 in
  let rxPower := EIRP - FSPL - atmosphericLoss - appliedRainAtt + GAIN in
  let noiseFloor := -134 in
  let SNR := rxPower - noiseFloor in
  let '(modulation, dataRate) :=
    if js_gt SNR 25 then ("256-APSK"%string, 400%nat)
    else if js_gt SNR 20 then ("128-APSK"%string, 350%nat)
    else if js_gt SNR 18 then ("64-APSK"%string, 300%nat)
    else if js_gt SNR 15 then ("32-APSK"%string, 250%nat)
    else if js_gt SNR 12 then ("16-APSK"%string, 200%nat)
    else if js_gt SNR 8 then ("8PSK"%string, 150%nat)
    else ("QPSK"%string, 50%nat) in
  mkTacticalBudget SNR rxPower FSPL appliedRainAtt modulation dataRate (SNR - 5).

Definition calculateRainAttenuation (config : Config)
           (elevation precip : R) : R :=
  if js_eq precip 0 || negb (considerRain config) then 0
  else
    let freq := 11.5 in
    let k := 0.0101 * Math_pow freq 2.03 in
    let alpha := 1.065 in
    let slantPath := 550 / Math_sin (Math_max elevation 5 * Math_PI / 180) in
    let attenuation :=
      k * Math_pow precip alpha * Math_min (slantPath / 10) 5 in
    Math_min attenuation 20.
End Tactical.

(** ** The copy headed "Starlink Dashboard Pro - Versao Corrigida" (first
    handover simulation): no [config], the rain attenuation always applied *)
Module ProCorrected.
Definition calculateLinkBudget (elevationDeg rainAtt : R) : Budget :=
  let FREQ := 11.5e9 in
  let EIRP := 35 in
  let GAIN := 33 in
  let distance := 550 / Math_sin (Math_max elevationDeg 1 * Math_PI / 180) in
  let FSPL := 20 * Math_log10 (distance * 1000) + 20 * Math_log10 FREQ + 92.45 in
  let atmosphericLoss :=
    0.5 / Math_sin (Math_max elevationDeg 5 * Math_PI / 180) in
  let rxPower := EIRP - FSPL - atmosphericLoss - rainAtt + GAIN in
  let noiseFloor := -134 in
  let SNR := rxPower - noiseFloor in
  mkBudget SNR rxPower FSPL rainAtt.

Definition calculateRainAttenuation (elevation precip : R) : R :=
  if js_eq precip 0 then 0
  else
    let freq := 11.5 in
    let k := 0.0101 * Math_pow freq 2.03 in
    let alpha := 1.065 in
    let slantPath := 550 / Math_sin (Math_max elevation 5 * Math_PI / 180) in
    let attenuation :=
      k * Math_pow precip alpha * Math_min (slantPath / 10) 5 in
    Math_min attenuation 20.
End ProCorrected.

(** ** Enhanced variant (docs/app-enhanced.js) *)
Module Enhanced.
Definition SPEED_OF_LIGHT : R := 299792458.
Definition FREQ_DOWNLINK : R := 11.5e9.
Definition BANDWIDTH : R := 250e6.
Definition SATELLITE_EIRP : R := 35.
Definition TERMINAL_GAIN : R := 33.
Definition NOISE_TEMP : R := 290.
Definition BOLTZMANN : R := 1.38e-23.

Definition rainLossOf (elevationDeg : R) : R :=
  if js_lt elevationDeg 10 then 3
  else if js_lt elevationDeg 20 then 1.5 else 0.5.

Definition calculateLinkBudget_at (elevationDeg frequency : R)
  : EnhancedBudget :=
  let distance := 550 / Math_sin (elevationDeg * Math_PI / 180) in
  let FSPL := 20 * Math_log10 (distance * 1000) + 20 * Math_log10 frequency
              + 20 * Math_log10 (4 * Math_PI / SPEED_OF_LIGHT) in
  let atmosphericLoss :=
    0.5 / Math_sin (Math_max elevationDeg 5 * Math_PI / 180) in
  let rainLoss := rainLossOf elevationDeg in
  let rxPower :=
    SATELLITE_EIRP - FSPL - atmosphericLoss - rainLoss + TERMINAL_GAIN in
  let noiseFloor := 10 * Math_log10 (BOLTZMANN * NOISE_TEMP * BANDWIDTH) in
  let SNR := rxPower - noiseFloor - 30 in
  mkEnhancedBudget distance FSPL atmosphericLoss rainLoss rxPower
                   noiseFloor SNR (SNR - 10).

(** [frequency = FREQ_DOWNLINK] is the default argument. *)
Definition calculateLinkBudget (elevationDeg : R) : EnhancedBudget :=
  calculateLinkBudget_at elevationDeg FREQ_DOWNLINK.
End Enhanced.
End LinkBudget.

(* ------------------------------------------------------------------ *)
(** * Generic JavaScript array helpers *)

(** [arr.slice(s, e)]. *)
Definition slice {A : Type} (s e : nat) (l : list A) : list A :=
  firstn (e - s) (skipn s l).

(** [arr.slice(s)]. *)
Definition slice_from {A : Type} (s : nat) (l : list A) : list A := skipn s l.

(** [arr[i]] read as a truthy value: [undefined] (out of range) and [null]
    both fail the [!rec] test. *)
Definition truthy_at {A : Type} (l : list (option A)) (i : nat) : option A :=
  match nth_error l i with
  | Some (Some r) => Some r
  | _ => None
  end.

(* ------------------------------------------------------------------ *)
(** * Handover simulation *)

Module Handover.
Import JSMath.
Open Scope R_scope.

Section WithSatrec.
(** The SGP4 record type of satellite.js. *)
Variable satrec : Type.

(** The globals [simulateHandover] reads.  [getSatState] stands for the
    calls [getSatState(rec)] made during this tick (each at the current
    time [new Date()]); the terminal variant answers [null] for a
    missing record before touching the library. *)
Record Env := mkEnv {
  tleList : list TLE;
  satRecs : list (option satrec);
  obs : Observer;
  config : Config;
  weatherData : option Weather;
  getSatState : satrec -> option SatState
}.

(** The objects pushed on [visible]:
    [{ satellite, state, snr, index }]. *)
Record Entry := mkEntry {
  satellite : TLE;
  state : SatState;
  snr : R;
  index : nat
}.

(** The two globals the simulation mutates. *)
Record HState := mkHState {
  currentServingSat : option Entry;
  handoverCandidates : list Entry
}.

Definition initial : HState := mkHState None [].

(** [getSatState(satRecs[i])], with the [if (!rec) return null] guard. *)
Definition getSatState_at (env : Env) (i : nat) : option SatState :=
  match truthy_at (satRecs env) i with
  | Some rec => getSatState env rec
  | None => None
  end.

(** SNR of a satellite state, terminal variant:
    [config.considerRain && weatherData ? calculateRainAttenuation(...) : 0]
    then [calculateLinkBudget(st.el, rainAtt).SNR]. *)
Definition linkSNR_terminal (env : Env) (st : SatState) : R :=
  let rainAtt :=
    match considerRain (config env), weatherData env with
    | true, Some w =>
        LinkBudget.Terminal.calculateRainAttenuation
          (config env) (el st) (precipitation w)
    | _, _ => 0
    end in
  LinkBudget.SNR
    (LinkBudget.Terminal.calculateLinkBudget (config env) (el st) rainAtt).

(** SNR of a satellite state, corrected Pro copy:
    [calculateRainAttenuation(st.el, weatherData?.precipitation || 0)]. *)
Definition linkSNR_pro (env : Env) (st : SatState) : R :=
  let precip :=
    match weatherData env with
    | Some w => precipitation w
    | None => 0
    end in
  LinkBudget.SNR
    (LinkBudget.ProCorrected.calculateLinkBudget (el st)
       (LinkBudget.ProCorrected.calculateRainAttenuation (el st) precip)).

Section Variant.
(** What distinguishes the two copies of [simulateHandover]. *)
Variable linkSNR : Env -> SatState -> R.

(** One iteration of the acquisition loop: the entry pushed for index
    [i], or nothing when the iteration hits [continue]. *)
Definition visibleEntry (env : Env) (i : nat) : option Entry :=
  match truthy_at (satRecs env) i with
  | None => None
  | Some rec =>
      match getSatState env rec with
      | None => None
      | Some st =>
          if js_lt (el st) (elevMin (obs env)) then None
          else
            match nth_error (tleList env) i with
            | Some t => Some (mkEntry t st (linkSNR env st) i)
            | None => None
            end
      end
  end.

(** [for (let i = 0; i < tleList.length; i++) { ... visible.push(...) }] *)
Fixpoint collectVisible (env : Env) (idxs : list nat) : list Entry :=
  match idxs with
  | [] => []
  | i :: idxs' =>
      match visibleEntry env i with
      | Some e => e :: collectVisible env idxs'
      | None => collectVisible env idxs'
      end
  end.

Definition visibleNow (env : Env) : list Entry :=
  collectVisible env (seq 0 (List.length (tleList env))).

(** [visible.sort((a, b) => b.snr - a.snr)]: descending by SNR, entries
    of equal SNR keep their order (the sort is stable). *)
Fixpoint insert_desc (x : Entry) (l : list Entry) : list Entry :=
  match l with
  | [] => [x]
  | y :: l' =>
      if js_lt (snr x) (snr y) then y :: insert_desc x l' else x :: l
  end.

Fixpoint sort_desc (l : list Entry) : list Entry :=
  match l with
  | [] => []
  | x :: l' => insert_desc x (sort_desc l')
  end.

(** The handover test on the serving satellite:
    [!currentState || currentState.el < obs.elevMin - 5]. *)
Definition degraded (env : Env) (cur : Entry) : bool :=
  match getSatState_at env (index cur) with
  | None => true
  | Some currentState => js_lt (el currentState) (elevMin (obs env) - 5)
  end.

(** One call of [simulateHandover] (logging and display left out). *)
Definition simulateHandover (env : Env) (s : HState) : HState :=
  match currentServingSat s with
  | None =>
      match sort_desc (visibleNow env) with
      | [] => s
      | (best :: _) as visible =>
          mkHState (Some best) (slice 1 4 visible)
      end
  | Some cur =>
      if degraded env cur then
        match handoverCandidates s with
        | newServing :: _ =>
            mkHState (Some newServing)
                     (slice_from 1 (handoverCandidates s))
        | [] => mkHState None (handoverCandidates s)
        end
      else s
  end.

(** The simulation run over successive ticks, oldest first. *)
Definition run (envs : list Env) (s : HState) : HState :=
  fold_left (fun st env => simulateHandover env st) envs s.

(** In [env], the satellite of [chosen] is visible and no visible
    satellite has a higher link-budget SNR. *)
Definition best_visible (env : Env) (chosen : Entry) : Prop :=
  exists e,
    visibleEntry env (index chosen) = Some e /\
    forall i e', visibleEntry env i = Some e' -> snr e' <= snr e.
End Variant.

(** The serving satellite's state is available and its elevation is at
    or above [obs.elevMin - 5]. *)
Definition within_hysteresis (cur : Entry) (env : Env) : Prop :=
  exists st, getSatState_at env (index cur) = Some st
             /\ elevMin (obs env) - 5 <= el st.

(** The serving satellite, when there is one, followed by the
    candidates. *)
Definition tracked (s : HState) : list Entry :=
  match currentServingSat s with
  | Some cur => cur :: handoverCandidates s
  | None => handoverCandidates s
  end.

(** [a] is ranked no lower than [b] by the stored SNR. *)
Definition ranked (a b : Entry) : Prop := snr b <= snr a.

(** What every reachable state satisfies. *)
Definition wellFormed (s : HState) : Prop :=
  (List.length (handoverCandidates s) <= 3)%nat
  /\ NoDup (map index (tracked s))
  /\ StronglySorted ranked (tracked s)
  /\ (currentServingSat s = None -> handoverCandidates s = []).

Definition simulateHandover_terminal := simulateHandover linkSNR_terminal.
Definition simulateHandover_pro := simulateHandover linkSNR_pro.
End WithSatrec.

Arguments linkSNR_terminal {satrec} env st.
Arguments linkSNR_pro {satrec} env st.
Arguments simulateHandover_terminal {satrec} env s.
Arguments simulateHandover_pro {satrec} env s.
End Handover.

(* ------------------------------------------------------------------ *)
(** * Drawing a frame *)

Module Draw.
Import JSMath.

(** [MAX_SATS] (basic variant) and [MAX_DRAW] (terminal, tactical). *)
Definition MAX_DRAW : nat := 1000.

(** [Math.ceil(n / d)] for an array length [n]. *)
Definition Math_ceil_div (n d : nat) : nat :=
  if (n mod d =? 0)%nat then (n / d)%nat else S (n / d).

(** [for (let i = i0; i < n; i += step)]: the indices the loop body runs
    on, or [None] when [fuel] iterations were not enough to leave the
    loop. *)
Fixpoint sampleLoop (fuel i n step : nat) : option (list nat) :=
  match fuel with
  | O => if (i <? n)%nat then None else Some []
  | S fuel' =>
      if (i <? n)%nat
      then option_map (cons i) (sampleLoop fuel' (i + step) n step)
      else Some []
  end.

(** The loop header of [drawFrame]:
    [step = Math.ceil(tleList.length / MAX_DRAW)], [i = 0, step, ...]. *)
Definition sampledIndices (fuel n : nat) : option (list nat) :=
  sampleLoop fuel 0 n (Math_ceil_div n MAX_DRAW).

Open Scope R_scope.

(** [calculateFootprintRadius] / [footprintRadiusKm]. *)
Definition calculateFootprintRadius (altKm elevMinDeg : R) : R :=
  let Re := 6371 in
  let h := altKm in
  let e := elevMinDeg * Math_PI / 180 in
  let psi := acos ((Re / (Re + h)) * cos e) - e in
  Re * psi.

(** What [L.circleMarker] is given, and the SNR line of the popup when the
    variant prints one. *)
Record Marker := mkMarker {
  m_index : nat;
  m_lat : R;
  m_lon : R;
  m_radius : R;
  m_color : string;
  m_fillOpacity : R;
  m_popupSNR : option R
}.

(** What [L.circle] is given for a footprint. *)
Record Footprint := mkFootprint {
  f_lat : R;
  f_lon : R;
  f_radius : R
}.

(** The counters and layers a frame builds up. *)
Record Frame := mkFrame {
  visible : nat;
  drawn : nat;
  errors : nat;
  markers : list Marker;
  footprints : list Footprint
}.

Definition emptyFrame : Frame := mkFrame 0 0 0 [] [].

(** A loop body that adds at most one marker and counts it. *)
Definition counting (step : Frame -> nat -> Frame) : Prop :=
  forall acc i,
    drawn acc = List.length (markers acc) ->
    drawn (step acc i) = List.length (markers (step acc i))
    /\ (List.length (markers (step acc i)) <= S (List.length (markers acc)))%nat.

Section WithSatrec.
Variable satrec : Type.

(** ** Basic variant (docs/app.js, first file) *)

Definition basic_color (isVisible : bool) : string :=
  if isVisible then "#00ff44"%string else "#4488ff"%string.

Definition basic_drawStep (env : Handover.Env satrec)
           (acc : Frame) (i : nat) : Frame :=
  match truthy_at (Handover.satRecs env) i with
  | None => mkFrame (visible acc) (drawn acc) (S (errors acc))
                    (markers acc) (footprints acc)
  | Some rec =>
      match Handover.getSatState env rec with
      | None => mkFrame (visible acc) (drawn acc) (S (errors acc))
                        (markers acc) (footprints acc)
      | Some st =>
          let isVisible := js_ge (el st) (elevMin (Handover.obs env)) in
          let color := basic_color isVisible in
          let radius := if isVisible then 4 else 2 in
          let marker :=
            mkMarker i (lat st) (lon st) radius color
                     (if isVisible then 0.9 else 0.6) None in
          let visible' := if isVisible then S (visible acc) else visible acc in
          let footprints' :=
            if isVisible && (visible' <=? 10)%nat then
              let rKm :=
                Math_max 200
                  (calculateFootprintRadius (alt st)
                     (elevMin (Handover.obs env))) in
              footprints acc ++ [mkFootprint (lat st) (lon st) (rKm * 1000)]
            else footprints acc in
          mkFrame visible' (S (drawn acc)) (errors acc)
                  (markers acc ++ [marker]) footprints'
      end
  end.

Definition basic_drawFrame (fuel : nat) (env : Handover.Env satrec)
  : option Frame :=
  option_map (fun idxs => fold_left (basic_drawStep env) idxs emptyFrame)
    (sampledIndices fuel (List.length (Handover.tleList env))).

(** ** Terminal variant (docs/app.js, terminal edition) *)

(** The [if (isServing) ... else if (isCandidate) ... else if (isVisible)
    ... else ...] chain: colour, radius, opacity, and whether [visible]
    is incremented. *)
Definition terminal_style (isServing isCandidate isVisible : bool)
  : string * R * R * bool :=
  if isServing then ("#ffffff"%string, 6, 1, false)
  else if isCandidate then ("#ffff00"%string, 4, 0.8, false)
  else if isVisible then ("#00ff00"%string, 3, 0.7, true)
  else ("#004400"%string, 1, 0.2, false).

(** [currentServingSat && currentServingSat.index === i]. *)
Definition isServingAt (hs : Handover.HState) (i : nat) : bool :=
  match Handover.currentServingSat hs with
  | Some cur => (Handover.index cur =? i)%nat
  | None => false
  end.

(** [handoverCandidates.some(c => c.index === i)]. *)
Definition isCandidateAt (hs : Handover.HState) (i : nat) : bool :=
  existsb (fun c => (Handover.index c =? i)%nat)
          (Handover.handoverCandidates hs).

(** The colour chosen by the chain. *)
Definition terminal_color (isServing isCandidate isVisible : bool)
  : string :=
  fst (fst (fst (terminal_style isServing isCandidate isVisible))).

Definition terminal_drawStep (env : Handover.Env satrec)
           (hs : Handover.HState) (acc : Frame) (i : nat) : Frame :=
  match truthy_at (Handover.satRecs env) i with
  | None => acc
  | Some rec =>
      match Handover.getSatState env rec with
      | None => acc
      | Some st =>
          let isVisible := js_ge (el st) (elevMin (Handover.obs env)) in
          let isServing := isServingAt hs i in
          let isCandidate := isCandidateAt hs i in
          let '(color, radius, opacity, counted) :=
            terminal_style isServing isCandidate isVisible in
          let visible' := if counted then S (visible acc) else visible acc in
          let linkSNR := Handover.linkSNR_terminal env st in
          let marker :=
            mkMarker i (lat st) (lon st) radius color opacity (Some linkSNR) in
          let footprints' :=
            if showFootprints (Handover.config env) && isVisible
               && (visible' <=? maxFootprints (Handover.config env))%nat
            then
              let footprintRadius :=
                calculateFootprintRadius (alt st)
                  (elevMin (Handover.obs env)) in
              footprints acc
                ++ [mkFootprint (lat st) (lon st) (footprintRadius * 1000)]
            else footprints acc in
          mkFrame visible' (S (drawn acc)) (errors acc)
                  (markers acc ++ [marker]) footprints'
      end
  end.

Definition terminal_drawFrame (fuel : nat) (env : Handover.Env satrec)
           (hs : Handover.HState) : option Frame :=
  option_map
    (fun idxs => fold_left (terminal_drawStep env hs) idxs emptyFrame)
    (sampledIndices fuel (List.length (Handover.tleList env))).

(** What a marker of the basic variant shows of its satellite. *)
Definition basic_marker_ok (env : Handover.Env satrec) (m : Marker)
  : Prop :=
  exists rec st,
    truthy_at (Handover.satRecs env) (m_index m) = Some rec
    /\ Handover.getSatState env rec = Some st
    /\ m_lat m = lat st /\ m_lon m = lon st
    /\ m_color m
       = basic_color (js_ge (el st) (elevMin (Handover.obs env)))
    /\ m_popupSNR m = None.

(** What a marker of the terminal variant shows of its satellite. *)
Definition terminal_marker_ok (env : Handover.Env satrec)
           (hs : Handover.HState) (m : Marker) : Prop :=
  exists rec st,
    truthy_at (Handover.satRecs env) (m_index m) = Some rec
    /\ Handover.getSatState env rec = Some st
    /\ m_lat m = lat st /\ m_lon m = lon st
    /\ m_color m
       = terminal_color (isServingAt hs (m_index m))
                        (isCandidateAt hs (m_index m))
                        (js_ge (el st) (elevMin (Handover.obs env)))
    /\ m_popupSNR m = Some (Handover.linkSNR_terminal env st).
End WithSatrec.
End Draw.

(* ------------------------------------------------------------------ *)
(** * Satellite state: [getSatState] of docs/app.js (lines 39-78) *)

Module SatStateCalc.

(** A JavaScript call either returns or throws. *)
Inductive result (E A : Type) : Type :=
| Ok (a : A)
| Throw (e : E).
Arguments Ok {E A} a.
Arguments Throw {E A} e.

Definition bind {E A B : Type} (m : result E A) (k : A -> result E B)
  : result E B :=
  match m with
  | Ok a => k a
  | Throw e => Throw e
  end.

(** [try { body } catch (e) { handler }]. *)
Definition try_catch {E A : Type} (body : result E A)
           (handler : E -> result E A) : result E A :=
  match body with
  | Ok a => Ok a
  | Throw e => handler e
  end.

Notation "x <- m ;; k" := (bind m (fun x => k))
  (at level 61, m at next level, right associativity).

Section Lib.
(** The values satellite.js hands around. *)
Variables number satrec date gmstT eciT ecfT exn : Type.

(** [{ latitude, longitude, height }]. *)
Record Geodetic := mkGeodetic {
  latitude : number;
  longitude : number;
  height : number
}.

(** [{ azimuth, elevation, rangeSat }]. *)
Record LookAngles := mkLookAngles {
  azimuth : number;
  elevation : number;
  rangeSat : number
}.

(** [{ position, velocity }]; a field is [None] when satellite.js left it
    [false] or [undefined]. *)
Record PositionAndVelocity := mkPV {
  position : option eciT;
  velocity : option eciT
}.

(** The functions of the global [satellite] that [getSatState] calls.
    [propagate] answers [None] for a [null] or [undefined] result. *)
Record SatelliteJs := mkSatelliteJs {
  gstime : date -> result exn gmstT;
  propagate : satrec -> date -> result exn (option PositionAndVelocity);
  eciToGeodetic : eciT -> gmstT -> result exn Geodetic;
  eciToEcf : eciT -> gmstT -> result exn ecfT;
  ecfToLookAngles : Geodetic -> ecfT -> result exn LookAngles;
  radiansToDegrees : number -> result exn number;
  degreesToRadians : number -> result exn number
}.

(** The observer global, on the abstract numbers. *)
Record Obs := mkObs {
  o_lat : number;
  o_lon : number;
  o_elevMin : number
}.

(** [{ lat, lon, alt, az, el }]. *)
Record State := mkState {
  s_lat : number;
  s_lon : number;
  s_alt : number;
  s_az : number;
  s_el : number
}.

Variable satellite : SatelliteJs.
(** The global [isFinite] and the literal [0]. *)
Variable isFinite : number -> bool.
Variable zero : number.
Variable obs : Obs.

(** The body of the [try] block. *)
Definition getSatState_body (rec : satrec) (time : date)
  : result exn (option State) :=
  gmst <- gstime satellite time ;;
  pv <- propagate satellite rec time ;;
  match pv with
  | None => Ok None
  | Some pv' =>
      match position pv' with
      | None => Ok None
      | Some eci =>
          gd <- eciToGeodetic satellite eci gmst ;;
          lat <- radiansToDegrees satellite (latitude gd) ;;
          lon <- radiansToDegrees satellite (longitude gd) ;;
          let alt := height gd in
          if negb (isFinite lat) || negb (isFinite lon)
             || negb (isFinite alt)
          then Ok None
          else
            obsLat <- degreesToRadians satellite (o_lat obs) ;;
            obsLon <- degreesToRadians satellite (o_lon obs) ;;
            let obsGd := mkGeodetic obsLat obsLon zero in
            satEcf <- eciToEcf satellite eci gmst ;;
            look <- ecfToLookAngles satellite obsGd satEcf ;;
            az <- radiansToDegrees satellite (azimuth look) ;;
            el <- radiansToDegrees satellite (elevation look) ;;
            Ok (Some (mkState lat lon alt az el))
      end
  end.

(** [getSatState(rec, time)]: the body under [catch (e) { return null; }]. *)
Definition getSatState (rec : satrec) (time : date)
  : result exn (option State) :=
  try_catch (getSatState_body rec time) (fun _ => Ok None).

(** Propagation yields no position:
    [!pv || !pv.position || pv.position === false]. *)
Definition no_position (rec : satrec) (time : date) : Prop :=
  exists pv, propagate satellite rec time = Ok pv /\
             (pv = None \/ exists pv', pv = Some pv' /\ position pv' = None).

(** The geodetic position of the propagated satellite, in degrees. *)
Definition geodetic_of (rec : satrec) (time : date)
           (gmst : gmstT) (eci : eciT) (lat lon alt : number) : Prop :=
  exists pv' gd,
    gstime satellite time = Ok gmst /\
    propagate satellite rec time = Ok (Some pv') /\
    position pv' = Some eci /\
    eciToGeodetic satellite eci gmst = Ok gd /\
    radiansToDegrees satellite (latitude gd) = Ok lat /\
    radiansToDegrees satellite (longitude gd) = Ok lon /\
    alt = height gd.

(** Latitude, longitude or altitude is not finite. *)
Definition not_finite (rec : satrec) (time : date) : Prop :=
  exists gmst eci lat lon alt,
    geodetic_of rec time gmst eci lat lon alt /\
    (isFinite lat = false \/ isFinite lon = false \/ isFinite alt = false).

(** The look angles from the configured observer, in degrees. *)
Definition look_of (gmst : gmstT) (eci : eciT) (az el : number) : Prop :=
  exists obsLat obsLon satEcf look,
    degreesToRadians satellite (o_lat obs) = Ok obsLat /\
    degreesToRadians satellite (o_lon obs) = Ok obsLon /\
    eciToEcf satellite eci gmst = Ok satEcf /\
    ecfToLookAngles satellite (mkGeodetic obsLat obsLon zero) satEcf
      = Ok look /\
    radiansToDegrees satellite (azimuth look) = Ok az /\
    radiansToDegrees satellite (elevation look) = Ok el.

(** Every satellite.js call returns (none throws), as on SGP4 records. *)
Definition returns_normally : Prop :=
  (forall t, exists v, gstime satellite t = Ok v) /\
  (forall r t, exists v, propagate satellite r t = Ok v) /\
  (forall e g, exists v, eciToGeodetic satellite e g = Ok v) /\
  (forall e g, exists v, eciToEcf satellite e g = Ok v) /\
  (forall o e, exists v, ecfToLookAngles satellite o e = Ok v) /\
  (forall x, exists v, radiansToDegrees satellite x = Ok v) /\
  (forall x, exists v, degreesToRadians satellite x = Ok v).
End Lib.
End SatStateCalc.

(* ------------------------------------------------------------------ *)
(** * The specification's closed forms, as the specification words them *)

Module Spec.
Open Scope R_scope.

(** [x] degrees, in radians. *)
Definition degrees (x : R) : R := x * PI / 180.

Definition log10 (x : R) : R := ln x / ln 10.

(** FSPL = 20*log10(1000 * 550/sin(max(e,1) degrees)) + 20*log10(11.5e9)
    + 92.45. *)
Definition FSPL_closed_form (e : R) : R :=
  20 * log10 (1000 * 550 / sin (degrees (Rmax e 1)))
  + 20 * log10 11.5e9 + 92.45.

(** (35 - FSPL - 0.5/sin(max(e,5) degrees) - r' + 33) - (-134), with r'
    the rain attenuation when rain is considered and 0 otherwise. *)
Definition SNR_closed_form (rainConsidered : bool) (e r : R) : R :=
  let r' := if rainConsidered then r else 0 in
  (35 - FSPL_closed_form e - 0.5 / sin (degrees (Rmax e 5)) - r' + 33)
  - (-134).

(** min(0.0101 * 11.5^2.03 * p^1.065
        * min((550/sin(max(e,5) degrees))/10, 5), 20). *)
Definition rain_closed_form (e p : R) : R :=
  Rmin (0.0101 * Rpower 11.5 2.03 * Rpower p 1.065
        * Rmin ((550 / sin (degrees (Rmax e 5))) / 10) 5) 20.

(** The modulation table: SNR > 25 gives 256-APSK at 400 Mbps, ...,
    otherwise QPSK at 50 Mbps. *)
Definition modulation_table (snr : R) : string * nat :=
  if Rlt_dec 25 snr then ("256-APSK"%string, 400%nat)
  else if Rlt_dec 20 snr then ("128-APSK"%string, 350%nat)
  else if Rlt_dec 18 snr then ("64-APSK"%string, 300%nat)
  else if Rlt_dec 15 snr then ("32-APSK"%string, 250%nat)
  else if Rlt_dec 12 snr then ("16-APSK"%string, 200%nat)
  else if Rlt_dec 8 snr then ("8PSK"%string, 150%nat)
  else ("QPSK"%string, 50%nat).

(** The free-space constant of the enhanced variant, 20*log10(4*pi/c). *)
Definition fspl_constant : R :=
  20 * log10 (4 * PI / LinkBudget.Enhanced.SPEED_OF_LIGHT).

(** The thermal noise floor of the enhanced variant, 10*log10(k*T*B). *)
Definition thermal_floor : R :=
  10 * log10
         (LinkBudget.Enhanced.BOLTZMANN * LinkBudget.Enhanced.NOISE_TEMP * LinkBudget.Enhanced.BANDWIDTH).
End Spec.

(* ------------------------------------------------------------------ *)
(** * A concrete pass over the observer, used by the examples *)

Module Scenario.
Import Handover.
Open Scope R_scope.

(** SGP4 records are stood for by their position in the list. *)
Definition tle (n : nat) : TLE := mkTLE "STARLINK" n "1" "2".

(** A satellite state at elevation [e] degrees. *)
Definition st_at (e : R) : SatState := mkSatState 0 0 550 0 e 1000 7.5.

Definition cfg : Config := mkConfig true true false 5.
Definition observer (minElev : R) : Observer :=
  mkObserver (-27.588) (-48.613) minElev.

Definition env_of (minElev : R) (states : nat -> option SatState)
  : Env nat :=
  mkEnv [tle 0; tle 1; tle 2] [Some 0; Some 1; Some 2]%nat
        (observer minElev) cfg None states.

(** First tick: satellites 0 and 1 both at 40 degrees, satellite 2 has no
    state. *)
Definition pass1 (rec : nat) : option SatState :=
  match rec with
  | 0%nat | 1%nat => Some (st_at 40)
  | _ => None
  end.

(** Later tick: satellite 0 has sunk to 10 degrees, satellite 1 to the
    horizon, satellite 2 has risen to 60 degrees. *)
Definition pass2 (rec : nat) : option SatState :=
  match rec with
  | 0%nat => Some (st_at 10)
  | 1%nat => Some (st_at 0)
  | _ => Some (st_at 60)
  end.

(** A tick on which satellite 0 is at 22 degrees: below [elevMin = 25],
    above the hysteresis floor of 20. *)
Definition pass_low (rec : nat) : option SatState :=
  match rec with
  | 0%nat => Some (st_at 22)
  | _ => Some (st_at 60)
  end.

(** Two satellites just around a 1 degree mask. *)
Definition pass_mask (rec : nat) : option SatState :=
  match rec with
  | 0%nat => Some (st_at 0)
  | 1%nat => Some (st_at 1)
  | _ => None
  end.

Definition env1 : Env nat := env_of 25 pass1.
Definition env2 : Env nat := env_of 25 pass2.
Definition env_low : Env nat := env_of 25 pass_low.
Definition env_mask : Env nat := env_of 1 pass_mask.

(** The markers the terminal variant draws for satellites 0 and 1 under
    the 1 degree mask, with nothing serving. *)
Definition mask_marker0 : Draw.Marker :=
  Draw.mkMarker 0 0 0 1 "#004400" 0.2
                (Some (linkSNR_terminal env_mask (st_at 0))).
Definition mask_marker1 : Draw.Marker :=
  Draw.mkMarker 1 0 0 3 "#00ff00" 0.7
                (Some (linkSNR_terminal env_mask (st_at 1))).
Definition mask_frame : Draw.Frame :=
  Draw.mkFrame 1 2 0 [mask_marker0; mask_marker1]
    [Draw.mkFootprint 0 0 (Draw.calculateFootprintRadius 550 1 * 1000)].

(** A stand-in for satellite.js in which no call throws: numbers are
    [Some n] when finite, every record [true] propagates to a position and
    every record [false] to none. *)
Definition finite_number (x : option nat) : bool :=
  match x with
  | Some _ => true
  | None => false
  end.

Definition quiet_satellite
  : SatStateCalc.SatelliteJs (option nat) bool unit unit unit unit unit :=
  @SatStateCalc.mkSatelliteJs (option nat) bool unit unit unit unit unit
    (fun _ => SatStateCalc.Ok tt)
    (fun rec _ =>
       SatStateCalc.Ok
         (Some (SatStateCalc.mkPV (if rec then Some tt else None) None)))
    (fun _ _ =>
       SatStateCalc.Ok
         (SatStateCalc.mkGeodetic (Some 1%nat) (Some 2%nat) (Some 550%nat)))
    (fun _ _ => SatStateCalc.Ok tt)
    (fun _ _ =>
       SatStateCalc.Ok
         (SatStateCalc.mkLookAngles (Some 3%nat) (Some 4%nat)
                                    (Some 1000%nat)))
    (fun x => SatStateCalc.Ok x)
    (fun x => SatStateCalc.Ok x).

Definition quiet_obs : SatStateCalc.Obs (option nat) :=
  SatStateCalc.mkObs (Some 27%nat) (Some 48%nat) (Some 25%nat).

(** The entry the terminal variant pushes for satellite [i] seen at
    elevation [e] in [env]. *)
Definition entry (env : Env nat) (i : nat) (e : R) : Entry :=
  mkEntry (tle i) (st_at e) (linkSNR_terminal env (st_at e)) i.
End Scenario.

(* ------------------------------------------------------------------ *)
(** * Further example environments *)

Module ScenarioMore.
Import Handover.
Open Scope R_scope.

(** A tick on which no satellite has a state. *)
Definition env_dark : Env nat := Scenario.env_of 25 (fun _ => None).
End ScenarioMore.

(* ------------------------------------------------------------------ *)
(** * The colours of the handover roles in the terminal frame *)

Module DrawRoles.
(** The marker has the colour of the serving satellite. *)
Definition is_serving_colour (m : Draw.Marker) : bool :=
  String.eqb (Draw.m_color m) "#ffffff".

(** The marker has the colour of a handover candidate. *)
Definition is_candidate_colour (m : Draw.Marker) : bool :=
  String.eqb (Draw.m_color m) "#ffff00".
End DrawRoles.

(* ------------------------------------------------------------------ *)
(** * Drawing a frame, enhanced variant (docs/app-enhanced.js) *)

Module EnhancedDraw.
Import JSMath.
Open Scope R_scope.

(** [MAX_DRAW] of the enhanced variant. *)
Definition MAX_DRAW : nat := 800.

(** The loop header of the enhanced [drawFrame]. *)
Definition sampledIndices (fuel n : nat) : option (list nat) :=
  Draw.sampleLoop fuel 0 n (Draw.Math_ceil_div n MAX_DRAW).

(** The counter and the layers the enhanced frame builds up. *)
Record EFrame := mkEFrame {
  e_visible : nat;
  e_markers : list Draw.Marker;
  e_polygons : list (list (R * R))
}.

Definition emptyEFrame : EFrame := mkEFrame 0 [] [].

Section WithLibrary.
Variable satrec : Type.
(** [Math.atan2] and [satellite.radiansToDegrees]. *)
Variable Math_atan2 : R -> R -> R.
Variable radiansToDegrees : R -> R.

(** One pass of the loop of [calculateFootprint]: the point at bearing
    [i * 360 / numPoints]. *)
Definition footprintPoint (lat lon alpha : R) (i : nat) : R * R :=
  let numPoints := 64 in
  let bearing := (INR i * 360) / numPoints in
  let bearingRad := bearing * Math_PI / 180 in
  let latRad := lat * Math_PI / 180 in
  let lonRad := lon * Math_PI / 180 in
  let newLat :=
    asin (sin latRad * cos alpha + cos latRad * sin alpha * cos bearingRad) in
  let newLon :=
    lonRad + Math_atan2 (sin bearingRad * sin alpha * cos latRad)
                        (cos alpha - sin latRad * sin newLat) in
  (radiansToDegrees newLat, radiansToDegrees newLon).

(** [calculateFootprint(lat, lon, alt, minElev)]. *)
Definition calculateFootprint (lat lon alt minElev : R) : list (R * R) :=
  let Re := 6371 in
  let h := alt in
  let elevRad := minElev * Math_PI / 180 in
  let alpha := acos (Re / (Re + h) * cos elevRad) - elevRad in
  map (footprintPoint lat lon alpha) (seq 0 64).

(** [st.el >= obs.elevMin] for the satellite at index [i], when the loop
    body gets as far as drawing it. *)
Definition isVisibleAt (env : Handover.Env satrec) (i : nat) : bool :=
  match nth_error (Handover.tleList env) i,
        truthy_at (Handover.satRecs env) i with
  | Some _, Some rec =>
      match Handover.getSatState env rec with
      | Some st => js_ge (el st) (elevMin (Handover.obs env))
      | None => false
      end
  | _, _ => false
  end.

(** The loop body of the enhanced [drawFrame]; [selected] is the global
    [selectedSatellite]. *)
Definition drawStep (env : Handover.Env satrec) (selected : option TLE)
           (acc : EFrame) (i : nat) : EFrame :=
  match nth_error (Handover.tleList env) i with
  | None => acc
  | Some t =>
      match truthy_at (Handover.satRecs env) i with
      | None => acc
      | Some rec =>
          match Handover.getSatState env rec with
          | None => acc
          | Some st =>
              let isVisible := js_ge (el st) (elevMin (Handover.obs env)) in
              let isSelected :=
                match selected with
                | Some sel => (noradId sel =? noradId t)%nat
                | None => false
                end in
              let '(color, radius) :=
                if isSelected then ("#ffaa00"%string, 6)
                else if isVisible then ("#00ff44"%string, 4)
                else ("#4488ff"%string, 2) in
              let marker :=
                Draw.mkMarker i (lat st) (lon st) radius color 0.8 None in
              if isVisible && (e_visible acc <? 5)%nat then
                let footprintPoints :=
                  calculateFootprint (lat st) (lon st) (alt st)
                                     (elevMin (Handover.obs env)) in
                mkEFrame (S (e_visible acc)) (e_markers acc ++ [marker])
                         (e_polygons acc ++ [footprintPoints])
              else
                mkEFrame (e_visible acc) (e_markers acc ++ [marker])
                         (e_polygons acc)
          end
      end
  end.

Definition drawFrame (fuel : nat) (env : Handover.Env satrec)
           (selected : option TLE) : option EFrame :=
  option_map
    (fun idxs => fold_left (drawStep env selected) idxs emptyEFrame)
    (sampledIndices fuel (List.length (Handover.tleList env))).
End WithLibrary.
End EnhancedDraw.

(* ------------------------------------------------------------------ *)
(** * RF analysis of the enhanced variant, status line of the tactical
      variant, simulated curve of the basic variant *)

Module RFAnalysis.
Import JSMath.
Open Scope R_scope.

(** [Math.log2 x], for [0 < x]. *)
Definition Math_log2 (x : R) : R := ln x / ln 2.
Definition Math_cos (x : R) : R := cos x.

(** [calculateDopplerShift(velocity, elevationDeg, frequency)], in kHz
    (docs/app-enhanced.js). *)
Definition calculateDopplerShift_at (velocity elevationDeg frequency : R)
  : R :=
  let radialVelocity :=
    velocity * 1000 * Math_cos (elevationDeg * Math_PI / 180) in
  let dopplerShift :=
    (radialVelocity / LinkBudget.Enhanced.SPEED_OF_LIGHT) * frequency in
  dopplerShift / 1000.

(** [frequency = FREQ_DOWNLINK] is the default argument. *)
Definition calculateDopplerShift (velocity elevationDeg : R) : R :=
  calculateDopplerShift_at velocity elevationDeg
                           LinkBudget.Enhanced.FREQ_DOWNLINK.

(** [calculateShannonCapacity(snrDb, bandwidth)], in Mbps. *)
Definition calculateShannonCapacity_at (snrDb bandwidth : R) : R :=
  let snr := Math_pow 10 (snrDb / 10) in
  let capacity := bandwidth * Math_log2 (1 + snr) in
  capacity / 1e6.

(** [bandwidth = BANDWIDTH] is the default argument. *)
Definition calculateShannonCapacity (snrDb : R) : R :=
  calculateShannonCapacity_at snrDb LinkBudget.Enhanced.BANDWIDTH.

(** The status text [selectSatellite] of the tactical variant derives from
    [linkBudget.margin]. *)
Definition rfStatus (margin : R) : string :=
  if js_gt margin 10 then "EXCELLENT"%string
  else if js_gt margin 5 then "GOOD"%string
  else if js_gt margin 0 then "MARGINAL"%string
  else "DEGRADED"%string.

(** The class [updateTargetInfo] gives the SNR figure. *)
Definition snrClass (snr : R) : string :=
  if js_gt snr 15 then "good"%string
  else if js_gt snr 8 then "warning"%string
  else "critical"%string.

(** The simulated SNR of the basic variant ([selectSatellite] of
    docs/app.js): [Math.max(-5, 15 + 0.3 * e - 30 / (e + 10))]. *)
Definition simulatedSNR (e : R) : R :=
  Math_max (-5) (15 + 0.3 * e - 30 / (e + 10)).

(** [Array.from({length: 19}, (_, k) => k * 5)]. *)
Definition elevs : list R := map (fun k => INR k * 5) (seq 0 19).

(** The plotted curve. *)
Definition simulatedCurve : list R := map simulatedSNR elevs.
End RFAnalysis.

(* ------------------------------------------------------------------ *)
(** * Numbers with infinities and NaN

    Where a computation of the sources divides by zero or takes the
    logarithm of a number that is not positive, the result is an infinity
    or NaN and the comparisons that follow depend on it.  [Num] is a
    JavaScript Number read as a real, an infinity or NaN; rounding and
    overflow are not modelled, and zero stands for +0. *)

Module JSNumber.
Import JSMath.
Open Scope R_scope.

Inductive Num : Type :=
| Fin (x : R)
| PInf
| NInf
| NaN.

(** A choice on the sign of a real. *)
Definition bySign {A : Type} (x : R) (negative zero positive : A) : A :=
  if Rlt_dec x 0 then negative
  else if Rlt_dec 0 x then positive else zero.

(** Unary minus. *)
Definition neg (a : Num) : Num :=
  match a with
  | Fin x => Fin (- x)
  | PInf => NInf
  | NInf => PInf
  | NaN => NaN
  end.

(** [a + b]. *)
Definition add (a b : Num) : Num :=
  match a, b with
  | NaN, _ => NaN
  | _, NaN => NaN
  | Fin x, Fin y => Fin (x + y)
  | PInf, NInf => NaN
  | NInf, PInf => NaN
  | PInf, _ => PInf
  | _, PInf => PInf
  | NInf, _ => NInf
  | _, NInf => NInf
  end.

(** [a - b]. *)
Definition sub (a b : Num) : Num := add a (neg b).

(** [a * b]. *)
Definition mul (a b : Num) : Num :=
  match a, b with
  | NaN, _ => NaN
  | _, NaN => NaN
  | Fin x, Fin y => Fin (x * y)
  | Fin x, PInf => bySign x NInf NaN PInf
  | PInf, Fin x => bySign x NInf NaN PInf
  | Fin x, NInf => bySign x PInf NaN NInf
  | NInf, Fin x => bySign x PInf NaN NInf
  | PInf, PInf => PInf
  | NInf, NInf => PInf
  | PInf, NInf => NInf
  | NInf, PInf => NInf
  end.

(** [a / b]; a zero divisor is +0. *)
Definition div (a b : Num) : Num :=
  match a, b with
  | NaN, _ => NaN
  | _, NaN => NaN
  | Fin x, Fin y =>
      if Req_dec_T y 0 then bySign x NInf NaN PInf else Fin (x / y)
  | Fin _, PInf => Fin 0
  | Fin _, NInf => Fin 0
  | PInf, Fin y => if Rlt_dec y 0 then NInf else PInf
  | NInf, Fin y => if Rlt_dec y 0 then PInf else NInf
  | PInf, PInf => NaN
  | PInf, NInf => NaN
  | NInf, PInf => NaN
  | NInf, NInf => NaN
  end.

(** [Math.log10(a)]: NaN below zero, -Infinity at zero. *)
Definition log10 (a : Num) : Num :=
  match a with
  | Fin x => bySign x NaN NInf (Fin (Math_log10 x))
  | PInf => PInf
  | NInf => NaN
  | NaN => NaN
  end.

(** [a < b]: false as soon as one side is NaN. *)
Definition lt (a b : Num) : bool :=
  match a, b with
  | NaN, _ => false
  | _, NaN => false
  | Fin x, Fin y => js_lt x y
  | _, NInf => false
  | PInf, _ => false
  | NInf, _ => true
  | Fin _, PInf => true
  end.
End JSNumber.

(* ------------------------------------------------------------------ *)
(** * The throughput chart of [updateRFAnalysis] (docs/app-enhanced.js)

    The chart compares the SNR of [calculateLinkBudget(st.el)] with each
    modulation's requirement.  The elevation of the selected satellite
    may be zero or negative, where the slant distance 550 / sin is
    infinite or negative, so the link budget is taken over [Num] here. *)

Module ThroughputChart.
Import JSMath JSNumber LinkBudget.Enhanced.
Open Scope R_scope.

(** The object returned by [calculateLinkBudget]. *)
Record BudgetJS := mkBudgetJS {
  j_distance : Num;
  j_FSPL : Num;
  j_atmosphericLoss : Num;
  j_rainLoss : Num;
  j_rxPower : Num;
  j_noiseFloor : Num;
  j_SNR : Num;
  j_marginDb : Num
}.

(** [calculateLinkBudget(elevationDeg, frequency)] for a finite elevation
    and frequency. *)
Definition calculateLinkBudget_at (elevationDeg frequency : R) : BudgetJS :=
  let distance :=
    div (Fin 550) (Fin (Math_sin (elevationDeg * Math_PI / 180))) in
  let FSPL :=
    add (add (mul (Fin 20) (log10 (mul distance (Fin 1000))))
             (mul (Fin 20) (log10 (Fin frequency))))
        (mul (Fin 20) (log10 (Fin (4 * Math_PI / SPEED_OF_LIGHT)))) in
  let atmosphericLoss :=
    div (Fin 0.5)
        (Fin (Math_sin (Math_max elevationDeg 5 * Math_PI / 180))) in
  let rainLoss := Fin (rainLossOf elevationDeg) in
  let rxPower :=
    add (sub (sub (sub (Fin SATELLITE_EIRP) FSPL) atmosphericLoss) rainLoss)
        (Fin TERMINAL_GAIN) in
  let noiseFloor :=
    mul (Fin 10) (log10 (Fin (BOLTZMANN * NOISE_TEMP * BANDWIDTH))) in
  let SNR := sub (sub rxPower noiseFloor) (Fin 30) in
  mkBudgetJS distance FSPL atmosphericLoss rainLoss rxPower noiseFloor SNR
             (sub SNR (Fin 10)).

(** [frequency = FREQ_DOWNLINK] is the default argument. *)
Definition calculateLinkBudget (elevationDeg : R) : BudgetJS :=
  calculateLinkBudget_at elevationDeg FREQ_DOWNLINK.

(** The callback of [bitsPerSymbol.map]: the bar of a modulation of
    [bits] bits per symbol. *)
Definition throughputOf (currentSNR : Num) (bits : R) : R :=
  let requiredSNR := bits * 3 in
  if lt currentSNR (Fin requiredSNR) then 0
  else
    let symbolRate := BANDWIDTH / 1.2 in
    (bits * symbolRate) / 1e6.

Definition bitsPerSymbol : list R := [1; 2; 3; 4; 5; 6; 7; 8].

(** The bars drawn for a selected satellite at elevation [el] ([st.el]). *)
Definition throughputs (el : R) : list R :=
  let currentSNR := j_SNR (calculateLinkBudget el) in
  map (throughputOf currentSNR) bitsPerSymbol.

(** The bar colours: [t > 0 ? '#00ff44' : '#ff4444']. *)
Definition barColours (el : R) : list string :=
  map (fun t => if js_gt t 0 then "#00ff44"%string else "#ff4444"%string)
      (throughputs el).
End ThroughputChart.

(* ------------------------------------------------------------------ *)
(** * The on-page log of the terminal and tactical variants *)

Module TerminalLog.
(** One [div.terminal-line]: the time, the type and the message. *)
Record Line := mkLine {
  l_time : string;
  l_type : string;
  l_message : string
}.

(** "Limitar a 50 linhas" (terminal) and "Limitar a 100 linhas"
    (tactical). *)
Definition terminal_limit : nat := 50.
Definition tactical_limit : nat := 100.

(** [while (terminal.children.length > limit)
       terminal.removeChild(terminal.firstChild);] *)
Fixpoint trimTo (limit : nat) (children : list Line) : list Line :=
  match children with
  | [] => []
  | _ :: rest =>
      if (limit <? List.length children)%nat then trimTo limit rest
      else children
  end.

(** [updateTerminalLog(type, message)] on the children of
    [#terminalOutput]; [None] when the page has no such element. *)
Definition updateTerminalLog (limit : nat) (terminal : option (list Line))
           (line : Line) : option (list Line) :=
  match terminal with
  | None => None
  | Some children => Some (trimTo limit (children ++ [line]))
  end.

(** The lines logged one after the other, oldest first. *)
Definition logAll (limit : nat) (terminal : option (list Line))
           (lines : list Line) : option (list Line) :=
  fold_left (updateTerminalLog limit) lines terminal.

(** The last [n] elements of a list. *)
Definition lastn {A : Type} (n : nat) (l : list A) : list A :=
  skipn (List.length l - n) l.
End TerminalLog.

(* ------------------------------------------------------------------ *)
(** * The build script (build_starlink_json.js, last file of docs/app.js) *)

Module BuildScript.
Import JSMath.
Open Scope R_scope.

(** A JavaScript number that may be [NaN]. *)
Inductive JsNumber : Type :=
| NaN
| Num (x : R).

(** [n || 0]. *)
Definition orZero (n : JsNumber) : R :=
  match n with
  | NaN => 0
  | Num x => x
  end.

(** A string read as a condition: the empty string is falsy. *)
Definition nonEmpty (s : string) : bool :=
  match s with
  | EmptyString => false
  | String _ _ => true
  end.

(** The entries written to the TLE file:
    [{ name, noradId, line1, line2 }]. *)
Record Built := mkBuilt {
  b_name : string;
  b_noradId : JsNumber;
  b_line1 : string;
  b_line2 : string
}.

(** Ascending by [noradId || 0]. *)
Definition by_noradId (a b : Built) : Prop :=
  orZero (b_noradId a) <= orZero (b_noradId b).

(** [meta = { count, source, updatedAt }]. *)
Record Meta := mkMeta {
  count : nat;
  source : string;
  updatedAt : string
}.

Section WithBuiltins.
(** The values of the input JSON. *)
Variable json : Type.
(** [Number(v)], [String.prototype.trim] and the text a template literal
    gives a number. *)
Variable Number : option json -> JsNumber.
Variable trim : string -> string.
Variable numberText : R -> string.

(** [obj.spaceTrack], fields absent from the JSON being [None]. *)
Record SpaceTrack := mkSpaceTrack {
  TLE_LINE1 : option string;
  TLE_LINE2 : option string;
  NORAD_CAT_ID : option json;
  OBJECT_NAME : option string
}.

Record RawObject := mkRawObject {
  spaceTrack : option SpaceTrack
}.

(** [`STARLINK-${noradId || ""}`.trim()]. *)
Definition defaultName (noradId : JsNumber) : string :=
  let shown :=
    match noradId with
    | NaN => EmptyString
    | Num x => if js_eq x 0 then EmptyString else numberText x
    end in
  trim (append "STARLINK-" shown).

(** The function passed to [raw.map]; [None] is [null]. *)
Definition convert (obj : RawObject) : option Built :=
  let st := spaceTrack obj in
  let line1 :=
    match st with
    | Some st' => option_map trim (TLE_LINE1 st')
    | None => None
    end in
  let line2 :=
    match st with
    | Some st' => option_map trim (TLE_LINE2 st')
    | None => None
    end in
  match line1, line2 with
  | Some l1, Some l2 =>
      if negb (nonEmpty l1) || negb (nonEmpty l2) then None
      else
        let noradId :=
          Number (match st with
                  | Some st' => NORAD_CAT_ID st'
                  | None => None
                  end) in
        let name :=
          match st with
          | Some (mkSpaceTrack _ _ _ (Some n)) =>
              if nonEmpty n then n else defaultName noradId
          | _ => defaultName noradId
          end in
        Some (mkBuilt name noradId l1 l2)
  | _, _ => None
  end.

(** [.map(...).filter(Boolean)]. *)
Fixpoint mapFilter (raw : list RawObject) : list Built :=
  match raw with
  | [] => []
  | obj :: rest =>
      match convert obj with
      | Some b => b :: mapFilter rest
      | None => mapFilter rest
      end
  end.

(** [.sort((a, b) => (a.noradId || 0) - (b.noradId || 0))]: ascending,
    entries of equal key keep their order. *)
Fixpoint insert_asc (x : Built) (l : list Built) : list Built :=
  match l with
  | [] => [x]
  | y :: l' =>
      if js_lt (orZero (b_noradId y)) (orZero (b_noradId x))
      then y :: insert_asc x l'
      else x :: l
  end.

Fixpoint sort_asc (l : list Built) : list Built :=
  match l with
  | [] => []
  | x :: l' => insert_asc x (sort_asc l')
  end.

(** [build]: the list and the metadata it writes; [now] is
    [new Date().toISOString()]. *)
Definition build (now : string) (raw : list RawObject)
  : list Built * Meta :=
  let list := sort_asc (mapFilter raw) in
  let meta :=
    mkMeta (List.length list) "SpaceX API v4 (starlink)" now in
  (list, meta).
End WithBuiltins.
End BuildScript.

(* ------------------------------------------------------------------ *)
(** * A small input for the build script *)

Module BuildScenario.
Import BuildScript.
Open Scope R_scope.

(** The JSON values are stood for by the number they convert to. *)
Definition toNumber (v : option R) : JsNumber :=
  match v with
  | Some x => Num x
  | None => NaN
  end.

Definition iss : RawObject R :=
  mkRawObject
    (Some (mkSpaceTrack (Some "1 25544U"%string) (Some "2 25544"%string)
                        (Some 25544) (Some "ISS"%string))).

(** An object whose second line is missing. *)
Definition broken : RawObject R :=
  mkRawObject
    (Some (mkSpaceTrack (Some "1 44713U"%string) None
                        (Some 44713) (Some "STARLINK-1007"%string))).

Definition iss_built : Built :=
  mkBuilt "ISS" (Num 25544) "1 25544U" "2 25544".
End BuildScenario.

(* ------------------------------------------------------------------ *)
(** * [getSatState] of the first basic copy (no try/catch, no check of
      the coordinates) *)

Module SatStateCopies.
Import SatStateCalc.

Section Lib.
Variables number satrec date gmstT eciT ecfT exn : Type.
Variable satellite : SatelliteJs number satrec date gmstT eciT ecfT exn.
Variable isFinite : number -> bool.
Variable zero : number.
Variable obs : Obs number.
(** The [TypeError] of reading [pv.position] when [pv] is [null] or
    [undefined]. *)
Variable typeError : exn.

Definition getSatState_unguarded (rec : satrec) (time : date)
  : result exn (option (State number)) :=
  gmst <- gstime satellite time ;;
  pv <- propagate satellite rec time ;;
  match pv with
  | None => Throw typeError
  | Some pv' =>
      match position pv' with
      | None => Ok None
      | Some eci =>
          gd <- eciToGeodetic satellite eci gmst ;;
          lat <- radiansToDegrees satellite (latitude gd) ;;
          lon <- radiansToDegrees satellite (longitude gd) ;;
          let alt := height gd in
          obsLat <- degreesToRadians satellite (o_lat obs) ;;
          obsLon <- degreesToRadians satellite (o_lon obs) ;;
          let obsGd := mkGeodetic obsLat obsLon zero in
          satEcf <- eciToEcf satellite eci gmst ;;
          look <- ecfToLookAngles satellite obsGd satEcf ;;
          az <- radiansToDegrees satellite (azimuth look) ;;
          el <- radiansToDegrees satellite (elevation look) ;;
          Ok (Some (mkState lat lon alt az el))
      end
  end.

(** Latitude, longitude and altitude of a state are finite. *)
Definition finiteState (s : State number) : bool :=
  isFinite (s_lat s) && isFinite (s_lon s) && isFinite (s_alt s).

(** What the guarded copy makes of an outcome of the unguarded one. *)
Definition guard (r : result exn (option (State number)))
  : result exn (option (State number)) :=
  match r with
  | Ok (Some s) => if finiteState s then Ok (Some s) else Ok None
  | Ok None => Ok None
  | Throw _ => Ok None
  end.
End Lib.
End SatStateCopies.

(* ------------------------------------------------------------------ *)
(** * Weather cache of the terminal variant *)

Module WeatherFetch.
Open Scope R_scope.

(** The globals [weatherData] and [weatherLastFetch]. *)
Record WState := mkWState {
  weatherData : option Weather;
  weatherLastFetch : Z
}.

Definition initial : WState := mkWState None 0%Z.

(** Which of the calls throw: inside the [try] block the first
    [updateTerminalLog], [updateWeatherDisplay] and the second
    [updateTerminalLog]; inside the [catch] clause its
    [updateTerminalLog]. *)
Record Effects := mkEffects {
  log_before_throws : bool;
  display_throws : bool;
  log_after_throws : bool;
  log_error_throws : bool
}.

(** The four [Math.random()] draws, in the order of the object literal. *)
Record Draws := mkDraws {
  d_cloud : R;
  d_precip : R;
  d_humidity : R;
  d_temp : R
}.

(** What the [catch] clause stores. *)
Definition fallback : Weather := mkWeather 0 0 70 25.

(** The [catch] clause entered with globals [s]: it logs, then stores the
    fallback; [None] is the rejected promise when its log call throws. *)
Definition catchClause (fx : Effects) (s : WState)
  : WState * option Weather :=
  if log_error_throws fx then (s, None)
  else (mkWState (Some fallback) (weatherLastFetch s), Some fallback).

(** [fetchWeatherData()] with [now = Date.now()]: the new globals and the
    value the promise resolves to. *)
Definition fetchWeatherData (now : Z) (draws : Draws) (fx : Effects)
           (s : WState) : WState * option Weather :=
  let refetch :=
    if log_before_throws fx then catchClause fx s
    else
      let fresh :=
        mkWeather (d_cloud draws * 100) (d_precip draws * 10)
                  (60 + d_humidity draws * 30) (20 + d_temp draws * 15) in
      let s' := mkWState (Some fresh) now in
      if display_throws fx then catchClause fx s'
      else if log_after_throws fx then catchClause fx s'
      else (s', Some fresh) in
  match weatherData s with
  | Some w =>
      if (now - weatherLastFetch s <? 30 * 60 * 1000)%Z then (s, Some w)
      else refetch
  | None => refetch
  end.

(** A draw of [Math.random()] lies in [0, 1). *)
Definition unitDraws (d : Draws) : Prop :=
  0 <= d_cloud d < 1 /\ 0 <= d_precip d < 1
  /\ 0 <= d_humidity d < 1 /\ 0 <= d_temp d < 1.

(** The ranges the simulated weather stays in. *)
Definition plausible (w : Weather) : Prop :=
  0 <= cloudCover w <= 100 /\ 0 <= precipitation w <= 10
  /\ 60 <= humidity w <= 90 /\ 20 <= temperature w <= 35.

(** One call: its clock reading, draws and exceptions. *)
Record Call := mkCall {
  c_now : Z;
  c_draws : Draws;
  c_fx : Effects
}.

(** The globals after a sequence of calls, oldest first. *)
Definition fetchAll (calls : list Call) (s : WState) : WState :=
  fold_left
    (fun st c => fst (fetchWeatherData (c_now c) (c_draws c) (c_fx c) st))
    calls s.
End WeatherFetch.

(* ------------------------------------------------------------------ *)
(** * Predicates on the weather cache *)

Module WeatherSpec.
Import WeatherFetch.

(** The weather held in the globals, if any, is within the ranges. *)
Definition storedPlausible (s : WState) : Prop :=
  match weatherData s with
  | Some w => plausible w
  | None => True
  end.

(** Every call draws from [0, 1). *)
Definition unitCalls (calls : list Call) : Prop :=
  Forall (fun c => unitDraws (c_draws c)) calls.

(** Every call reads a clock less than 30 minutes past [t0]. *)
Definition within30min (t0 : Z) (calls : list Call) : Prop :=
  Forall (fun c => (c_now c - t0 < 30 * 60 * 1000)%Z) calls.

(** A call on which nothing throws. *)
Definition quiet : Effects := mkEffects false false false false.

(** Example calls: one at 1 000 ms that throws in the display update,
    one 31 minutes later that succeeds, one 10 minutes after that. *)
Definition draws1 : Draws := mkDraws (1/2) (1/4) (1/3) (4/5).
Definition call_failing : Call :=
  mkCall 1000 draws1 (mkEffects false true false false).
Definition call_fresh : Call := mkCall 1861000 draws1 quiet.
Definition call_cached : Call :=
  mkCall 2461000 (mkDraws 0 (9/10) 0 0) quiet.
End WeatherSpec.

(* ================================================================== *)
(** * Facts about the JavaScript comparisons *)

Module JSMathFacts.
Import JSMath.
Open Scope R_scope.

Lemma js_lt_true x y : js_lt x y = true <-> x < y.
Proof. unfold js_lt; destruct (Rlt_dec x y); split; intros; auto; discriminate. Qed.

Lemma js_lt_false x y : js_lt x y = false <-> y <= x.
Proof.
  unfold js_lt; destruct (Rlt_dec x y); split; intros; auto; try discriminate; lra.
Qed.

Lemma js_gt_true x y : js_gt x y = true <-> y < x.
Proof. apply js_lt_true. Qed.

Lemma js_gt_false x y : js_gt x y = false <-> x <= y.
Proof. apply js_lt_false. Qed.

Lemma js_ge_true x y : js_ge x y = true <-> y <= x.
Proof. unfold js_ge; destruct (Rle_dec y x); split; intros; auto; discriminate. Qed.

Lemma js_ge_false x y : js_ge x y = false <-> x < y.
Proof.
  unfold js_ge; destruct (Rle_dec y x); split; intros; auto; try discriminate; lra.
Qed.

Lemma js_eq_true x y : js_eq x y = true <-> x = y.
Proof. unfold js_eq; destruct (Req_dec_T x y); split; intros; auto; discriminate. Qed.

Lemma js_eq_false x y : js_eq x y = false <-> x <> y.
Proof.
  unfold js_eq; destruct (Req_dec_T x y); split; intros; auto; try discriminate.
  contradiction.
Qed.
End JSMathFacts.

(** Decide one JavaScript comparison between concrete reals. *)
Ltac js_decide :=
  match goal with
  | |- JSMath.js_lt ?x ?y = true => apply JSMathFacts.js_lt_true; lra
  | |- JSMath.js_lt ?x ?y = false => apply JSMathFacts.js_lt_false; lra
  | |- JSMath.js_gt ?x ?y = true => apply JSMathFacts.js_gt_true; lra
  | |- JSMath.js_gt ?x ?y = false => apply JSMathFacts.js_gt_false; lra
  | |- JSMath.js_ge ?x ?y = true => apply JSMathFacts.js_ge_true; lra
  | |- JSMath.js_ge ?x ?y = false => apply JSMathFacts.js_ge_false; lra
  | |- JSMath.js_eq ?x ?y = true => apply JSMathFacts.js_eq_true; lra
  | |- JSMath.js_eq ?x ?y = false => apply JSMathFacts.js_eq_false; lra
  end.

(* ================================================================== *)
(** * Link budget: closed form, modulation, rain attenuation *)

Module LinkBudgetFacts.
Import JSMath LinkBudget.
Open Scope R_scope.

Lemma distance_metres (s : R) : 550 / s * 1000 = 1000 * 550 / s.
Proof. unfold Rdiv; ring. Qed.

Lemma terminal_SNR_eq (config : Config) (e r : R) :
  SNR (Terminal.calculateLinkBudget config e r)
  = Spec.SNR_closed_form (considerRain config) e r.
Proof.
  unfold Terminal.calculateLinkBudget, Spec.SNR_closed_form,
    Spec.FSPL_closed_form, Spec.degrees, Spec.log10,
    Math_log10, Math_sin, Math_max, Math_PI; simpl.
  rewrite distance_metres.
  unfold Rdiv; rewrite !Rmult_assoc; reflexivity.
Qed.

Lemma tactical_SNR_eq (config : Config) (e r : R) :
  t_SNR (Tactical.calculateLinkBudget config e r)
  = SNR (Terminal.calculateLinkBudget config e r).
Proof.
  unfold Tactical.calculateLinkBudget, Terminal.calculateLinkBudget.
  cbv zeta.
  match goal with
  | |- context [let '(_, _) := ?c in _] => destruct c
  end.
  reflexivity.
Qed.

(** C3: in the terminal and tactical variants [calculateLinkBudget]
    returns, for every elevation and rain attenuation, the SNR of the
    closed form (35 - FSPL - 0.5/sin(max(e,5) deg) - r' + 33) - (-134),
    a function of the configuration flag, the elevation and the rain
    attenuation only. *)
Theorem calculateLinkBudget_closed_form :
  forall (config : Config) (e r : R),
    SNR (Terminal.calculateLinkBudget config e r)
    = Spec.SNR_closed_form (considerRain config) e r
    /\ t_SNR (Tactical.calculateLinkBudget config e r)
       = Spec.SNR_closed_form (considerRain config) e r.
Proof.
  intros config e r; split.
  - apply terminal_SNR_eq.
  - rewrite tactical_SNR_eq; apply terminal_SNR_eq.
Qed.

Lemma tactical_modulation (config : Config) (e r : R) :
  let b := Tactical.calculateLinkBudget config e r in
  (modulation b, dataRate b) = Spec.modulation_table (t_SNR b).
Proof.
  unfold Tactical.calculateLinkBudget; cbv zeta.
  match goal with
  | |- context [let '(_, _) := ?c in _] => destruct c as [m d] eqn:E
  end.
  simpl; rewrite <- E.
  unfold Spec.modulation_table, js_gt, js_lt.
  repeat match goal with
         | |- context [Rlt_dec ?a ?b] => destruct (Rlt_dec a b)
         end; reflexivity.
Qed.

Lemma modulation_table_monotone (s1 s2 : R) :
  s1 <= s2 ->
  (snd (Spec.modulation_table s1) <= snd (Spec.modulation_table s2))%nat.
Proof.
  intros Hle; unfold Spec.modulation_table.
  repeat match goal with
         | |- context [Rlt_dec ?a ?b] => destruct (Rlt_dec a b)
         end; simpl; try lia; exfalso; lra.
Qed.

(** [Math.log10] from a power of ten up. *)
Lemma log10_at_least (x : R) (n : nat) :
  10 ^ n <= x -> INR n <= Math_log10 x.
Proof.
  intros Hle; unfold Math_log10.
  assert (H10 : 0 < ln 10) by (rewrite <- ln_1; apply ln_increasing; lra).
  assert (Hpow : 0 < 10 ^ n) by (apply pow_lt; lra).
  assert (Hln : INR n * ln 10 <= ln x).
  { rewrite <- ln_pow by lra.
    destruct Hle as [Hlt | <-];
      [left; apply ln_increasing; assumption | right; reflexivity]. }
  apply Rmult_le_reg_r with (r := ln 10); [exact H10 |].
  unfold Rdiv; rewrite Rmult_assoc, Rinv_l by lra.
  lra.
Qed.

(** Below 180 degrees the sine of an elevation clamped from below at a
    positive angle of at most 90 degrees lies in (0, 1]. *)
Lemma sin_clamped_unit (lo e : R) :
  0 < lo <= 90 -> e < 180 -> 0 < sin (Rmax e lo * PI / 180) <= 1.
Proof.
  intros [Hlo Hlo90] He.
  pose proof PI_RGT_0 as Hpi.
  assert (H1 : lo <= Rmax e lo) by apply Rmax_r.
  assert (H180 : Rmax e lo < 180) by (apply Rmax_lub_lt; lra).
  split; [apply sin_gt_0; nra |].
  apply (SIN_bound (Rmax e lo * PI / 180)).
Qed.

(** The free-space loss over at least 550 km at 11.5 GHz, with the
    constant 92.45 added, keeps the SNR under -190 dB for every elevation
    below 180 degrees and every rain attenuation that is not negative. *)
Lemma SNR_closed_form_upper (rainConsidered : bool) (e r : R) :
  e < 180 -> 0 <= r -> Spec.SNR_closed_form rainConsidered e r < -190.
Proof.
  intros He Hr.
  unfold Spec.SNR_closed_form, Spec.FSPL_closed_form, Spec.degrees.
  change Spec.log10 with Math_log10; cbv zeta.
  destruct (@sin_clamped_unit 1 e ltac:(lra) He) as [Hs1 Hs1le].
  destruct (@sin_clamped_unit 5 e ltac:(lra) He) as [Hs5 _].
  set (s1 := sin (Rmax e 1 * PI / 180)) in *.
  set (s5 := sin (Rmax e 5 * PI / 180)) in *.
  assert (Hdist : 10 ^ 5 <= 1000 * 550 / s1).
  { apply Rmult_le_reg_r with (r := s1); [exact Hs1 |].
    replace (1000 * 550 / s1 * s1) with 550000 by (field; lra).
    simpl; nra. }
  assert (Hfreq : 10 ^ 10 <= 11.5e9) by (simpl; lra).
  apply log10_at_least in Hdist; apply log10_at_least in Hfreq.
  simpl in Hdist, Hfreq.
  assert (Hatm : 0 < 0.5 / s5) by (apply Rdiv_lt_0_compat; lra).
  destruct rainConsidered; lra.
Qed.

(** C6: in the tactical variant [calculateLinkBudget] computes the SNR of
    the closed form from its arguments, and the modulation and data rate
    it reports are the step function of that SNR (above 25: 256-APSK at
    400 Mbps, above 20: 128-APSK at 350, above 18: 64-APSK at 300, above
    15: 32-APSK at 250, above 12: 16-APSK at 200, above 8: 8PSK at 150,
    otherwise QPSK at 50); between any two inputs a higher SNR never
    reports a lower data rate. *)
Theorem modulation_step_function :
  forall (c1 c2 : Config) (e1 r1 e2 r2 : R),
    let b1 := Tactical.calculateLinkBudget c1 e1 r1 in
    let b2 := Tactical.calculateLinkBudget c2 e2 r2 in
    t_SNR b1 = Spec.SNR_closed_form (considerRain c1) e1 r1
    /\ (modulation b1, dataRate b1)
       = Spec.modulation_table
           (Spec.SNR_closed_form (considerRain c1) e1 r1)
    /\ (Spec.SNR_closed_form (considerRain c1) e1 r1
        <= Spec.SNR_closed_form (considerRain c2) e2 r2 ->
        (dataRate b1 <= dataRate b2)%nat).
Proof.
  intros c1 c2 e1 r1 e2 r2 b1 b2.
  assert (Hsnr : forall c e r,
            t_SNR (Tactical.calculateLinkBudget c e r)
            = Spec.SNR_closed_form (considerRain c) e r)
    by (intros c e r; rewrite tactical_SNR_eq; apply terminal_SNR_eq).
  pose proof (tactical_modulation c1 e1 r1) as H1.
  pose proof (tactical_modulation c2 e2 r2) as H2.
  cbv zeta in H1, H2; fold b1 in H1; fold b2 in H2.
  unfold b1 in H1 at 3; unfold b2 in H2 at 3; rewrite Hsnr in H1, H2.
  split; [apply Hsnr | split; [exact H1 |]].
  intros Hle.
  apply (f_equal snd) in H1; apply (f_equal snd) in H2; simpl in H1, H2.
  rewrite H1, H2; apply modulation_table_monotone; exact Hle.
Qed.

(** Two zenith links with rain considered.  In clear sky the SNR is under
    -190 dB and the link reports QPSK at 50 Mbps.  The second link is
    given the rain attenuation that leaves an SNR of exactly 30 dB (a
    negative attenuation, which the function takes like any other
    number): it crosses every threshold and reports 256-APSK at 400
    Mbps. *)
Lemma modulation_step_function_witness :
  let cfg := mkConfig true true false 5 in
  let clear := Tactical.calculateLinkBudget cfg 90 0 in
  let strong := Tactical.calculateLinkBudget cfg 90 (t_SNR clear - 30) in
  t_SNR clear < -190 /\ t_SNR strong = 30
  /\ (modulation clear, dataRate clear) = ("QPSK"%string, 50%nat)
  /\ (modulation strong, dataRate strong) = ("256-APSK"%string, 400%nat)
  /\ (dataRate clear <= dataRate strong)%nat.
Proof.
  intros cfg clear strong.
  destruct (modulation_step_function cfg cfg 90 0 90 (t_SNR clear - 30))
    as (Hclear & Htable & Hmono).
  destruct (modulation_step_function cfg cfg 90 (t_SNR clear - 30) 90 0)
    as (Hstrong & Htable' & _).
  fold clear in Hclear, Htable, Hmono; fold strong in Hstrong, Htable', Hmono.
  assert (Hlow : t_SNR clear < -190)
    by (rewrite Hclear; apply SNR_closed_form_upper; lra).
  assert (H30 : Spec.SNR_closed_form (considerRain cfg) 90 (t_SNR clear - 30)
                = 30).
  { rewrite Hclear; unfold Spec.SNR_closed_form; simpl; lra. }
  rewrite H30 in Hstrong, Htable', Hmono.
  split; [exact Hlow | split; [exact Hstrong |]].
  split; [| split].
  - rewrite Htable; unfold Spec.modulation_table.
    rewrite <- Hclear.
    repeat match goal with
           | |- context [Rlt_dec ?a ?b] =>
               destruct (Rlt_dec a b); [exfalso; lra |]
           end.
    reflexivity.
  - rewrite Htable'; unfold Spec.modulation_table.
    destruct (Rlt_dec 25 30); [reflexivity | exfalso; lra].
  - apply Hmono; rewrite <- Hclear; lra.
Defined.

(** ** Rain attenuation *)

Lemma tactical_rain_eq (config : Config) (e p : R) :
  Tactical.calculateRainAttenuation config e p
  = Terminal.calculateRainAttenuation config e p.
Proof. reflexivity. Qed.

Lemma rain_zero (config : Config) (e p : R) :
  p = 0 \/ considerRain config = false ->
  Terminal.calculateRainAttenuation config e p = 0.
Proof.
  intros [Hp | Hc]; unfold Terminal.calculateRainAttenuation.
  - apply JSMathFacts.js_eq_true in Hp; rewrite Hp; reflexivity.
  - rewrite Hc, orb_true_r; reflexivity.
Qed.

Lemma rain_formula (config : Config) (e p : R) :
  p <> 0 -> considerRain config = true ->
  Terminal.calculateRainAttenuation config e p = Spec.rain_closed_form e p.
Proof.
  intros Hp Hc; unfold Terminal.calculateRainAttenuation.
  apply JSMathFacts.js_eq_false in Hp; rewrite Hp, Hc; reflexivity.
Qed.

(** Below 180 degrees the clamped elevation has a positive sine. *)
Lemma sin_clamped_pos (e : R) :
  e < 180 -> 0 < sin (Rmax e 5 * PI / 180).
Proof.
  intros He.
  pose proof PI_RGT_0 as Hpi.
  assert (H5 : 5 <= Rmax e 5) by apply Rmax_r.
  assert (H180 : Rmax e 5 < 180) by (apply Rmax_lub_lt; lra).
  apply sin_gt_0; nra.
Qed.

Lemma rain_closed_form_range (e p : R) :
  e < 180 -> 0 <= Spec.rain_closed_form e p <= 20.
Proof.
  intros He; unfold Spec.rain_closed_form, Spec.degrees.
  pose proof (sin_clamped_pos He) as Hsin.
  split; [| apply Rmin_r].
  apply Rmin_glb; [| lra].
  assert (Hk : 0 < Rpower 11.5 2.03) by apply exp_pos.
  assert (Hp : 0 < Rpower p 1.065) by apply exp_pos.
  assert (Hslant : 0 < 550 / sin (Rmax e 5 * PI / 180)).
  { apply Rdiv_lt_0_compat; lra. }
  assert (Hm : 0 <= Rmin (550 / sin (Rmax e 5 * PI / 180) / 10) 5).
  { apply Rmin_glb; lra. }
  apply Rmult_le_pos; [| exact Hm].
  apply Rmult_le_pos; [| lra].
  apply Rmult_le_pos; lra.
Qed.

(** C4: [calculateRainAttenuation] (terminal and tactical variants)
    returns exactly 0 when the precipitation is 0 or rain is not
    considered, and otherwise the closed form
    min(0.0101 * 11.5^2.03 * p^1.065 * min((550/sin(max(e,5) deg))/10, 5),
    20), for every elevation and precipitation; for every elevation below
    180 degrees, which covers those the dashboards pass (the look-angle
    elevation of a satellite, between -90 and 90 degrees, the fixed 45
    degrees and the chart grid from 0 to 90), and a precipitation that is
    not negative, the result lies in [0, 20]. *)
Theorem calculateRainAttenuation_closed_form :
  forall (config : Config) (e p : R),
    Tactical.calculateRainAttenuation config e p
    = Terminal.calculateRainAttenuation config e p
    /\ (p = 0 \/ considerRain config = false ->
        Terminal.calculateRainAttenuation config e p = 0)
    /\ (p <> 0 -> considerRain config = true ->
        Terminal.calculateRainAttenuation config e p
        = Spec.rain_closed_form e p)
    /\ (e < 180 -> 0 <= p ->
        0 <= Terminal.calculateRainAttenuation config e p <= 20).
Proof.
  intros config e p; repeat split.
  - apply rain_zero.
  - apply rain_formula.
  - destruct (Req_dec_T p 0) as [Hp | Hp];
      [rewrite rain_zero by (left; exact Hp); lra |].
    destruct (considerRain config) eqn:Hc;
      [| rewrite rain_zero by (right; exact Hc); lra].
    rewrite rain_formula by assumption.
    apply rain_closed_form_range; assumption.
  - destruct (Req_dec_T p 0) as [Hp | Hp];
      [rewrite rain_zero by (left; exact Hp); lra |].
    destruct (considerRain config) eqn:Hc;
      [| rewrite rain_zero by (right; exact Hc); lra].
    rewrite rain_formula by assumption.
    apply rain_closed_form_range; assumption.
Qed.

(** At 45 degrees and 2 mm/h with rain considered. *)
Lemma calculateRainAttenuation_closed_form_witness :
  let cfg := mkConfig true true false 5 in
  Terminal.calculateRainAttenuation cfg 45 2 = Spec.rain_closed_form 45 2
  /\ 0 <= Terminal.calculateRainAttenuation cfg 45 2 <= 20
  /\ Terminal.calculateRainAttenuation cfg 45 0 = 0.
Proof.
  intros cfg.
  destruct (calculateRainAttenuation_closed_form cfg 45 2)
    as (_ & _ & Hform & Hrange).
  destruct (calculateRainAttenuation_closed_form cfg 45 0)
    as (_ & Hzero & _ & _).
  split; [apply Hform; [lra | reflexivity] |].
  split; [apply Hrange; lra |].
  apply Hzero; left; reflexivity.
Defined.

Lemma Rpower_one_base (y : R) : Rpower 1 y = 1.
Proof. unfold Rpower; rewrite ln_1, Rmult_0_r; apply exp_0. Qed.

(** The bound of 180 degrees is needed: at 270 degrees (1 mm/h, rain
    considered) the sine is -1, the slant path is negative and so is the
    returned attenuation.  No call passes such an elevation. *)
Lemma rain_attenuation_negative_at_270 :
  ~ (0 <= Terminal.calculateRainAttenuation (mkConfig true true false 5) 270 1
     <= 20).
Proof.
  intros [H0 _]; revert H0.
  rewrite rain_formula by (simpl; first [lra | reflexivity]).
  unfold Spec.rain_closed_form, Spec.degrees.
  rewrite (Rmax_left 270 5) by lra.
  replace (270 * PI / 180) with (3 * (PI / 2)) by lra.
  rewrite sin_3PI2, Rpower_one_base.
  rewrite (Rmin_left (550 / -1 / 10) 5) by lra.
  assert (Hk : 0 < Rpower 11.5 2.03) by apply exp_pos.
  rewrite Rmin_left by nra.
  nra.
Qed.
End LinkBudgetFacts.

(* ================================================================== *)
(** * The enhanced variant against the terminal and tactical variants *)

Module VariantFacts.
Import JSMath LinkBudget.
Open Scope R_scope.

Lemma ln_10_pos : 0 < ln 10.
Proof. rewrite <- ln_1; apply ln_increasing; lra. Qed.

(** [Math.log10] below a negative power of ten. *)
Lemma log10_lt_neg (x : R) (n : nat) :
  0 < x -> x < / 10 ^ n -> Math_log10 x < - INR n.
Proof.
  intros Hx Hlt; unfold Math_log10.
  pose proof ln_10_pos as H10.
  assert (Hpow : 0 < 10 ^ n) by (apply pow_lt; lra).
  assert (Hln : ln x < - (INR n * ln 10)).
  { rewrite <- ln_pow, <- ln_Rinv by lra.
    apply ln_increasing; assumption. }
  apply Rmult_lt_reg_r with (r := ln 10); [exact H10 |].
  unfold Rdiv; rewrite Rmult_assoc, Rinv_l by lra.
  lra.
Qed.

Lemma log10_nonpos (x : R) : 0 < x -> x <= 1 -> Math_log10 x <= 0.
Proof.
  intros Hx Hle; unfold Math_log10.
  pose proof ln_10_pos as H10.
  assert (Hln : ln x <= 0).
  { destruct Hle as [Hlt | ->]; [| rewrite ln_1; lra].
    rewrite <- ln_1; left; apply ln_increasing; lra. }
  apply Rmult_le_reg_r with (r := ln 10); [exact H10 |].
  unfold Rdiv; rewrite Rmult_assoc, Rinv_l by lra.
  lra.
Qed.

Lemma fspl_constant_bound : Spec.fspl_constant < -140.
Proof.
  unfold Spec.fspl_constant, Enhanced.SPEED_OF_LIGHT.
  change Spec.log10 with Math_log10.
  pose proof PI_RGT_0 as Hpos; pose proof PI_4 as H4.
  assert (H : Math_log10 (4 * PI / 299792458) < - INR 7).
  { apply log10_lt_neg; [lra |].
    replace (/ 10 ^ 7) with (1 / 10000000) by (simpl; lra).
    lra. }
  simpl in H; lra.
Qed.

Lemma thermal_floor_bound : Spec.thermal_floor <= 0.
Proof.
  unfold Spec.thermal_floor, Enhanced.BOLTZMANN, Enhanced.NOISE_TEMP,
    Enhanced.BANDWIDTH.
  change Spec.log10 with Math_log10.
  assert (H : Math_log10 (1.38e-23 * 290 * 250e6) <= 0)
    by (apply log10_nonpos; lra).
  lra.
Qed.

Lemma rainLoss_bound (e : R) : 0.5 <= Enhanced.rainLossOf e <= 3.
Proof.
  unfold Enhanced.rainLossOf, js_lt.
  destruct (Rlt_dec e 10); [lra |].
  destruct (Rlt_dec e 20); lra.
Qed.

(** From 1 degree up the two computations share the slant distance and the
    atmospheric loss, and differ by constants and the enhanced rain loss. *)
Lemma enhanced_offset (config : Config) (e : R) :
  1 <= e ->
  e_SNR (Enhanced.calculateLinkBudget e)
  = SNR (Terminal.calculateLinkBudget config e 0)
    - Spec.fspl_constant - Spec.thermal_floor - Enhanced.rainLossOf e - 71.55.
Proof.
  intros He.
  unfold Enhanced.calculateLinkBudget, Enhanced.calculateLinkBudget_at,
    Terminal.calculateLinkBudget, Spec.fspl_constant, Spec.thermal_floor,
    Spec.log10, Math_log10, Math_PI,
    Enhanced.FREQ_DOWNLINK, Enhanced.SATELLITE_EIRP, Enhanced.TERMINAL_GAIN,
    Math_max.
  cbv zeta; simpl.
  rewrite (Rmax_left e 1) by lra.
  destruct (considerRain config); lra.
Qed.

Lemma enhanced_above_terminal (config : Config) (e : R) :
  1 <= e ->
  SNR (Terminal.calculateLinkBudget config e 0) + 65
  < e_SNR (Enhanced.calculateLinkBudget e).
Proof.
  intros He; rewrite (enhanced_offset config He).
  pose proof fspl_constant_bound; pose proof thermal_floor_bound.
  pose proof (rainLoss_bound e).
  lra.
Qed.

Lemma corrected_pro_SNR_eq (config : Config) (e r : R) :
  considerRain config = true ->
  SNR (ProCorrected.calculateLinkBudget e r)
  = SNR (Terminal.calculateLinkBudget config e r).
Proof.
  intros Hc; unfold ProCorrected.calculateLinkBudget,
    Terminal.calculateLinkBudget; rewrite Hc; reflexivity.
Qed.

(** C7, as the code has it: the terminal and tactical variants compute the
    same SNR for every input, and so does the corrected Pro copy when rain
    is considered; the enhanced variant (docs/app-enhanced.js) does not
    share it: for an elevation between 1 and 90 degrees its SNR is the
    terminal one (rain attenuation zero) minus 20*log10(4*pi/c), minus
    10*log10(k*T*B), minus its own rain loss of 3, 1.5 or 0.5 dB, minus
    71.55, which is more than 65 dB higher. *)
Theorem enhanced_SNR_offset :
  forall (config : Config) (e r : R),
    t_SNR (Tactical.calculateLinkBudget config e r)
    = SNR (Terminal.calculateLinkBudget config e r)
    /\ (considerRain config = true ->
        SNR (ProCorrected.calculateLinkBudget e r)
        = SNR (Terminal.calculateLinkBudget config e r))
    /\ (1 <= e <= 90 ->
        e_SNR (Enhanced.calculateLinkBudget e)
        = SNR (Terminal.calculateLinkBudget config e 0)
          - Spec.fspl_constant - Spec.thermal_floor
          - Enhanced.rainLossOf e - 71.55
        /\ SNR (Terminal.calculateLinkBudget config e 0) + 65
           < e_SNR (Enhanced.calculateLinkBudget e)).
Proof.
  intros config e r; split; [| split].
  - apply LinkBudgetFacts.tactical_SNR_eq.
  - apply corrected_pro_SNR_eq.
  - intros [He _]; split.
    + apply enhanced_offset; exact He.
    + apply enhanced_above_terminal; exact He.
Qed.

(** At zenith. *)
Lemma enhanced_SNR_offset_witness :
  let cfg := mkConfig true true false 5 in
  1 <= 90 <= 90
  /\ SNR (Terminal.calculateLinkBudget cfg 90 0) + 65
     < e_SNR (Enhanced.calculateLinkBudget 90).
Proof.
  intros cfg.
  assert (H : 1 <= 90 <= 90) by lra.
  split; [exact H |].
  exact (proj2 (proj2 (proj2 (enhanced_SNR_offset cfg 90 0)) H)).
Defined.

(** The claim as stated fails at zenith: the enhanced SNR is not the
    terminal SNR with zero rain attenuation. *)
Lemma enhanced_SNR_differs_at_zenith :
  e_SNR (Enhanced.calculateLinkBudget 90)
  <> SNR (Terminal.calculateLinkBudget (mkConfig true true false 5) 90 0).
Proof.
  pose proof (@enhanced_above_terminal (mkConfig true true false 5) 90) as H.
  assert (H1 : 1 <= 90) by lra.
  specialize (H H1); lra.
Qed.
End VariantFacts.

(* ================================================================== *)
(** * Handover simulation: selection, hysteresis, candidate list *)

Module HandoverFacts.
Import JSMath Handover.
Open Scope R_scope.

Lemma js_lt_irrefl (x : R) : js_lt x x = false.
Proof. apply JSMathFacts.js_lt_false; lra. Qed.

(** ** Slices *)

Lemma slice_1_4_length {A : Type} (l : list A) :
  (List.length (slice 1 4 l) <= 3)%nat.
Proof. unfold slice; simpl Nat.sub; apply firstn_le_length. Qed.

Lemma slice_1_4_cons {A : Type} (x : A) (l : list A) :
  slice 1 4 (x :: l) = firstn 3 l.
Proof. reflexivity. Qed.

Lemma firstn_incl {A : Type} (n : nat) (l : list A) (x : A) :
  In x (firstn n l) -> In x l.
Proof.
  revert l; induction n as [| n IH]; intros [| y l]; simpl; try tauto.
  intros [-> | H]; auto.
Qed.

Lemma NoDup_firstn {A : Type} (n : nat) (l : list A) :
  NoDup l -> NoDup (firstn n l).
Proof.
  revert l; induction n as [| n IH]; intros l Hnd; simpl; [constructor |].
  destruct l as [| y l]; [constructor |].
  inversion Hnd as [| ? ? Hnotin Hnd']; subst.
  constructor; [| apply IH; exact Hnd'].
  intros Hin; apply Hnotin; eapply firstn_incl; exact Hin.
Qed.

Lemma map_firstn {A B : Type} (f : A -> B) (n : nat) (l : list A) :
  map f (firstn n l) = firstn n (map f l).
Proof.
  revert l; induction n as [| n IH]; intros [| y l]; simpl; auto.
  rewrite IH; reflexivity.
Qed.

Lemma StronglySorted_firstn {A : Type} (R : A -> A -> Prop)
      (n : nat) (l : list A) :
  StronglySorted R l -> StronglySorted R (firstn n l).
Proof.
  revert l; induction n as [| n IH]; intros l Hs; simpl; [constructor |].
  destruct l as [| y l]; [constructor |].
  inversion Hs as [| ? ? Hs' Hall]; subst.
  constructor; [apply IH; exact Hs' |].
  rewrite Forall_forall in *; intros x Hx; apply Hall.
  eapply firstn_incl; exact Hx.
Qed.

Section Variant.
Variable satrec : Type.
Variable linkSNR : Env satrec -> SatState -> R.

(** ** The acquisition loop *)

Lemma visibleEntry_index (env : Env satrec) (i : nat) (e : Entry) :
  visibleEntry linkSNR env i = Some e -> index e = i.
Proof.
  unfold visibleEntry.
  destruct (truthy_at (satRecs env) i); [| discriminate].
  destruct (getSatState env s); [| discriminate].
  destruct (js_lt _ _); [discriminate |].
  destruct (nth_error (tleList env) i); [| discriminate].
  intros [= <-]; reflexivity.
Qed.

(** What an entry pushed on [visible] records. *)
Lemma visibleEntry_spec (env : Env satrec) (i : nat) (e : Entry) :
  visibleEntry linkSNR env i = Some e ->
  exists rec t,
    truthy_at (satRecs env) i = Some rec
    /\ nth_error (tleList env) i = Some t
    /\ getSatState env rec = Some (state e)
    /\ elevMin (obs env) <= el (state e)
    /\ e = mkEntry t (state e) (linkSNR env (state e)) i.
Proof.
  unfold visibleEntry.
  destruct (truthy_at (satRecs env) i) as [rec |]; [| discriminate].
  destruct (getSatState env rec) as [st |] eqn:Hst; [| discriminate].
  destruct (js_lt _ _) eqn:Hlt; [discriminate |].
  destruct (nth_error (tleList env) i) as [t |]; [| discriminate].
  intros [= <-]; exists rec, t; simpl.
  apply JSMathFacts.js_lt_false in Hlt; auto 6.
Qed.

Lemma visibleEntry_lt_length (env : Env satrec) (i : nat) (e : Entry) :
  visibleEntry linkSNR env i = Some e ->
  (i < List.length (tleList env))%nat.
Proof.
  intros H; destruct (visibleEntry_spec _ _ H) as (rec & t & _ & Ht & _).
  apply nth_error_Some; congruence.
Qed.

Lemma collectVisible_In (env : Env satrec) (idxs : list nat) (e : Entry) :
  In e (collectVisible linkSNR env idxs)
  <-> exists i, In i idxs /\ visibleEntry linkSNR env i = Some e.
Proof.
  induction idxs as [| i idxs IH]; simpl.
  - split; [contradiction | intros (i & [] & _)].
  - destruct (visibleEntry linkSNR env i) as [e0 |] eqn:Hi; simpl.
    + rewrite IH; split.
      * intros [<- | (j & Hj & He)]; eauto.
      * intros (j & [<- | Hj] & He); [left; congruence | eauto].
    + rewrite IH; split.
      * intros (j & Hj & He); eauto.
      * intros (j & [<- | Hj] & He); [congruence | eauto].
Qed.

Lemma visibleNow_In (env : Env satrec) (e : Entry) :
  In e (visibleNow linkSNR env)
  <-> exists i, visibleEntry linkSNR env i = Some e.
Proof.
  unfold visibleNow; rewrite collectVisible_In; split.
  - intros (i & _ & He); eauto.
  - intros (i & He); exists i; split; [| exact He].
    apply in_seq; split; [lia |].
    simpl; apply (visibleEntry_lt_length _ _ He).
Qed.

Lemma collectVisible_indices_in (env : Env satrec) (idxs : list nat) (i : nat) :
  In i (map index (collectVisible linkSNR env idxs)) -> In i idxs.
Proof.
  rewrite in_map_iff; intros (e & <- & He).
  apply collectVisible_In in He; destruct He as (j & Hj & He).
  rewrite (visibleEntry_index _ _ He); exact Hj.
Qed.

Lemma collectVisible_NoDup (env : Env satrec) (idxs : list nat) :
  NoDup idxs -> NoDup (map index (collectVisible linkSNR env idxs)).
Proof.
  induction idxs as [| i idxs IH]; intros Hnd; simpl; [constructor |].
  inversion Hnd as [| ? ? Hnotin Hnd']; subst.
  destruct (visibleEntry linkSNR env i) as [e |] eqn:Hi; [| auto].
  simpl; constructor; [| auto].
  rewrite (visibleEntry_index _ _ Hi).
  intros Hin; apply Hnotin; eapply collectVisible_indices_in; exact Hin.
Qed.

Lemma visibleNow_NoDup (env : Env satrec) :
  NoDup (map index (visibleNow linkSNR env)).
Proof. apply collectVisible_NoDup, seq_NoDup. Qed.

(** ** The sort *)

Lemma insert_desc_perm (x : Entry) (l : list Entry) :
  Permutation (insert_desc x l) (x :: l).
Proof.
  induction l as [| y l IH]; simpl; [reflexivity |].
  destruct (js_lt (snr x) (snr y)); [| reflexivity].
  rewrite IH; apply perm_swap.
Qed.

Lemma sort_desc_perm (l : list Entry) : Permutation (sort_desc l) l.
Proof.
  induction l as [| x l IH]; simpl; [reflexivity |].
  rewrite insert_desc_perm; constructor; exact IH.
Qed.

Lemma insert_desc_sorted (x : Entry) (l : list Entry) :
  StronglySorted ranked l -> StronglySorted ranked (insert_desc x l).
Proof.
  induction l as [| y l IH]; intros Hs; simpl.
  - repeat constructor.
  - inversion Hs as [| ? ? Hs' Hall]; subst.
    destruct (js_lt (snr x) (snr y)) eqn:Hlt.
    + apply JSMathFacts.js_lt_true in Hlt.
      constructor; [apply IH; exact Hs' |].
      apply (Permutation_Forall (Permutation_sym (insert_desc_perm x l))).
      constructor; [unfold ranked; lra | exact Hall].
    + apply JSMathFacts.js_lt_false in Hlt.
      constructor; [exact Hs |].
      constructor; [exact Hlt |].
      rewrite Forall_forall in *; intros z Hz.
      specialize (Hall z Hz); unfold ranked in *; lra.
Qed.

Lemma sort_desc_sorted (l : list Entry) :
  StronglySorted ranked (sort_desc l).
Proof.
  induction l as [| x l IH]; simpl; [constructor |].
  apply insert_desc_sorted; exact IH.
Qed.

(** The first entry after the sort has the highest SNR of the list. *)
Lemma sort_desc_head (l : list Entry) (best : Entry) (rest : list Entry) :
  sort_desc l = best :: rest ->
  In best l /\ forall e, In e l -> snr e <= snr best.
Proof.
  intros Heq.
  pose proof (sort_desc_perm l) as Hperm.
  pose proof (sort_desc_sorted l) as Hs.
  rewrite Heq in Hperm, Hs.
  split.
  - apply (Permutation_in _ Hperm); left; reflexivity.
  - intros e He.
    apply (Permutation_in _ (Permutation_sym Hperm)) in He.
    inversion Hs as [| ? ? _ Hall]; subst.
    destruct He as [<- | He]; [lra |].
    rewrite Forall_forall in Hall; exact (Hall e He).
Qed.

(** ** One call preserves well-formedness *)

Lemma wellFormed_initial : wellFormed initial.
Proof.
  unfold wellFormed, initial, tracked; simpl.
  repeat split; auto; constructor.
Qed.

Lemma acquisition_wellFormed (env : Env satrec)
      (best : Entry) (rest : list Entry) :
  sort_desc (visibleNow linkSNR env) = best :: rest ->
  wellFormed (mkHState (Some best) (slice 1 4 (best :: rest))).
Proof.
  intros Heq.
  pose proof (sort_desc_perm (visibleNow linkSNR env)) as Hperm.
  pose proof (sort_desc_sorted (visibleNow linkSNR env)) as Hs.
  pose proof (visibleNow_NoDup env) as Hnd.
  rewrite Heq in Hperm, Hs.
  apply (Permutation_NoDup
           (Permutation_map index (Permutation_sym Hperm))) in Hnd.
  unfold wellFormed, tracked; simpl currentServingSat;
    simpl handoverCandidates.
  rewrite slice_1_4_cons.
  change (best :: firstn 3 rest) with (firstn 4 (best :: rest)).
  repeat split.
  - apply firstn_le_length.
  - rewrite map_firstn; apply NoDup_firstn; exact Hnd.
  - apply StronglySorted_firstn; exact Hs.
  - discriminate.
Qed.

Lemma simulateHandover_wellFormed (env : Env satrec) (s : HState) :
  wellFormed s -> wellFormed (simulateHandover linkSNR env s).
Proof.
  intros Hwf; unfold simulateHandover.
  destruct (currentServingSat s) as [cur |] eqn:Hcur.
  - destruct (degraded env cur); [| exact Hwf].
    destruct Hwf as (Hlen & Hnd & Hs & _).
    unfold tracked in Hnd, Hs; rewrite Hcur in Hnd, Hs.
    destruct (handoverCandidates s) as [| new rest] eqn:Hc.
    + unfold wellFormed, tracked; simpl.
      repeat split; auto; constructor.
    + unfold wellFormed, tracked, slice_from; simpl.
      simpl in Hlen, Hnd.
      inversion Hnd as [| ? ? _ Hnd']; subst.
      inversion Hs as [| ? ? Hs' _]; subst.
      repeat split; auto; try lia; discriminate.
  - destruct (sort_desc (visibleNow linkSNR env)) as [| best rest] eqn:Heq;
      [exact Hwf |].
    exact (acquisition_wellFormed env Heq).
Qed.

Lemma run_wellFormed (envs : list (Env satrec)) (s : HState) :
  wellFormed s -> wellFormed (run linkSNR envs s).
Proof.
  unfold run; revert s; induction envs as [| env envs IH]; intros s Hwf;
    simpl; [exact Hwf |].
  apply IH, simulateHandover_wellFormed; exact Hwf.
Qed.

(** In a well-formed state the serving satellite is not a candidate. *)
Lemma wellFormed_serving_fresh (s : HState) (cur c : Entry) :
  wellFormed s -> currentServingSat s = Some cur ->
  In c (handoverCandidates s) -> index c <> index cur.
Proof.
  intros (_ & Hnd & _) Hcur Hc Heq.
  unfold tracked in Hnd; rewrite Hcur in Hnd; simpl in Hnd.
  inversion Hnd as [| ? ? Hnotin _]; subst.
  apply Hnotin; rewrite <- Heq; apply in_map; exact Hc.
Qed.
End Variant.
End HandoverFacts.

Module HandoverClaims.
Import JSMath Handover HandoverFacts.
Open Scope R_scope.

(** ** The example pass, evaluated *)

Lemma env1_visible :
  visibleNow linkSNR_terminal Scenario.env1
  = [Scenario.entry Scenario.env1 0 40; Scenario.entry Scenario.env1 1 40].
Proof.
  unfold visibleNow, visibleEntry; simpl.
  unfold visibleEntry; simpl.
  replace (js_lt 40 25) with false by (symmetry; js_decide).
  reflexivity.
Qed.

Lemma env1_acquire :
  simulateHandover_terminal Scenario.env1 initial
  = mkHState (Some (Scenario.entry Scenario.env1 0 40))
             [Scenario.entry Scenario.env1 1 40].
Proof.
  unfold simulateHandover_terminal, simulateHandover.
  simpl currentServingSat; rewrite env1_visible.
  cbn [sort_desc insert_desc Scenario.entry snr].
  rewrite js_lt_irrefl; reflexivity.
Qed.

Lemma env2_degraded :
  degraded Scenario.env2 (Scenario.entry Scenario.env1 0 40) = true.
Proof.
  unfold degraded, getSatState_at; simpl.
  js_decide.
Qed.

Lemma env2_handover :
  simulateHandover_terminal Scenario.env2
    (mkHState (Some (Scenario.entry Scenario.env1 0 40))
              [Scenario.entry Scenario.env1 1 40])
  = mkHState (Some (Scenario.entry Scenario.env1 1 40)) [].
Proof.
  unfold simulateHandover_terminal, simulateHandover.
  cbn [currentServingSat handoverCandidates].
  rewrite env2_degraded; reflexivity.
Qed.

Lemma env2_candidate_not_visible :
  visibleEntry linkSNR_terminal Scenario.env2 1 = None.
Proof.
  unfold visibleEntry; simpl.
  replace (js_lt 0 25) with true by (symmetry; js_decide).
  reflexivity.
Qed.

(** ** C9 *)

(** C9: after any number of calls of [simulateHandover] (either copy:
    the statement holds for every SNR function) from the initial state,
    the candidate list has at most 3 entries and no candidate has the
    index of the serving satellite. *)
Theorem candidates_bounded_and_disjoint :
  forall (satrec : Type) (linkSNR : Env satrec -> SatState -> R)
         (envs : list (Env satrec)),
    let s := run linkSNR envs initial in
    (List.length (handoverCandidates s) <= 3)%nat
    /\ forall cur c,
         currentServingSat s = Some cur ->
         In c (handoverCandidates s) ->
         index c <> index cur.
Proof.
  intros satrec linkSNR envs s.
  assert (Hwf : wellFormed s)
    by (apply run_wellFormed, wellFormed_initial).
  split; [apply Hwf |].
  intros cur c Hcur Hc.
  eapply wellFormed_serving_fresh; eassumption.
Qed.

(** After the first tick of the example pass: satellite 0 serves,
    satellite 1 is the only candidate. *)
Lemma candidates_bounded_and_disjoint_witness :
  let s := run linkSNR_terminal [Scenario.env1] initial in
  currentServingSat s = Some (Scenario.entry Scenario.env1 0 40)
  /\ In (Scenario.entry Scenario.env1 1 40) (handoverCandidates s)
  /\ index (Scenario.entry Scenario.env1 1 40)
     <> index (Scenario.entry Scenario.env1 0 40).
Proof.
  intros s.
  assert (Hs : s = mkHState (Some (Scenario.entry Scenario.env1 0 40))
                            [Scenario.entry Scenario.env1 1 40])
    by exact env1_acquire.
  assert (Hcur : currentServingSat s
                 = Some (Scenario.entry Scenario.env1 0 40))
    by (rewrite Hs; reflexivity).
  assert (Hc : In (Scenario.entry Scenario.env1 1 40) (handoverCandidates s))
    by (rewrite Hs; left; reflexivity).
  split; [exact Hcur |]; split; [exact Hc |].
  exact (proj2 (candidates_bounded_and_disjoint linkSNR_terminal
                  [Scenario.env1]) _ _ Hcur Hc).
Defined.

(** ** C2 *)

Lemma degraded_false_iff {satrec : Type} (env : Env satrec) (cur : Entry) :
  degraded env cur = false <-> within_hysteresis cur env.
Proof.
  unfold degraded, within_hysteresis.
  destruct (getSatState_at env (index cur)) as [st |]; split.
  - intros H; apply JSMathFacts.js_lt_false in H; eauto.
  - intros (st' & [= <-] & H); apply JSMathFacts.js_lt_false; exact H.
  - discriminate.
  - intros (st' & [=] & _).
Qed.

Lemma kept_one_tick {satrec : Type} (linkSNR : Env satrec -> SatState -> R)
      (env : Env satrec) (s : HState) (cur : Entry) :
  currentServingSat s = Some cur ->
  within_hysteresis cur env ->
  simulateHandover linkSNR env s = s.
Proof.
  intros Hcur Hok; apply degraded_false_iff in Hok.
  unfold simulateHandover; rewrite Hcur, Hok; reflexivity.
Qed.

(** C2: while there is a serving satellite, no call of [simulateHandover]
    changes anything as long as, at every tick, the serving satellite's
    state is available with an elevation at or above [obs.elevMin - 5];
    and a call changes the state (handover, or loss of the connection)
    only when the serving satellite's state is unavailable or its
    elevation is below [obs.elevMin - 5]. *)
Theorem serving_kept_within_hysteresis :
  forall (satrec : Type) (linkSNR : Env satrec -> SatState -> R)
         (s : HState) (cur : Entry),
    currentServingSat s = Some cur ->
    (forall envs, Forall (within_hysteresis cur) envs ->
                  run linkSNR envs s = s)
    /\ (forall env,
          simulateHandover linkSNR env s <> s ->
          getSatState_at env (index cur) = None
          \/ exists st, getSatState_at env (index cur) = Some st
                        /\ el st < elevMin (obs env) - 5).
Proof.
  intros satrec linkSNR s cur Hcur; split.
  - intros envs Hall; unfold run.
    induction Hall as [| env envs Hok _ IH]; simpl; [reflexivity |].
    rewrite (@kept_one_tick _ linkSNR env s cur Hcur Hok); exact IH.
  - intros env Hchg.
    unfold simulateHandover in Hchg; rewrite Hcur in Hchg.
    destruct (degraded env cur) eqn:Hd; [| contradiction Hchg; reflexivity].
    unfold degraded in Hd.
    destruct (getSatState_at env (index cur)) as [st |]; [| left; reflexivity].
    right; exists st; split; [reflexivity |].
    apply JSMathFacts.js_lt_true; exact Hd.
Qed.

(** Satellite 0 serves and stays at 22 degrees for two ticks: under the
    25 degree mask, above the 20 degree floor, and nothing changes. *)
Lemma serving_kept_within_hysteresis_witness :
  let cur := Scenario.entry Scenario.env1 0 40 in
  let s := mkHState (Some cur) [Scenario.entry Scenario.env1 1 40] in
  currentServingSat s = Some cur
  /\ Forall (within_hysteresis cur) [Scenario.env_low; Scenario.env_low]
  /\ run linkSNR_terminal [Scenario.env_low; Scenario.env_low] s = s.
Proof.
  intros cur s.
  assert (Hcur : currentServingSat s = Some cur) by reflexivity.
  assert (Hok : within_hysteresis cur Scenario.env_low).
  { exists (Scenario.st_at 22); split; [reflexivity | simpl; lra]. }
  assert (Hall : Forall (within_hysteresis cur)
                        [Scenario.env_low; Scenario.env_low])
    by (repeat constructor; exact Hok).
  split; [exact Hcur |]; split; [exact Hall |].
  exact (proj1 (serving_kept_within_hysteresis linkSNR_terminal s Hcur)
               _ Hall).
Defined.

(** ** C1 *)

(** C1, as the code has it.  From any reachable state and for either copy
    of [simulateHandover] (the statement holds for every SNR function):
    at acquisition the satellite selected is visible in the current
    environment and no visible satellite has a higher link-budget SNR;
    at a handover the new serving satellite is the first stored
    candidate and the list loses it, whatever is visible at that moment;
    the promoted candidate is the one ranked highest, among those left,
    by the SNR stored at the last acquisition. *)
Theorem serving_selection :
  forall (satrec : Type) (linkSNR : Env satrec -> SatState -> R)
         (envs : list (Env satrec)) (env : Env satrec),
    let s := run linkSNR envs initial in
    let s' := simulateHandover linkSNR env s in
    (currentServingSat s = None ->
     forall best, currentServingSat s' = Some best ->
       visibleEntry linkSNR env (index best) = Some best
       /\ best_visible linkSNR env best)
    /\ (forall cur, currentServingSat s = Some cur -> s' <> s ->
          currentServingSat s' = hd_error (handoverCandidates s)
          /\ handoverCandidates s' = tl (handoverCandidates s)
          /\ forall new, currentServingSat s' = Some new ->
               snr new <= snr cur
               /\ forall c, In c (handoverCandidates s') ->
                            snr c <= snr new).
Proof.
  intros satrec linkSNR envs env s s'.
  assert (Hwf : wellFormed s)
    by (apply run_wellFormed, wellFormed_initial).
  split.
  - intros Hnone best Hbest.
    unfold s', simulateHandover in Hbest; rewrite Hnone in Hbest.
    destruct (sort_desc (visibleNow linkSNR env)) as [| b rest] eqn:Heq;
      [rewrite Hnone in Hbest; discriminate |].
    simpl in Hbest; injection Hbest as <-.
    destruct (sort_desc_head _ Heq) as [Hin Hmax].
    apply visibleNow_In in Hin; destruct Hin as (i & Hi).
    pose proof (visibleEntry_index _ _ _ Hi) as Hidx.
    rewrite <- Hidx in Hi.
    split; [exact Hi |].
    exists b; split; [exact Hi |].
    intros j e' Hj; apply Hmax, visibleNow_In; eauto.
  - intros cur Hcur Hchg.
    destruct Hwf as (_ & _ & Hs & _).
    unfold tracked in Hs; rewrite Hcur in Hs.
    unfold s', simulateHandover in *; rewrite Hcur in *.
    destruct (degraded env cur); [| contradiction Hchg; reflexivity].
    destruct (handoverCandidates s) as [| c0 rest]; simpl.
    + split; [reflexivity |]; split; [reflexivity |]; intros n [=].
    + split; [reflexivity |]; split; [reflexivity |]; intros n [= <-].
      inversion Hs as [| ? ? Hs' Hall]; subst.
      split.
      * inversion Hall; subst; assumption.
      * inversion Hs' as [| ? ? _ Hall']; subst.
        intros c Hc; rewrite Forall_forall in Hall'; exact (Hall' c Hc).
Qed.

(** The first tick of the example pass: satellite 0 is acquired, and it
    is the best of the satellites visible on that tick. *)
Lemma serving_selection_witness :
  let s := run (@linkSNR_terminal nat) [] initial in
  let s' := simulateHandover linkSNR_terminal Scenario.env1 s in
  currentServingSat s = None
  /\ currentServingSat s' = Some (Scenario.entry Scenario.env1 0 40)
  /\ best_visible linkSNR_terminal Scenario.env1
                  (Scenario.entry Scenario.env1 0 40).
Proof.
  intros s s'.
  assert (Hnone : currentServingSat s = None) by reflexivity.
  assert (Hbest : currentServingSat s'
                  = Some (Scenario.entry Scenario.env1 0 40)).
  { unfold s', s, run; cbn [fold_left].
    change (simulateHandover linkSNR_terminal Scenario.env1 initial)
      with (simulateHandover_terminal Scenario.env1 initial).
    rewrite env1_acquire; reflexivity. }
  split; [exact Hnone |]; split; [exact Hbest |].
  exact (proj2 (proj1 (serving_selection linkSNR_terminal []
                                         Scenario.env1)
                      Hnone _ Hbest)).
Defined.

(** The claim as stated fails at a handover.  On the example pass the
    simulation acquires satellite 0 with satellite 1 as candidate; when
    satellite 0 sinks to 10 degrees the handover promotes satellite 1,
    which by then is at the horizon and not visible, although satellite 2
    stands at 60 degrees. *)
Lemma handover_promotes_stale_candidate :
  let s1 := simulateHandover_terminal Scenario.env1 initial in
  let s2 := simulateHandover_terminal Scenario.env2 s1 in
  exists cur new,
    currentServingSat s1 = Some cur
    /\ currentServingSat s2 = Some new
    /\ index new <> index cur
    /\ ~ best_visible linkSNR_terminal Scenario.env2 new.
Proof.
  intros s1 s2.
  exists (Scenario.entry Scenario.env1 0 40),
         (Scenario.entry Scenario.env1 1 40).
  unfold s2, s1; rewrite env1_acquire, env2_handover.
  repeat split.
  - simpl; discriminate.
  - intros (e & He & _).
    simpl index in He; rewrite env2_candidate_not_visible in He.
    discriminate.
Qed.
End HandoverClaims.

(* ================================================================== *)
(** * Drawing: the sampling loop and the marker colours *)

Module DrawFacts.
Import JSMath Draw.

(** ** The step *)

Lemma ceil_div_covers (n d : nat) : (0 < d -> n <= d * Math_ceil_div n d)%nat.
Proof.
  intros Hd; unfold Math_ceil_div.
  pose proof (Nat.div_mod_eq n d) as Hdm.
  pose proof (Nat.mod_upper_bound n d ltac:(lia)) as Hmod.
  destruct (n mod d =? 0)%nat eqn:Hz.
  - apply Nat.eqb_eq in Hz; lia.
  - lia.
Qed.

Lemma ceil_div_pos (n d : nat) : (0 < d -> 0 < n -> 1 <= Math_ceil_div n d)%nat.
Proof.
  intros Hd Hn.
  pose proof (ceil_div_covers n Hd).
  destruct (Math_ceil_div n d); lia.
Qed.

(** ** The loop *)

Lemma sampleLoop_done (fuel i n step : nat) :
  (n <= i)%nat -> sampleLoop fuel i n step = Some [].
Proof.
  intros Hle.
  assert (Hlt : (i <? n)%nat = false) by (apply Nat.ltb_ge; exact Hle).
  destruct fuel; simpl; rewrite Hlt; reflexivity.
Qed.

(** With a positive step, [n - i] iterations of fuel are enough. *)
Lemma sampleLoop_terminates (fuel : nat) :
  forall i n step,
    (1 <= step)%nat -> (n - i <= fuel)%nat ->
    exists idxs,
      sampleLoop fuel i n step = Some idxs
      /\ (List.length idxs * step <= (n - i) + (step - 1))%nat
      /\ Forall (fun j => (j < n)%nat) idxs
      /\ idxs = map (fun j => i + j * step)%nat (seq 0 (List.length idxs)).
Proof.
  induction fuel as [| fuel IH]; intros i n step Hstep Hfuel.
  - exists []; rewrite sampleLoop_done by lia.
    repeat split; simpl; try lia; constructor.
  - simpl.
    destruct (i <? n)%nat eqn:Hlt.
    + apply Nat.ltb_lt in Hlt.
      destruct (IH (i + step)%nat n step Hstep ltac:(lia))
        as (rest & Hrest & Hlen & Hall & Hshape).
      exists (i :: rest); rewrite Hrest.
      cbn [option_map List.length].
      split; [reflexivity |]; split; [| split].
      * rewrite Nat.mul_succ_l.
        destruct (Nat.le_gt_cases (i + step) n) as [Hin | Hout]; [lia |].
        assert (Hz : List.length rest = 0%nat).
        { destruct (List.length rest); [reflexivity | exfalso; nia]. }
        rewrite Hz; lia.
      * constructor; assumption.
      * cbn [seq map]; f_equal; [lia |].
        rewrite <- seq_shift, map_map.
        rewrite Hshape at 1.
        apply map_ext; intros j; lia.
    + exists []; repeat split; simpl; try lia; constructor.
Qed.

Lemma sampledIndices_spec (n k : nat) :
  exists idxs,
    sampledIndices (n + k) n = Some idxs
    /\ (List.length idxs <= MAX_DRAW)%nat
    /\ Forall (fun j => (j < n)%nat) idxs
    /\ idxs = map (fun j => j * Math_ceil_div n MAX_DRAW)%nat
                  (seq 0 (List.length idxs)).
Proof.
  unfold sampledIndices.
  destruct n as [| n'].
  - exists []; rewrite sampleLoop_done by lia.
    repeat split; simpl; try lia; constructor.
  - set (n := S n').
    assert (Hmax : (0 < MAX_DRAW)%nat) by (unfold MAX_DRAW; lia).
    pose proof (ceil_div_covers n Hmax) as Hcov.
    pose proof (@ceil_div_pos n MAX_DRAW Hmax ltac:(unfold n; lia)) as Hpos.
    destruct (@sampleLoop_terminates (n + k) 0 n (Math_ceil_div n MAX_DRAW)
                Hpos ltac:(lia))
      as (idxs & Hrun & Hlen & Hall & Hshape).
    exists idxs; repeat split; try assumption.
    rewrite Nat.sub_0_r in Hlen.
    apply Nat.lt_succ_r.
    apply (Nat.mul_lt_mono_pos_r (Math_ceil_div n MAX_DRAW)); [lia |].
    unfold MAX_DRAW in *; nia.
Qed.

(** ** The frame *)

Lemma fold_counting (step : Frame -> nat -> Frame) :
  counting step ->
  forall idxs acc,
    drawn acc = List.length (markers acc) ->
    drawn (fold_left step idxs acc)
    = List.length (markers (fold_left step idxs acc))
    /\ (List.length (markers (fold_left step idxs acc))
        <= List.length (markers acc) + List.length idxs)%nat.
Proof.
  intros Hstep idxs; induction idxs as [| i idxs IH]; intros acc Hacc; simpl.
  - split; [exact Hacc | lia].
  - destruct (Hstep acc i Hacc) as [Hd Hl].
    destruct (IH (step acc i) Hd) as [Hd' Hl'].
    split; [exact Hd' | lia].
Qed.

Section WithSatrec.
Variable satrec : Type.

Lemma basic_counting (env : Handover.Env satrec) :
  counting (basic_drawStep env).
Proof.
  intros acc i Hacc; unfold basic_drawStep.
  destruct (truthy_at (Handover.satRecs env) i) as [rec |];
    [| simpl; split; [exact Hacc | lia]].
  destruct (Handover.getSatState env rec) as [st |];
    [| simpl; split; [exact Hacc | lia]].
  cbv zeta; cbn [drawn markers].
  rewrite length_app; simpl; split; lia.
Qed.

Lemma terminal_counting (env : Handover.Env satrec)
      (hs : Handover.HState) :
  counting (terminal_drawStep env hs).
Proof.
  intros acc i Hacc; unfold terminal_drawStep.
  destruct (truthy_at (Handover.satRecs env) i) as [rec |];
    [| split; [exact Hacc | lia]].
  destruct (Handover.getSatState env rec) as [st |];
    [| split; [exact Hacc | lia]].
  cbv zeta.
  destruct (terminal_style _ _ _) as [[[color radius] opacity] counted].
  cbn [drawn markers].
  rewrite length_app; simpl; split; lia.
Qed.

(** Every marker of a basic frame comes from the loop body. *)
Lemma basic_markers_ok (env : Handover.Env satrec) (idxs : list nat) :
  forall acc m,
    In m (markers (fold_left (basic_drawStep env) idxs acc)) ->
    In m (markers acc) \/ basic_marker_ok env m.
Proof.
  induction idxs as [| i idxs IH]; intros acc m Hin; simpl in Hin;
    [left; exact Hin |].
  destruct (IH _ _ Hin) as [Hacc | Hok]; [| right; exact Hok].
  unfold basic_drawStep in Hacc.
  destruct (truthy_at (Handover.satRecs env) i) as [rec |] eqn:Hrec;
    [| left; exact Hacc].
  destruct (Handover.getSatState env rec) as [st |] eqn:Hst;
    [| left; exact Hacc].
  cbv zeta in Hacc; cbn [markers] in Hacc.
  apply in_app_or in Hacc; destruct Hacc as [Hacc | [<- | []]];
    [left; exact Hacc |].
  right; exists rec, st; simpl; auto 7.
Qed.

(** Every marker of a terminal frame comes from the loop body. *)
Lemma terminal_markers_ok (env : Handover.Env satrec)
      (hs : Handover.HState) (idxs : list nat) :
  forall acc m,
    In m (markers (fold_left (terminal_drawStep env hs) idxs acc)) ->
    In m (markers acc) \/ terminal_marker_ok env hs m.
Proof.
  induction idxs as [| i idxs IH]; intros acc m Hin; simpl in Hin;
    [left; exact Hin |].
  destruct (IH _ _ Hin) as [Hacc | Hok]; [| right; exact Hok].
  unfold terminal_drawStep in Hacc.
  destruct (truthy_at (Handover.satRecs env) i) as [rec |] eqn:Hrec;
    [| left; exact Hacc].
  destruct (Handover.getSatState env rec) as [st |] eqn:Hst;
    [| left; exact Hacc].
  cbv zeta in Hacc.
  destruct (terminal_style _ _ _)
    as [[[color radius] opacity] counted] eqn:Hstyle.
  cbn [markers] in Hacc.
  apply in_app_or in Hacc; destruct Hacc as [Hacc | [<- | []]];
    [left; exact Hacc |].
  right; exists rec, st; unfold terminal_color; simpl.
  rewrite Hstyle; simpl; auto 7.
Qed.
End WithSatrec.

(** C10: for every list length [n], the loop
    [for (i = 0; i < n; i += Math.ceil(n / 1000))] leaves after visiting
    at most 1000 indices, all below [n] and at the multiples of the step;
    so a frame of the basic or of the terminal (and tactical) variant
    holds at most 1000 markers. *)
Theorem frame_sampling_bound :
  (forall n k : nat,
      exists idxs,
        sampledIndices (n + k) n = Some idxs
        /\ (List.length idxs <= 1000)%nat
        /\ Forall (fun j => (j < n)%nat) idxs
        /\ idxs = map (fun j => j * Math_ceil_div n 1000)%nat
                      (seq 0 (List.length idxs)))
  /\ (forall (satrec : Type) (env : Handover.Env satrec)
             (hs : Handover.HState) (k : nat),
         let n := List.length (Handover.tleList env) in
         exists fb ft,
           basic_drawFrame (n + k) env = Some fb
           /\ terminal_drawFrame (n + k) env hs = Some ft
           /\ drawn fb = List.length (markers fb)
           /\ (List.length (markers fb) <= 1000)%nat
           /\ drawn ft = List.length (markers ft)
           /\ (List.length (markers ft) <= 1000)%nat).
Proof.
  split.
  - intros n k; exact (sampledIndices_spec n k).
  - intros satrec env hs k n.
    destruct (sampledIndices_spec n k) as (idxs & Hrun & Hlen & _ & _).
    unfold basic_drawFrame, terminal_drawFrame; fold n; rewrite Hrun.
    cbn [option_map].
    destruct (fold_counting (basic_counting env) idxs emptyFrame eq_refl)
      as [Hdb Hlb].
    destruct (fold_counting (terminal_counting env hs) idxs emptyFrame
                            eq_refl) as [Hdt Hlt].
    unfold MAX_DRAW in Hlen; simpl in Hlb, Hlt.
    eexists; eexists; repeat split; try eassumption; lia.
Qed.

(** ** Marker colours *)

Open Scope R_scope.

Lemma mask_frame_drawn :
  terminal_drawFrame 3 Scenario.env_mask Handover.initial
  = Some Scenario.mask_frame.
Proof.
  unfold terminal_drawFrame.
  replace (sampledIndices 3 _) with (Some [0; 1; 2]%nat) by reflexivity.
  cbn [option_map fold_left].
  unfold terminal_drawStep at 3.
  cbn [truthy_at nth_error Scenario.env_mask Scenario.env_of
       Handover.satRecs Handover.getSatState Scenario.pass_mask
       Handover.obs Scenario.observer elevMin el Scenario.st_at].
  replace (js_ge 0 1) with false by (symmetry; js_decide).
  cbn.
  replace (js_ge 1 1) with true by (symmetry; js_decide).
  reflexivity.
Qed.

(** Below 1 degree the link budget no longer depends on the elevation. *)
Lemma mask_equal_SNR :
  Handover.linkSNR_terminal Scenario.env_mask (Scenario.st_at 0)
  = Handover.linkSNR_terminal Scenario.env_mask (Scenario.st_at 1).
Proof.
  unfold Handover.linkSNR_terminal, LinkBudget.Terminal.calculateLinkBudget,
    Math_max.
  simpl.
  rewrite (Rmax_right 0 1), (Rmax_left 1 1), (Rmax_right 0 5),
    (Rmax_right 1 5) by lra.
  reflexivity.
Qed.

(** C5, as the code has it: the colour of every marker drawn in a frame
    is fixed by the elevation test [st.el >= obs.elevMin] (basic variant:
    green when it holds, blue otherwise) and, in the terminal variant, by
    the handover role first (white when serving, yellow when candidate,
    then bright green when the test holds, dark green otherwise); the
    link-budget SNR only appears in the popup. *)
Theorem marker_colour_by_elevation :
  forall (satrec : Type) (env : Handover.Env satrec)
         (hs : Handover.HState) (fuel : nat),
    (forall fb, basic_drawFrame fuel env = Some fb ->
                forall m, In m (markers fb) -> basic_marker_ok env m)
    /\ (forall ft, terminal_drawFrame fuel env hs = Some ft ->
                   forall m, In m (markers ft) ->
                             terminal_marker_ok env hs m)
    /\ (forall v, basic_color v
                  = if v then "#00ff44"%string else "#4488ff"%string)
    /\ (forall c v, terminal_color true c v = "#ffffff"%string)
    /\ (forall v, terminal_color false true v = "#ffff00"%string)
    /\ (forall v, terminal_color false false v
                  = if v then "#00ff00"%string else "#004400"%string).
Proof.
  intros satrec env hs fuel.
  split; [| split; [| repeat split; intros;
                      repeat match goal with b : bool |- _ => destruct b end;
                      reflexivity]].
  - intros fb Hfb m Hm; unfold basic_drawFrame in Hfb.
    destruct (sampledIndices fuel _) as [idxs |]; [| discriminate].
    injection Hfb as <-.
    destruct (basic_markers_ok env idxs _ m Hm) as [[] | Hok]; exact Hok.
  - intros ft Hft m Hm; unfold terminal_drawFrame in Hft.
    destruct (sampledIndices fuel _) as [idxs |]; [| discriminate].
    injection Hft as <-.
    destruct (terminal_markers_ok env hs idxs _ m Hm) as [[] | Hok];
      exact Hok.
Qed.

(** The marker of satellite 1 in the frame drawn under the 1 degree
    mask. *)
Lemma marker_colour_by_elevation_witness :
  terminal_drawFrame 3 Scenario.env_mask Handover.initial
  = Some Scenario.mask_frame
  /\ In Scenario.mask_marker1 (markers Scenario.mask_frame)
  /\ terminal_marker_ok Scenario.env_mask Handover.initial
                        Scenario.mask_marker1.
Proof.
  assert (Hin : In Scenario.mask_marker1 (markers Scenario.mask_frame))
    by (right; left; reflexivity).
  split; [exact mask_frame_drawn |]; split; [exact Hin |].
  exact (proj1 (proj2 (marker_colour_by_elevation Scenario.env_mask
                         Handover.initial 3))
               _ mask_frame_drawn _ Hin).
Defined.

(** The claim as stated fails: with the mask at 1 degree, a satellite on
    the horizon and one at 1 degree are drawn in the same frame with the
    same link-budget SNR, the first in the colour of a satellite that is
    not visible and the second in the colour of a visible one. *)
Lemma equal_SNR_unequal_colour :
  exists ft m0 m1,
    terminal_drawFrame 3 Scenario.env_mask Handover.initial = Some ft
    /\ In m0 (markers ft) /\ In m1 (markers ft)
    /\ m_popupSNR m0 = m_popupSNR m1
    /\ m_color m0 <> m_color m1.
Proof.
  exists Scenario.mask_frame, Scenario.mask_marker0, Scenario.mask_marker1.
  split; [exact mask_frame_drawn |].
  split; [left; reflexivity |].
  split; [right; left; reflexivity |].
  split; [simpl; rewrite mask_equal_SNR; reflexivity | simpl; discriminate].
Qed.
End DrawFacts.

(* ================================================================== *)
(** * Satellite state *)

Module SatStateFacts.
Import SatStateCalc.

Section Lib.
Variables number satrec date gmstT eciT ecfT exn : Type.
Variable satellite : SatelliteJs number satrec date gmstT eciT ecfT exn.
Variable isFinite : number -> bool.
Variable zero : number.
Variable obs : Obs number.

Local Abbreviation getSatState :=
  (getSatState satellite isFinite zero obs).
Local Abbreviation getSatState_body :=
  (getSatState_body satellite isFinite zero obs).

(** The [catch] clause turns every exception into [null]. *)
Lemma getSatState_returns (rec : satrec) (time : date) :
  exists v, getSatState rec time = Ok v.
Proof.
  unfold SatStateCalc.getSatState, try_catch.
  destruct (getSatState_body rec time) as [v | e]; eauto.
Qed.

Lemma getSatState_of_body (rec : satrec) (time : date) (s : State number) :
  getSatState rec time = Ok (Some s) ->
  getSatState_body rec time = Ok (Some s).
Proof.
  unfold SatStateCalc.getSatState, try_catch.
  destruct (getSatState_body rec time) as [v | e]; [auto | discriminate].
Qed.

(** Run the next call of the [try] body in a hypothesis or the goal. *)
Ltac next_call H v :=
  match type of H with
  | context [bind ?m _] =>
      let e := fresh "e" in
      let E := fresh "Hcall" in
      destruct m as [v | e] eqn:E; cbn [bind] in H;
      [| try discriminate H]
  end.

Lemma body_some (rec : satrec) (time : date) (s : State number) :
  getSatState_body rec time = Ok (Some s) ->
  exists gmst eci,
    geodetic_of satellite rec time gmst eci (s_lat s) (s_lon s) (s_alt s)
    /\ isFinite (s_lat s) = true
    /\ isFinite (s_lon s) = true
    /\ isFinite (s_alt s) = true
    /\ look_of satellite zero obs gmst eci (s_az s) (s_el s).
Proof.
  unfold SatStateCalc.getSatState_body; intros H.
  next_call H gmst. next_call H pv.
  destruct pv as [pv' |]; [| discriminate].
  destruct (position pv') as [eci |] eqn:Hpos; [| discriminate].
  next_call H gd. next_call H la. next_call H lo.
  destruct (isFinite la) eqn:Hf1;
    [| cbn [negb orb] in H; discriminate H].
  destruct (isFinite lo) eqn:Hf2;
    [| cbn [negb orb] in H; discriminate H].
  destruct (isFinite (height gd)) eqn:Hf3;
    [| cbn [negb orb] in H; discriminate H].
  cbn [negb orb] in H.
  next_call H ola. next_call H olo. next_call H ecf. next_call H look.
  next_call H azDeg. next_call H elDeg.
  injection H as <-; cbn [s_lat s_lon s_alt s_az s_el].
  exists gmst, eci; repeat split; try assumption.
  - exists pv', gd; auto 8.
  - exists ola, olo, ecf, look; auto 8.
Qed.

Lemma none_when_no_position (rec : satrec) (time : date) :
  no_position satellite rec time -> getSatState rec time = Ok None.
Proof.
  intros (pv & Hpv & Hcase).
  unfold SatStateCalc.getSatState, SatStateCalc.getSatState_body.
  destruct (gstime satellite time) as [gmst | e]; cbn [bind try_catch];
    [| reflexivity].
  rewrite Hpv; cbn [bind].
  destruct Hcase as [-> | (pv' & -> & ->)]; reflexivity.
Qed.

Lemma none_when_not_finite (rec : satrec) (time : date) :
  not_finite satellite isFinite rec time -> getSatState rec time = Ok None.
Proof.
  intros (gmst & eci & la & lo & al & Hgeo & Hfin).
  destruct Hgeo as (pv' & gd & Hg & Hp & Hpos & Hgd & Hla & Hlo & ->).
  unfold SatStateCalc.getSatState, SatStateCalc.getSatState_body.
  rewrite Hg; cbn [bind]; rewrite Hp; cbn [bind]; rewrite Hpos.
  rewrite Hgd; cbn [bind]; rewrite Hla; cbn [bind]; rewrite Hlo; cbn [bind].
  destruct Hfin as [-> | [-> | ->]]; cbn [negb orb];
    rewrite ?orb_true_r; reflexivity.
Qed.

Lemma none_only_when (rec : satrec) (time : date) :
  returns_normally satellite ->
  getSatState rec time = Ok None ->
  no_position satellite rec time \/ not_finite satellite isFinite rec time.
Proof.
  intros (Hgs & Hpr & Hgd & Hecf & Hlook & Hr2d & Hd2r).
  unfold SatStateCalc.getSatState, SatStateCalc.getSatState_body.
  destruct (Hgs time) as (gmst & Hg); rewrite Hg; cbn [bind].
  destruct (Hpr rec time) as (pv & Hp); rewrite Hp; cbn [bind].
  destruct pv as [pv' |]; [| intros _; left; exists None; auto].
  destruct (position pv') as [eci |] eqn:Hpos;
    [| intros _; left; exists (Some pv'); split; [exact Hp |];
       right; exists pv'; auto].
  destruct (Hgd eci gmst) as (gd & Hgdv); rewrite Hgdv; cbn [bind].
  destruct (Hr2d (latitude gd)) as (la & Hla); rewrite Hla; cbn [bind].
  destruct (Hr2d (longitude gd)) as (lo & Hlo); rewrite Hlo; cbn [bind].
  destruct (negb (isFinite la) || negb (isFinite lo)
            || negb (isFinite (height gd)))%bool eqn:Hfin.
  - intros _; right; exists gmst, eci, la, lo, (height gd); split.
    + exists pv', gd; auto 8.
    + apply orb_true_iff in Hfin; destruct Hfin as [Hfin | Hfin];
        [apply orb_true_iff in Hfin; destruct Hfin as [Hfin | Hfin] |];
        apply negb_true_iff in Hfin; auto.
  - destruct (Hd2r (o_lat obs)) as (ola & Hola); rewrite Hola; cbn [bind].
    destruct (Hd2r (o_lon obs)) as (olo & Holo); rewrite Holo; cbn [bind].
    destruct (Hecf eci gmst) as (ecf & Hecfv); rewrite Hecfv; cbn [bind].
    destruct (Hlook (mkGeodetic ola olo zero) ecf) as (look & Hlk);
      rewrite Hlk; cbn [bind].
    destruct (Hr2d (azimuth look)) as (az & Haz); rewrite Haz; cbn [bind].
    destruct (Hr2d (elevation look)) as (el & Hel); rewrite Hel; cbn [bind].
    cbn [try_catch]; discriminate.
Qed.
End Lib.

(** C8: [getSatState] never throws.  Where the calls into satellite.js
    return normally (as they do on SGP4 records), it returns [null]
    exactly when propagation yields no position or the latitude, longitude
    or altitude is not finite; a state it returns carries the geodetic
    position of the propagated satellite and the azimuth and elevation
    seen from the configured observer.  An exception raised by a library
    call is caught and also gives [null]. *)
Theorem getSatState_total :
  forall (number satrec date gmstT eciT ecfT exn : Type)
         (satellite : SatelliteJs number satrec date gmstT eciT ecfT exn)
         (isFinite : number -> bool) (zero : number) (obs : Obs number)
         (rec : satrec) (time : date),
    (exists v, getSatState satellite isFinite zero obs rec time = Ok v)
    /\ (no_position satellite rec time
        \/ not_finite satellite isFinite rec time ->
        getSatState satellite isFinite zero obs rec time = Ok None)
    /\ (returns_normally satellite ->
        getSatState satellite isFinite zero obs rec time = Ok None ->
        no_position satellite rec time
        \/ not_finite satellite isFinite rec time)
    /\ (forall s,
          getSatState satellite isFinite zero obs rec time = Ok (Some s) ->
          exists gmst eci,
            geodetic_of satellite rec time gmst eci
                        (s_lat s) (s_lon s) (s_alt s)
            /\ isFinite (s_lat s) = true
            /\ isFinite (s_lon s) = true
            /\ isFinite (s_alt s) = true
            /\ look_of satellite zero obs gmst eci (s_az s) (s_el s)).
Proof.
  intros; split; [apply getSatState_returns |].
  split; [intros [H | H];
          [apply none_when_no_position | apply none_when_not_finite];
          exact H |].
  split; [apply none_only_when |].
  intros s H; apply body_some, getSatState_of_body; exact H.
Qed.

Lemma quiet_returns_normally : returns_normally Scenario.quiet_satellite.
Proof. repeat split; intros; eexists; reflexivity. Qed.

(** On the stand-in library: the record without a position gives [null]
    for want of a position, the other one gives its state. *)
Lemma getSatState_total_witness :
  let run := getSatState Scenario.quiet_satellite Scenario.finite_number
                         None Scenario.quiet_obs in
  returns_normally Scenario.quiet_satellite
  /\ run false tt = Ok None
  /\ (no_position Scenario.quiet_satellite false tt
      \/ not_finite Scenario.quiet_satellite Scenario.finite_number false tt)
  /\ run true tt
     = Ok (Some (mkState (Some 1) (Some 2) (Some 550) (Some 3) (Some 4)))%nat.
Proof.
  intros run.
  assert (Hnone : run false tt = Ok None) by reflexivity.
  split; [exact quiet_returns_normally |]; split; [exact Hnone |].
  split; [| reflexivity].
  exact (proj1 (proj2 (proj2
           (getSatState_total Scenario.quiet_satellite
              Scenario.finite_number None Scenario.quiet_obs false tt)))
           quiet_returns_normally Hnone).
Defined.
End SatStateFacts.

(* ================================================================== *)
(** * Link budget: what the elevation and the rain change *)

Module LinkBudgetMore.
Import JSMath LinkBudget.
Open Scope R_scope.

Lemma ln_mono (x y : R) : 0 < x -> x <= y -> ln x <= ln y.
Proof.
  intros Hx [Hlt | ->]; [left; apply ln_increasing; assumption | right; reflexivity].
Qed.

Lemma log10_mono (x y : R) : 0 < x -> x <= y -> Math_log10 x <= Math_log10 y.
Proof.
  intros Hx Hle; unfold Math_log10.
  pose proof VariantFacts.ln_10_pos as H10.
  pose proof (ln_mono Hx Hle) as Hln.
  apply Rmult_le_compat_r; [left; apply Rinv_0_lt_compat; exact H10 | exact Hln].
Qed.

(** The sine of a clamped elevation, in degrees, is positive and grows with
    the elevation up to 90 degrees. *)
Lemma sin_clamp_mono (lo e1 e2 : R) :
  0 < lo <= 90 -> e1 <= e2 -> e2 <= 90 ->
  0 < sin (Rmax e1 lo * PI / 180) <= sin (Rmax e2 lo * PI / 180).
Proof.
  intros [Hlo Hlo90] H12 H2.
  pose proof PI_RGT_0 as Hpi.
  assert (Ha1 : lo <= Rmax e1 lo) by apply Rmax_r.
  assert (Ha2 : Rmax e2 lo <= 90) by (apply Rmax_lub; lra).
  assert (Ha12 : Rmax e1 lo <= Rmax e2 lo).
  { apply Rmax_lub; [eapply Rle_trans; [exact H12 | apply Rmax_l] | apply Rmax_r]. }
  split.
  - apply sin_gt_0; nra.
  - apply sin_incr_1; nra.
Qed.

Lemma slant_term_capped (e : R) :
  e < 180 -> Rmin (550 / sin (Rmax e 5 * PI / 180) / 10) 5 = 5.
Proof.
  intros He.
  pose proof (LinkBudgetFacts.sin_clamped_pos He) as Hpos.
  pose proof (SIN_bound (Rmax e 5 * PI / 180)) as [_ Hle].
  apply Rmin_right.
  set (s := sin (Rmax e 5 * PI / 180)) in *.
  assert (H : 550 <= 550 / s).
  { apply Rmult_le_reg_r with (r := s); [exact Hpos |].
    replace (550 / s * s) with 550 by (field; lra); nra. }
  lra.
Qed.

(** X1: the elevation has no effect on the rain attenuation.  Below 180
    degrees the slant path 550/sin is at least 550 km, so the path factor
    min(slant/10, 5) is always 5 and the attenuation is
    min(5 * 0.0101 * 11.5^2.03 * p^1.065, 20) whatever the elevation. *)
Theorem rain_attenuation_ignores_elevation :
  forall (config : Config) (e1 e2 p : R),
    e1 < 180 -> e2 < 180 -> 0 <= p ->
    Terminal.calculateRainAttenuation config e1 p
    = Terminal.calculateRainAttenuation config e2 p
    /\ (p <> 0 -> considerRain config = true ->
        Terminal.calculateRainAttenuation config e1 p
        = Rmin (0.0101 * Rpower 11.5 2.03 * Rpower p 1.065 * 5) 20).
Proof.
  intros config e1 e2 p He1 He2 Hp.
  assert (Hform : forall e, e < 180 -> p <> 0 -> considerRain config = true ->
                  Terminal.calculateRainAttenuation config e p
                  = Rmin (0.0101 * Rpower 11.5 2.03 * Rpower p 1.065 * 5) 20).
  { intros e He Hp0 Hc.
    rewrite LinkBudgetFacts.rain_formula by assumption.
    unfold Spec.rain_closed_form, Spec.degrees.
    rewrite (slant_term_capped He); reflexivity. }
  split; [| intros Hp0 Hc; apply Hform; assumption].
  destruct (Req_dec_T p 0) as [Hz | Hnz].
  - rewrite !LinkBudgetFacts.rain_zero by (left; exact Hz); reflexivity.
  - destruct (considerRain config) eqn:Hc.
    + rewrite !Hform by first [assumption | reflexivity]; reflexivity.
    + rewrite !LinkBudgetFacts.rain_zero by (right; exact Hc); reflexivity.
Qed.

(** At 10 and at 80 degrees, 2 mm/h. *)
Lemma rain_attenuation_ignores_elevation_witness :
  let cfg := mkConfig true true false 5 in
  Terminal.calculateRainAttenuation cfg 10 2
  = Terminal.calculateRainAttenuation cfg 80 2.
Proof.
  intros cfg.
  exact (proj1 (@rain_attenuation_ignores_elevation cfg 10 80 2
                  ltac:(lra) ltac:(lra) ltac:(lra))).
Defined.

(** X2: up to 90 degrees a higher elevation never gives a lower SNR, for
    the same rain attenuation and configuration (below 1 degree the SNR is
    constant). *)
Theorem SNR_monotone_in_elevation :
  forall (config : Config) (e1 e2 r : R),
    e1 <= e2 -> e2 <= 90 ->
    SNR (Terminal.calculateLinkBudget config e1 r)
    <= SNR (Terminal.calculateLinkBudget config e2 r).
Proof.
  intros config e1 e2 r H12 H2.
  unfold Terminal.calculateLinkBudget, Math_sin, Math_max, Math_PI; simpl.
  destruct (@sin_clamp_mono 1 e1 e2 ltac:(lra) H12 H2) as [Hs1 Hs12].
  destruct (@sin_clamp_mono 5 e1 e2 ltac:(lra) H12 H2) as [Ha1 Ha12].
  set (s1 := sin (Rmax e1 1 * PI / 180)) in *.
  set (s2 := sin (Rmax e2 1 * PI / 180)) in *.
  set (a1 := sin (Rmax e1 5 * PI / 180)) in *.
  set (a2 := sin (Rmax e2 5 * PI / 180)) in *.
  assert (Hinv_s : / s2 <= / s1) by (apply Rinv_le_contravar; lra).
  assert (Hinv_a : / a2 <= / a1) by (apply Rinv_le_contravar; lra).
  assert (Hs2pos : 0 < / s2) by (apply Rinv_0_lt_compat; lra).
  assert (Hlog : Math_log10 (550 / s2 * 1000) <= Math_log10 (550 / s1 * 1000)).
  { apply log10_mono; unfold Rdiv; nra. }
  unfold Rdiv in *; lra.
Qed.

(** From 20 to 60 degrees in clear sky. *)
Lemma SNR_monotone_in_elevation_witness :
  let cfg := mkConfig true true false 5 in
  SNR (Terminal.calculateLinkBudget cfg 20 0)
  <= SNR (Terminal.calculateLinkBudget cfg 60 0).
Proof.
  intros cfg.
  exact (@SNR_monotone_in_elevation cfg 20 60 0 ltac:(lra) ltac:(lra)).
Defined.

Lemma SNR_minus_rain (config : Config) (e r : R) :
  SNR (Terminal.calculateLinkBudget config e r)
  = SNR (Terminal.calculateLinkBudget config e 0)
    - (if considerRain config then r else 0).
Proof.
  unfold Terminal.calculateLinkBudget; simpl.
  destruct (considerRain config); lra.
Qed.

Lemma pro_SNR_minus_rain (e r : R) :
  SNR (ProCorrected.calculateLinkBudget e r)
  = SNR (ProCorrected.calculateLinkBudget e 0) - r.
Proof. unfold ProCorrected.calculateLinkBudget; simpl; lra. Qed.

Lemma terminal_rain_range (config : Config) (e p : R) :
  e < 180 -> 0 <= Terminal.calculateRainAttenuation config e p <= 20.
Proof.
  intros He.
  destruct (Req_dec_T p 0) as [Hz | Hnz];
    [rewrite LinkBudgetFacts.rain_zero by (left; exact Hz); lra |].
  destruct (considerRain config) eqn:Hc;
    [| rewrite LinkBudgetFacts.rain_zero by (right; exact Hc); lra].
  rewrite LinkBudgetFacts.rain_formula by assumption.
  apply LinkBudgetFacts.rain_closed_form_range; exact He.
Qed.

Lemma pro_rain_range (e p : R) :
  e < 180 -> 0 <= ProCorrected.calculateRainAttenuation e p <= 20.
Proof.
  intros He; unfold ProCorrected.calculateRainAttenuation.
  destruct (js_eq p 0); [lra |].
  apply LinkBudgetFacts.rain_closed_form_range; exact He.
Qed.


End LinkBudgetMore.

(* ================================================================== *)
(** * Handover simulation: acquisition and loss *)

Module HandoverMore.
Import JSMath Handover HandoverFacts.
Open Scope R_scope.

Lemma StronglySorted_app_ranked {A : Type} (R : A -> A -> Prop)
      (a b : list A) :
  StronglySorted R (a ++ b) ->
  forall x y, In x a -> In y b -> R x y.
Proof.
  induction a as [| z a IH]; intros Hs x y Hx Hy; [contradiction |].
  simpl in Hs; inversion Hs as [| ? ? Hs' Hall]; subst.
  destruct Hx as [<- | Hx]; [| exact (IH Hs' x y Hx Hy)].
  rewrite Forall_forall in Hall; apply Hall, in_or_app; right; exact Hy.
Qed.

Lemma skipn_nonempty_length {A : Type} (n : nat) (l : list A) (x : A) :
  In x (skipn n l) -> (n < List.length l)%nat.
Proof.
  intros Hx.
  destruct (Nat.lt_ge_cases n (List.length l)) as [Hlt | Hge]; [exact Hlt |].
  rewrite skipn_all2 in Hx by exact Hge; contradiction.
Qed.

(** X4: with nothing serving, a call changes nothing when no satellite is
    visible; as soon as one is visible a serving satellite is chosen, the
    serving satellite and the candidates are the first four of the visible
    satellites ranked by SNR, every candidate is visible at that moment,
    and a visible satellite left out ranks no higher than any of the three
    candidates. *)
Theorem acquisition_outcome :
  forall (satrec : Type) (linkSNR : Env satrec -> SatState -> R)
         (env : Env satrec) (s : HState),
    currentServingSat s = None ->
    let s' := simulateHandover linkSNR env s in
    ((forall i, visibleEntry linkSNR env i = None) -> s' = s)
    /\ (forall i e,
          visibleEntry linkSNR env i = Some e ->
          exists best,
            currentServingSat s' = Some best
            /\ best :: handoverCandidates s'
               = firstn 4 (sort_desc (visibleNow linkSNR env))
            /\ (forall c, In c (handoverCandidates s') ->
                          (exists j, visibleEntry linkSNR env j = Some c)
                          /\ elevMin (obs env) <= el (state c))
            /\ (e = best \/ In e (handoverCandidates s')
                \/ (List.length (handoverCandidates s') = 3%nat
                    /\ forall c, In c (handoverCandidates s') ->
                                 snr e <= snr c))).
Proof.
  intros satrec linkSNR env s Hnone s'.
  unfold s', simulateHandover; rewrite Hnone.
  pose proof (sort_desc_perm (visibleNow linkSNR env)) as Hperm.
  pose proof (sort_desc_sorted (visibleNow linkSNR env)) as Hsorted.
  split.
  - intros Hdark.
    destruct (sort_desc (visibleNow linkSNR env)) as [| b rest]; [reflexivity |].
    assert (Hb : In b (visibleNow linkSNR env))
      by (apply (Permutation_in _ Hperm); left; reflexivity).
    apply visibleNow_In in Hb; destruct Hb as (i & Hi).
    rewrite Hdark in Hi; discriminate.
  - intros i e Hi.
    assert (He : In e (sort_desc (visibleNow linkSNR env))).
    { apply (Permutation_in _ (Permutation_sym Hperm)), visibleNow_In; eauto. }
    destruct (sort_desc (visibleNow linkSNR env)) as [| b rest]; [contradiction |].
    exists b; rewrite slice_1_4_cons.
    cbn [currentServingSat handoverCandidates].
    split; [reflexivity |]; split; [reflexivity |]; split.
    + intros c Hc.
      assert (Hin : In c (visibleNow linkSNR env)).
      { apply (Permutation_in _ Hperm); right; eapply firstn_incl; exact Hc. }
      apply visibleNow_In in Hin; destruct Hin as (j & Hj).
      split; [eauto |].
      destruct (visibleEntry_spec _ _ _ Hj) as (_ & _ & _ & _ & _ & Hel & _).
      exact Hel.
    + destruct He as [<- | He]; [left; reflexivity | right].
      rewrite <- (firstn_skipn 3 rest) in He.
      apply in_app_or in He; destruct He as [He | He]; [left; exact He | right].
      pose proof (skipn_nonempty_length _ _ _ He) as Hlen.
      split; [rewrite length_firstn; lia |].
      intros c Hc.
      inversion Hsorted as [| ? ? Hrest _]; subst.
      rewrite <- (firstn_skipn 3 rest) in Hrest.
      exact (StronglySorted_app_ranked _ _ Hrest c e Hc He).
Qed.

(** On the first tick of the example pass satellite 1 is visible. *)
Lemma acquisition_outcome_witness :
  exists best,
    currentServingSat (simulateHandover linkSNR_terminal Scenario.env1 initial)
    = Some best
    /\ best :: handoverCandidates
                 (simulateHandover linkSNR_terminal Scenario.env1 initial)
       = firstn 4 (sort_desc (visibleNow linkSNR_terminal Scenario.env1)).
Proof.
  assert (Hvis : visibleEntry linkSNR_terminal Scenario.env1 1
                 = Some (Scenario.entry Scenario.env1 1 40)).
  { unfold visibleEntry; simpl.
    replace (js_lt 40 25) with false by (symmetry; js_decide).
    reflexivity. }
  destruct (proj2 (@acquisition_outcome nat linkSNR_terminal Scenario.env1
                     initial eq_refl) _ _ Hvis)
    as (best & Hbest & Hfour & _).
  exists best; split; [exact Hbest | exact Hfour].
Defined.

(** ** Ticks on which no satellite has a state *)

Lemma dark_visibleNow {satrec : Type} (linkSNR : Env satrec -> SatState -> R)
      (env : Env satrec) :
  (forall rec, getSatState env rec = None) ->
  sort_desc (visibleNow linkSNR env) = [].
Proof.
  intros Hdark.
  destruct (sort_desc (visibleNow linkSNR env)) as [| b rest] eqn:Heq;
    [reflexivity |].
  destruct (sort_desc_head _ Heq) as [Hin _].
  apply visibleNow_In in Hin; destruct Hin as (i & Hi).
  destruct (visibleEntry_spec _ _ _ Hi) as (rec & _ & _ & _ & Hst & _).
  rewrite Hdark in Hst; discriminate.
Qed.

Lemma dark_degraded {satrec : Type} (env : Env satrec) (cur : Entry) :
  (forall rec, getSatState env rec = None) -> degraded env cur = true.
Proof.
  intros Hdark; unfold degraded, getSatState_at.
  destruct (truthy_at (satRecs env) (index cur)); [rewrite Hdark |]; reflexivity.
Qed.

Lemma dark_step {satrec : Type} (linkSNR : Env satrec -> SatState -> R)
      (env : Env satrec) (s : HState) :
  (forall rec, getSatState env rec = None) ->
  wellFormed s ->
  List.length (tracked (simulateHandover linkSNR env s))
  = pred (List.length (tracked s)).
Proof.
  intros Hdark (_ & _ & _ & Hempty).
  unfold simulateHandover, tracked.
  destruct (currentServingSat s) as [cur |] eqn:Hcur.
  - rewrite dark_degraded by exact Hdark.
    destruct (handoverCandidates s) as [| c rest]; reflexivity.
  - rewrite dark_visibleNow by exact Hdark.
    rewrite Hcur, (Hempty eq_refl).
    reflexivity.
Qed.

Lemma dark_run {satrec : Type} (linkSNR : Env satrec -> SatState -> R)
      (envs : list (Env satrec)) :
  Forall (fun env => forall rec, getSatState env rec = None) envs ->
  forall s,
    wellFormed s ->
    List.length (tracked (run linkSNR envs s))
    = (List.length (tracked s) - List.length envs)%nat.
Proof.
  unfold run; induction 1 as [| env envs Hdark _ IH]; intros s Hwf; simpl.
  - lia.
  - rewrite IH by (apply simulateHandover_wellFormed; exact Hwf).
    rewrite dark_step by assumption; lia.
Qed.

(** X5: when every satellite loses its state (no propagation result), the
    simulation hands over along the stored candidates and, from any
    reachable state, after four such ticks at the latest it is back in its
    initial state: nothing serving, no candidates. *)
Theorem connection_lost_when_dark :
  forall (satrec : Type) (linkSNR : Env satrec -> SatState -> R)
         (before dark : list (Env satrec)),
    Forall (fun env => forall rec, getSatState env rec = None) dark ->
    (4 <= List.length dark)%nat ->
    run linkSNR dark (run linkSNR before initial) = initial.
Proof.
  intros satrec linkSNR before dark Hdark Hlen.
  set (s := run linkSNR before initial).
  assert (Hwf : wellFormed s) by (apply run_wellFormed, wellFormed_initial).
  pose proof (@dark_run _ linkSNR dark Hdark s Hwf) as Hrun.
  assert (Hwf' : wellFormed (run linkSNR dark s))
    by (apply run_wellFormed; exact Hwf).
  assert (Hfour : (List.length (tracked s) <= 4)%nat).
  { destruct Hwf as (Hl & _); unfold tracked.
    destruct (currentServingSat s); simpl; lia. }
  assert (Hnil : tracked (run linkSNR dark s) = []).
  { apply length_zero_iff_nil; lia. }
  unfold tracked in Hnil.
  destruct (run linkSNR dark s) as [serving cands]; simpl in Hnil.
  destruct serving; [discriminate | subst; reflexivity].
Qed.

(** After the first tick of the example pass, four dark ticks. *)
Lemma connection_lost_when_dark_witness :
  let dark := repeat ScenarioMore.env_dark 4 in
  run linkSNR_terminal dark (run linkSNR_terminal [Scenario.env1] initial)
  = initial.
Proof.
  intros dark.
  apply connection_lost_when_dark.
  - repeat constructor.
  - simpl; lia.
Defined.
End HandoverMore.

(* ================================================================== *)
(** * Drawing: counters, footprints and handover roles *)

Module DrawMore.
Import JSMath Draw DrawFacts DrawRoles.

(** ** The sampled indices are distinct *)

Lemma sampleLoop_distinct (fuel : nat) :
  forall i n step idxs,
    (1 <= step)%nat ->
    sampleLoop fuel i n step = Some idxs ->
    Forall (fun j => (i <= j)%nat) idxs /\ NoDup idxs.
Proof.
  induction fuel as [| fuel IH]; intros i n step idxs Hstep Hrun; simpl in Hrun.
  - destruct (i <? n)%nat; [discriminate | injection Hrun as <-].
    split; constructor.
  - destruct (i <? n)%nat; [| injection Hrun as <-; split; constructor].
    destruct (sampleLoop fuel (i + step) n step) as [rest |] eqn:Hrest;
      [| discriminate].
    injection Hrun as <-.
    destruct (@IH (i + step)%nat n step rest Hstep Hrest) as [Hall Hnd].
    rewrite Forall_forall in Hall.
    split.
    + constructor; [lia |].
      apply Forall_forall; intros j Hj; specialize (Hall j Hj); lia.
    + constructor; [| exact Hnd].
      intros Hin; specialize (Hall i Hin); lia.
Qed.

Lemma sampledIndices_NoDup (fuel n : nat) (idxs : list nat) :
  sampledIndices fuel n = Some idxs -> NoDup idxs.
Proof.
  unfold sampledIndices; intros Hrun.
  destruct n as [| n'].
  - rewrite sampleLoop_done in Hrun by lia.
    injection Hrun as <-; constructor.
  - assert (Hpos : (1 <= Math_ceil_div (S n') MAX_DRAW)%nat)
      by (apply ceil_div_pos; unfold MAX_DRAW; lia).
    exact (proj2 (@sampleLoop_distinct fuel 0%nat (S n') _ idxs Hpos Hrun)).
Qed.

(** ** The basic frame *)

Open Scope R_scope.

(** What the loop of the basic variant keeps true of its counters. *)
Lemma basic_step_accounting {satrec : Type} (env : Handover.Env satrec)
      (acc : Frame) (i : nat) (seen : nat) :
  ((drawn acc + errors acc = seen)%nat
   /\ (visible acc <= drawn acc)%nat
   /\ List.length (footprints acc) = Nat.min (visible acc) 10
   /\ Forall (fun f => 200000 <= f_radius f) (footprints acc)) ->
  let acc' := basic_drawStep env acc i in
  (drawn acc' + errors acc' = S seen)%nat
  /\ (visible acc' <= drawn acc')%nat
  /\ List.length (footprints acc') = Nat.min (visible acc') 10
  /\ Forall (fun f => 200000 <= f_radius f) (footprints acc').
Proof.
  intros (Hsum & Hvis & Hfp & Hrad); unfold basic_drawStep.
  destruct (truthy_at (Handover.satRecs env) i) as [rec |];
    [| simpl; repeat split; try assumption; lia].
  destruct (Handover.getSatState env rec) as [st |];
    [| simpl; repeat split; try assumption; lia].
  cbv zeta.
  destruct (js_ge (el st) (elevMin (Handover.obs env))); cbn [andb].
  - destruct (S (visible acc) <=? 10)%nat eqn:Hten;
      cbn [drawn errors visible footprints].
    + apply Nat.leb_le in Hten.
      rewrite length_app; simpl.
      repeat split; try lia.
      apply Forall_app; split; [exact Hrad |].
      constructor; [| constructor]; simpl.
      pose proof (Rmax_l 200 (calculateFootprintRadius (alt st)
                                (elevMin (Handover.obs env)))) as Hmax.
      unfold Math_max; lra.
    + apply Nat.leb_gt in Hten.
      repeat split; try assumption; lia.
  - cbn [drawn errors visible footprints].
    repeat split; try assumption; lia.
Qed.

(** X7: a frame of the basic variant accounts for every sampled satellite
    (drawn + errors is the number of indices visited), never counts more
    visible satellites than it drew, draws a footprint for the first ten
    visible satellites only, and no footprint has a radius under 200 km. *)
Theorem basic_frame_accounting :
  forall (satrec : Type) (env : Handover.Env satrec) (k : nat),
    let n := List.length (Handover.tleList env) in
    exists idxs fb,
      sampledIndices (n + k) n = Some idxs
      /\ basic_drawFrame (n + k) env = Some fb
      /\ (drawn fb + errors fb = List.length idxs)%nat
      /\ (visible fb <= drawn fb)%nat
      /\ List.length (footprints fb) = Nat.min (visible fb) 10
      /\ Forall (fun f => 200000 <= f_radius f) (footprints fb).
Proof.
  intros satrec env k n.
  destruct (sampledIndices_spec n k) as (idxs & Hrun & _).
  exists idxs; unfold basic_drawFrame; fold n; rewrite Hrun; cbn [option_map].
  eexists; split; [reflexivity |]; split; [reflexivity |].
  assert (Hgen : forall l acc seen,
             ((drawn acc + errors acc = seen)%nat
              /\ (visible acc <= drawn acc)%nat
              /\ List.length (footprints acc) = Nat.min (visible acc) 10
              /\ Forall (fun f => 200000 <= f_radius f) (footprints acc)) ->
             let r := fold_left (basic_drawStep env) l acc in
             (drawn r + errors r = seen + List.length l)%nat
             /\ (visible r <= drawn r)%nat
             /\ List.length (footprints r) = Nat.min (visible r) 10
             /\ Forall (fun f => 200000 <= f_radius f) (footprints r)).
  { induction l as [| i l IH]; intros acc seen Hacc; simpl.
    - rewrite Nat.add_0_r; exact Hacc.
    - pose proof (@basic_step_accounting _ env acc i seen Hacc) as Hstep.
      specialize (IH _ _ Hstep); simpl in IH.
      replace (seen + S (List.length l))%nat
        with (S seen + List.length l)%nat by lia.
      exact IH. }
  apply (Hgen idxs emptyFrame 0%nat).
  simpl; repeat split; try lia; constructor.
Qed.

(** ** Handover roles in the terminal frame *)

Lemma terminal_step_marker {satrec : Type} (env : Handover.Env satrec)
      (hs : Handover.HState) (acc : Frame) (i : nat) :
  markers (terminal_drawStep env hs acc i) = markers acc
  \/ exists m, markers (terminal_drawStep env hs acc i) = markers acc ++ [m]
               /\ m_index m = i.
Proof.
  unfold terminal_drawStep.
  destruct (truthy_at (Handover.satRecs env) i) as [rec |]; [| left; reflexivity].
  destruct (Handover.getSatState env rec) as [st |]; [| left; reflexivity].
  cbv zeta.
  destruct (terminal_style _ _ _) as [[[color radius] opacity] counted].
  right; eexists; split; reflexivity.
Qed.

Lemma terminal_fold_distinct {satrec : Type} (env : Handover.Env satrec)
      (hs : Handover.HState) (idxs : list nat) :
  NoDup idxs ->
  forall acc,
    (forall m, In m (markers acc) -> ~ In (m_index m) idxs) ->
    NoDup (map m_index (markers acc)) ->
    NoDup (map m_index
               (markers (fold_left (terminal_drawStep env hs) idxs acc))).
Proof.
  induction 1 as [| i idxs Hnotin Hnd IH]; intros acc Hfresh Hacc; simpl;
    [exact Hacc |].
  apply IH.
  - intros m Hm.
    destruct (terminal_step_marker env hs acc i) as [Heq | (m' & Heq & Hi)];
      rewrite Heq in Hm.
    + intros Hin; apply (Hfresh m Hm); right; exact Hin.
    + apply in_app_or in Hm; destruct Hm as [Hm | [<- | []]].
      * intros Hin; apply (Hfresh m Hm); right; exact Hin.
      * rewrite Hi; exact Hnotin.
  - destruct (terminal_step_marker env hs acc i) as [Heq | (m' & Heq & Hi)];
      rewrite Heq; [exact Hacc |].
    rewrite map_app; simpl.
    apply NoDup_app; [exact Hacc | repeat constructor; intros [] |].
    intros a Ha [<- | []].
    apply in_map_iff in Ha; destruct Ha as (m & Hma & Hm).
    apply (Hfresh m Hm); left; congruence.
Qed.

Lemma filter_keeps_distinct_indices (keep : Marker -> bool)
      (ms : list Marker) :
  NoDup (map m_index ms) -> NoDup (map m_index (filter keep ms)).
Proof.
  induction ms as [| m ms IH]; cbn [map filter]; intros Hnd;
    [apply NoDup_nil |].
  apply NoDup_cons_iff in Hnd; destruct Hnd as [Hfresh Hrest].
  destruct (keep m); [| exact (IH Hrest)].
  cbn [map]; apply NoDup_cons; [| exact (IH Hrest)].
  intros Hin; apply Hfresh.
  apply in_map_iff in Hin; destruct Hin as (m' & Hidx & Hm').
  apply filter_In in Hm'; destruct Hm' as [Hm' _].
  rewrite <- Hidx; apply in_map; exact Hm'.
Qed.

Lemma NoDup_constant_length {A : Type} (a : A) (l : list A) :
  NoDup l -> (forall x, In x l -> x = a) -> (List.length l <= 1)%nat.
Proof.
  intros Hnd Hall.
  destruct l as [| x [| y l]]; simpl; try lia.
  exfalso; inversion Hnd as [| ? ? Hnotin _]; subst.
  apply Hnotin; left.
  rewrite (Hall x), (Hall y); simpl; auto.
Qed.

Lemma serving_colour_role {satrec : Type} (env : Handover.Env satrec)
      (hs : Handover.HState) (m : Marker) :
  terminal_marker_ok env hs m -> is_serving_colour m = true ->
  exists cur, Handover.currentServingSat hs = Some cur
              /\ Handover.index cur = m_index m.
Proof.
  intros (rec & st & _ & _ & _ & _ & Hcol & _) Hwhite.
  unfold is_serving_colour in Hwhite; rewrite Hcol in Hwhite.
  unfold isServingAt in Hwhite.
  destruct (Handover.currentServingSat hs) as [cur |].
  - destruct (Handover.index cur =? m_index m)%nat eqn:Heq.
    + exists cur; split; [reflexivity | apply Nat.eqb_eq; exact Heq].
    + destruct (isCandidateAt hs (m_index m)), (js_ge _ _); discriminate.
  - destruct (isCandidateAt hs (m_index m)), (js_ge _ _); discriminate.
Qed.

Lemma candidate_colour_role {satrec : Type} (env : Handover.Env satrec)
      (hs : Handover.HState) (m : Marker) :
  terminal_marker_ok env hs m -> is_candidate_colour m = true ->
  In (m_index m) (map Handover.index (Handover.handoverCandidates hs)).
Proof.
  intros (rec & st & _ & _ & _ & _ & Hcol & _) Hyellow.
  unfold is_candidate_colour in Hyellow; rewrite Hcol in Hyellow.
  destruct (isCandidateAt hs (m_index m)) eqn:Hcand.
  - unfold isCandidateAt in Hcand.
    apply existsb_exists in Hcand; destruct Hcand as (c & Hc & Heq).
    apply Nat.eqb_eq in Heq; rewrite <- Heq; apply in_map; exact Hc.
  - destruct (isServingAt hs (m_index m)), (js_ge _ _); discriminate.
Qed.

(** X6: in a frame of the terminal variant drawn from any state the
    handover simulation can reach, at most one marker has the colour of the
    serving satellite, and it is the marker of the serving satellite; at
    most three markers have the colour of a candidate. *)
Theorem frame_roles_bounded :
  forall (satrec : Type)
         (linkSNR : Handover.Env satrec -> SatState -> R)
         (envs : list (Handover.Env satrec)) (env : Handover.Env satrec)
         (k : nat),
    let hs := Handover.run linkSNR envs Handover.initial in
    let n := List.length (Handover.tleList env) in
    exists ft,
      terminal_drawFrame (n + k) env hs = Some ft
      /\ (List.length (filter is_serving_colour (markers ft)) <= 1)%nat
      /\ (forall m, In m (markers ft) -> is_serving_colour m = true ->
                    exists cur, Handover.currentServingSat hs = Some cur
                                /\ Handover.index cur = m_index m)
      /\ (List.length (filter is_candidate_colour (markers ft)) <= 3)%nat.
Proof.
  intros satrec linkSNR envs env k hs n.
  destruct (sampledIndices_spec n k) as (idxs & Hrun & _).
  pose proof (sampledIndices_NoDup _ _ Hrun) as Hnd.
  unfold terminal_drawFrame; fold n; rewrite Hrun; cbn [option_map].
  eexists; split; [reflexivity |].
  set (ft := fold_left (terminal_drawStep env hs) idxs emptyFrame).
  assert (Hok : forall m, In m (markers ft) -> terminal_marker_ok env hs m).
  { intros m Hm.
    destruct (terminal_markers_ok env hs idxs _ m Hm) as [[] | H]; exact H. }
  assert (Hdist : NoDup (map m_index (markers ft))).
  { apply terminal_fold_distinct; [exact Hnd | intros m [] | constructor]. }
  assert (Hrole : forall m, In m (markers ft) -> is_serving_colour m = true ->
                  exists cur, Handover.currentServingSat hs = Some cur
                              /\ Handover.index cur = m_index m).
  { intros m Hm Hw; eapply serving_colour_role; eauto. }
  split; [| split; [exact Hrole |]].
  - rewrite <- (length_map m_index).
    destruct (Handover.currentServingSat hs) as [cur |] eqn:Hcur.
    + apply NoDup_constant_length with (a := Handover.index cur);
        [apply filter_keeps_distinct_indices; exact Hdist |].
      intros i Hi; apply in_map_iff in Hi; destruct Hi as (m & <- & Hm).
      apply filter_In in Hm; destruct Hm as [Hm Hw].
      destruct (Hrole m Hm Hw) as (cur' & [= <-] & Heq); symmetry; exact Heq.
    + destruct (filter is_serving_colour (markers ft)) as [| m l] eqn:Hf;
        [simpl; lia |].
      assert (Hm : In m (filter is_serving_colour (markers ft)))
        by (rewrite Hf; left; reflexivity).
      apply filter_In in Hm; destruct Hm as [Hm Hw].
      destruct (Hrole m Hm Hw) as (cur' & [=] & _).
  - assert (Hwf : Handover.wellFormed hs)
      by (apply HandoverFacts.run_wellFormed, HandoverFacts.wellFormed_initial).
    destruct Hwf as (Hlen & _).
    rewrite <- (length_map m_index).
    eapply Nat.le_trans; [| exact Hlen].
    rewrite <- (length_map Handover.index (Handover.handoverCandidates hs)).
    apply NoDup_incl_length; [apply filter_keeps_distinct_indices; exact Hdist |].
    intros i Hi; apply in_map_iff in Hi; destruct Hi as (m & <- & Hm).
    apply filter_In in Hm; destruct Hm as [Hm Hy].
    eapply candidate_colour_role; eauto.
Qed.

Lemma frame_roles_bounded_witness :
  exists ft,
    terminal_drawFrame 3 Scenario.env2
      (Handover.run Handover.linkSNR_terminal [Scenario.env1]
                    Handover.initial) = Some ft
    /\ (List.length (filter is_serving_colour (markers ft)) <= 1)%nat
    /\ (List.length (filter is_candidate_colour (markers ft)) <= 3)%nat.
Proof.
  destruct (@frame_roles_bounded nat Handover.linkSNR_terminal
              [Scenario.env1] Scenario.env2 0)
    as (ft & Hft & Hserving & _ & Hcand).
  exists ft; split; [exact Hft | split; [exact Hserving | exact Hcand]].
Defined.
End DrawMore.

(* ================================================================== *)
(** * Drawing, enhanced variant *)

Module EnhancedDrawFacts.
Import JSMath EnhancedDraw.

Lemma enhanced_sampled (n k : nat) :
  exists idxs,
    sampledIndices (n + k) n = Some idxs
    /\ (List.length idxs <= 800)%nat.
Proof.
  unfold sampledIndices.
  destruct n as [| n'].
  - exists []; rewrite DrawFacts.sampleLoop_done by lia.
    split; [reflexivity | simpl; lia].
  - set (n := S n').
    assert (Hmax : (0 < MAX_DRAW)%nat) by (unfold MAX_DRAW; lia).
    pose proof (DrawFacts.ceil_div_covers n Hmax) as Hcov.
    pose proof (@DrawFacts.ceil_div_pos n MAX_DRAW Hmax ltac:(unfold n; lia))
      as Hpos.
    destruct (@DrawFacts.sampleLoop_terminates (n + k) 0 n
                (Draw.Math_ceil_div n MAX_DRAW) Hpos ltac:(lia))
      as (idxs & Hrun & Hlen & _).
    exists idxs; split; [exact Hrun |].
    rewrite Nat.sub_0_r in Hlen.
    apply Nat.lt_succ_r.
    apply (Nat.mul_lt_mono_pos_r (Draw.Math_ceil_div n MAX_DRAW)); [lia |].
    unfold MAX_DRAW in *; nia.
Qed.

Section WithLibrary.
Variable satrec : Type.
Variable Math_atan2 : R -> R -> R.
Variable radiansToDegrees : R -> R.

Lemma calculateFootprint_length (lat lon alt minElev : R) :
  List.length (calculateFootprint Math_atan2 radiansToDegrees
                                  lat lon alt minElev) = 64%nat.
Proof. unfold calculateFootprint; rewrite length_map, length_seq; reflexivity. Qed.

(** What the loop keeps true: [seenVisible] is the number of indices so
    far whose satellite was drawn at or above the mask. *)
Lemma drawStep_invariant (env : Handover.Env satrec) (selected : option TLE)
      (acc : EFrame) (i seen seenVisible : nat) :
  ((List.length (e_markers acc) <= seen)%nat
   /\ e_visible acc = Nat.min 5 seenVisible
   /\ List.length (e_polygons acc) = e_visible acc
   /\ Forall (fun poly => List.length poly = 64%nat) (e_polygons acc)) ->
  let acc' := drawStep Math_atan2 radiansToDegrees env selected acc i in
  let seenVisible' :=
    if isVisibleAt env i then S seenVisible else seenVisible in
  (List.length (e_markers acc') <= S seen)%nat
  /\ e_visible acc' = Nat.min 5 seenVisible'
  /\ List.length (e_polygons acc') = e_visible acc'
  /\ Forall (fun poly => List.length poly = 64%nat) (e_polygons acc').
Proof.
  intros (Hm & Hv & Hp & Hall); unfold drawStep, isVisibleAt.
  destruct (nth_error (Handover.tleList env) i) as [t |];
    [| cbv zeta; split; [lia |]; split; [lia |]; split; assumption].
  destruct (truthy_at (Handover.satRecs env) i) as [rec |];
    [| cbv zeta; split; [lia |]; split; [lia |]; split; assumption].
  destruct (Handover.getSatState env rec) as [st |];
    [| cbv zeta; split; [lia |]; split; [lia |]; split; assumption].
  cbv zeta.
  match goal with
  | |- context [let '(_, _) := ?c in _] => destruct c as [color radius]
  end.
  destruct (js_ge (el st) (elevMin (Handover.obs env))); cbn [andb].
  - destruct (e_visible acc <? 5)%nat eqn:Hfive;
      cbn [e_visible e_markers e_polygons]; rewrite ?length_app;
      cbn [List.length].
    + apply Nat.ltb_lt in Hfive.
      split; [lia |]; split; [lia |]; split; [lia |].
      apply Forall_app; split; [exact Hall |].
      constructor; [apply calculateFootprint_length | constructor].
    + apply Nat.ltb_ge in Hfive.
      split; [lia |]; split; [lia |]; split; assumption.
  - cbn [e_visible e_markers e_polygons]; rewrite ?length_app;
      cbn [List.length].
    split; [lia |]; split; [lia |]; split; assumption.
Qed.

Lemma drawFold_invariant (env : Handover.Env satrec) (selected : option TLE)
      (idxs : list nat) :
  forall acc seen seenVisible,
    ((List.length (e_markers acc) <= seen)%nat
     /\ e_visible acc = Nat.min 5 seenVisible
     /\ List.length (e_polygons acc) = e_visible acc
     /\ Forall (fun poly => List.length poly = 64%nat) (e_polygons acc)) ->
    let r := fold_left (drawStep Math_atan2 radiansToDegrees env selected)
                       idxs acc in
    (List.length (e_markers r) <= seen + List.length idxs)%nat
    /\ e_visible r
       = Nat.min 5 (seenVisible
                    + List.length (filter (isVisibleAt env) idxs))
    /\ List.length (e_polygons r) = e_visible r
    /\ Forall (fun poly => List.length poly = 64%nat) (e_polygons r).
Proof.
  induction idxs as [| i idxs IH]; intros acc seen seenVisible Hacc; simpl.
  - rewrite !Nat.add_0_r; exact Hacc.
  - pose proof (@drawStep_invariant env selected acc i seen seenVisible Hacc)
      as Hstep.
    specialize (IH _ _ _ Hstep); simpl in IH.
    replace (seen + S (List.length idxs))%nat
      with (S seen + List.length idxs)%nat by lia.
    destruct (isVisibleAt env i); simpl;
      [rewrite <- Nat.add_succ_comm |]; exact IH.
Qed.
End WithLibrary.

(** X8: a frame of the enhanced variant holds at most 800 markers.  Its
    count of visible satellites stops at 5: it is the smaller of 5 and the
    number of drawn satellites at or above the mask, so the figure shown
    as visible never exceeds 5; one footprint polygon of 64 points is
    drawn per counted satellite. *)
Theorem enhanced_frame_visible_capped :
  forall (satrec : Type) (Math_atan2 : R -> R -> R)
         (radiansToDegrees : R -> R)
         (env : Handover.Env satrec) (selected : option TLE) (k : nat),
    let n := List.length (Handover.tleList env) in
    exists idxs fe,
      sampledIndices (n + k) n = Some idxs
      /\ drawFrame Math_atan2 radiansToDegrees (n + k) env selected = Some fe
      /\ (List.length (e_markers fe) <= 800)%nat
      /\ e_visible fe
         = Nat.min 5 (List.length (filter (isVisibleAt env) idxs))
      /\ List.length (e_polygons fe) = e_visible fe
      /\ Forall (fun poly => List.length poly = 64%nat) (e_polygons fe).
Proof.
  intros satrec Math_atan2 radiansToDegrees env selected k n.
  destruct (enhanced_sampled n k) as (idxs & Hrun & Hlen).
  exists idxs; unfold drawFrame; fold n; rewrite Hrun; cbn [option_map].
  eexists; split; [reflexivity |]; split; [reflexivity |].
  destruct (@drawFold_invariant satrec Math_atan2 radiansToDegrees env
              selected idxs emptyEFrame 0%nat 0%nat)
    as (Hm & Hv & Hp & Hall).
  { simpl; repeat split; try lia; constructor. }
  simpl in Hm, Hv.
  repeat split; try assumption; lia.
Qed.
End EnhancedDrawFacts.

(* ================================================================== *)
(** * RF analysis *)

Module RFAnalysisFacts.
Import JSMath LinkBudget RFAnalysis.
Open Scope R_scope.

Lemma ln_2_pos : 0 < ln 2.
Proof. rewrite <- ln_1; apply ln_increasing; lra. Qed.

(** Ten is between the third and the fourth power of two. *)
Lemma ln_10_in_bits : 3 * ln 2 <= ln 10.
Proof.
  replace (3 * ln 2) with (INR 3 * ln 2) by (simpl; lra).
  rewrite <- ln_pow by lra.
  left; apply ln_increasing; simpl; lra.
Qed.

(** X9: the Shannon capacity reported for a channel is never negative
    and a higher SNR never gives a lower capacity; from 0 dB up the
    capacity is at least one bit per second and hertz of the 250 MHz
    bandwidth (250 Mbps) and grows by at least 75 Mbps per dB:
    75 * snr <= capacity. *)
Theorem shannon_capacity_monotone :
  forall snr1 snr2 : R,
    snr1 <= snr2 ->
    0 <= calculateShannonCapacity snr1
    /\ calculateShannonCapacity snr1 <= calculateShannonCapacity snr2
    /\ (0 <= snr1 ->
        250 <= calculateShannonCapacity snr1
        /\ 75 * snr1 <= calculateShannonCapacity snr1).
Proof.
  intros snr1 snr2 Hle.
  unfold calculateShannonCapacity, calculateShannonCapacity_at, Math_log2,
    Math_pow, Enhanced.BANDWIDTH.
  cbv zeta.
  pose proof ln_2_pos as H2.
  assert (Hp1 : 0 < Rpower 10 (snr1 / 10)) by apply exp_pos.
  assert (Hpow : Rpower 10 (snr1 / 10) <= Rpower 10 (snr2 / 10))
    by (apply Rle_Rpower; lra).
  assert (Hln1 : 0 < ln (1 + Rpower 10 (snr1 / 10))).
  { rewrite <- ln_1; apply ln_increasing; lra. }
  assert (Hln : ln (1 + Rpower 10 (snr1 / 10))
                <= ln (1 + Rpower 10 (snr2 / 10)))
    by (apply LinkBudgetMore.ln_mono; lra).
  assert (Hinv : 0 < / ln 2) by (apply Rinv_0_lt_compat; exact H2).
  assert (Hq1 : 0 < ln (1 + Rpower 10 (snr1 / 10)) / ln 2)
    by (apply Rmult_lt_0_compat; assumption).
  assert (Hq : ln (1 + Rpower 10 (snr1 / 10)) / ln 2
               <= ln (1 + Rpower 10 (snr2 / 10)) / ln 2)
    by (apply Rmult_le_compat_r; [left; exact Hinv | exact Hln]).
  split; [lra | split; [lra |]].
  intros H0.
  assert (Hone : 1 <= Rpower 10 (snr1 / 10)).
  { rewrite <- (Rpower_O 10) by lra; apply Rle_Rpower; lra. }
  assert (Hln2 : ln 2 <= ln (1 + Rpower 10 (snr1 / 10)))
    by (apply LinkBudgetMore.ln_mono; lra).
  assert (Hbit : 1 <= ln (1 + Rpower 10 (snr1 / 10)) / ln 2).
  { apply Rmult_le_reg_r with (r := ln 2); [exact H2 |].
    unfold Rdiv; rewrite Rmult_assoc, Rinv_l by lra; lra. }
  assert (Hlnx : snr1 / 10 * ln 10
                 <= ln (1 + Rpower 10 (snr1 / 10))).
  { rewrite <- (ln_exp (snr1 / 10 * ln 10)).
    apply LinkBudgetMore.ln_mono; [apply exp_pos |].
    fold (Rpower 10 (snr1 / 10)); lra. }
  pose proof ln_10_in_bits as H10.
  assert (Hgrow : 0.3 * snr1 <= ln (1 + Rpower 10 (snr1 / 10)) / ln 2).
  { apply Rmult_le_reg_r with (r := ln 2); [exact H2 |].
    replace (ln (1 + Rpower 10 (snr1 / 10)) / ln 2 * ln 2)
      with (ln (1 + Rpower 10 (snr1 / 10))) by (field; lra).
    nra. }
  split; lra.
Qed.

(** From 5 dB to 20 dB. *)
Lemma shannon_capacity_monotone_witness :
  250 <= calculateShannonCapacity 5
  /\ 75 * 5 <= calculateShannonCapacity 5
  /\ calculateShannonCapacity 5 <= calculateShannonCapacity 20.
Proof.
  destruct (@shannon_capacity_monotone 5 20 ltac:(lra))
    as (_ & Hmono & Hbit).
  destruct (Hbit ltac:(lra)) as [H250 Hgrow].
  split; [exact H250 | split; [exact Hgrow | exact Hmono]].
Defined.

(** X10: the Doppler shift computed for a satellite of speed [v] km/s is
    largest at the horizon, where it is between 38.3 and 38.4 kHz per
    km/s of speed (f / c for the downlink frequency): at no elevation is
    it larger in size.  Between the horizon and the zenith it is not
    negative and never grows with the elevation, and for a moving
    satellite it is strictly smaller one degree higher. *)
Theorem doppler_shift_bounded :
  forall v e e1 e2 : R,
    0 <= v -> 0 <= e1 -> e1 <= e2 -> e2 <= 90 ->
    Rabs (calculateDopplerShift v e) <= calculateDopplerShift v 0
    /\ 38.3 * v <= calculateDopplerShift v 0 <= 38.4 * v
    /\ 0 <= calculateDopplerShift v e2
    /\ calculateDopplerShift v e2 <= calculateDopplerShift v e1
    /\ (0 < v -> e1 + 1 <= e2 ->
        calculateDopplerShift v e2 < calculateDopplerShift v e1).
Proof.
  intros v e e1 e2 Hv H1 H12 H2.
  unfold calculateDopplerShift, calculateDopplerShift_at, Math_cos, Math_PI,
    Enhanced.FREQ_DOWNLINK, Enhanced.SPEED_OF_LIGHT.
  cbv zeta.
  pose proof PI_RGT_0 as Hpi.
  pose proof (COS_bound (e * PI / 180)) as [Hlo Hhi].
  assert (Hdecr : cos (e2 * PI / 180) <= cos (e1 * PI / 180))
    by (apply cos_decr_1; nra).
  assert (Hstrict : e1 + 1 <= e2 ->
                    cos (e2 * PI / 180) < cos (e1 * PI / 180))
    by (intros Hgap; apply cos_decreasing_1; nra).
  assert (Hpos : 0 <= cos (e2 * PI / 180)) by (apply cos_ge_0; nra).
  assert (Hzero : cos (0 * PI / 180) = 1)
    by (replace (0 * PI / 180) with 0 by lra; apply cos_0).
  rewrite Hzero.
  set (c := cos (e * PI / 180)) in *.
  set (c1 := cos (e1 * PI / 180)) in *.
  set (c2 := cos (e2 * PI / 180)) in *.
  split; [apply Rabs_le; split; nra |].
  split; [lra |].
  split; [nra | split; [nra |]].
  intros Hmoving Hgap; specialize (Hstrict Hgap); nra.
Qed.

(** At 7.5 km/s: any elevation (here -30 degrees) against the horizon, 30
    against 60 degrees for the decrease. *)
Lemma doppler_shift_bounded_witness :
  Rabs (calculateDopplerShift 7.5 (-30)) <= calculateDopplerShift 7.5 0
  /\ calculateDopplerShift 7.5 0 <= 38.4 * 7.5
  /\ 0 <= calculateDopplerShift 7.5 60
  /\ calculateDopplerShift 7.5 60 < calculateDopplerShift 7.5 30.
Proof.
  destruct (@doppler_shift_bounded 7.5 (-30) 30 60
              ltac:(lra) ltac:(lra) ltac:(lra) ltac:(lra))
    as (Hbound & [_ Hhorizon] & Hpos & _ & Hdecr).
  split; [exact Hbound | split; [exact Hhorizon | split; [exact Hpos |]]].
  apply Hdecr; lra.
Defined.

Lemma tactical_margin (config : Config) (e r : R) :
  margin (Tactical.calculateLinkBudget config e r)
  = t_SNR (Tactical.calculateLinkBudget config e r) - 5.
Proof.
  unfold Tactical.calculateLinkBudget; cbv zeta.
  match goal with
  | |- context [let '(_, _) := ?c in _] => destruct c
  end.
  reflexivity.
Qed.

(** X12: with the arguments the tactical dashboard passes (an elevation
    below 180 degrees, a rain attenuation that is not negative) the SNR of
    [calculateLinkBudget], the closed form, is under -190 dB (the
    free-space loss is computed over the distance in metres with the
    constant 92.45 added), so the link always reports
    QPSK at 50 Mbps, [selectSatellite] always shows the status DEGRADED
    and [updateTargetInfo] always classes the SNR figure critical: the
    other rows of the modulation table and the other statuses are never
    shown. *)
Theorem tactical_link_always_degraded :
  forall (config : Config) (e r : R),
    e < 180 -> 0 <= r ->
    let b := Tactical.calculateLinkBudget config e r in
    t_SNR b = Spec.SNR_closed_form (considerRain config) e r
    /\ t_SNR b < -190
    /\ modulation b = "QPSK"%string /\ dataRate b = 50%nat
    /\ rfStatus (margin b) = "DEGRADED"%string
    /\ snrClass (t_SNR b) = "critical"%string.
Proof.
  intros config e r He Hr b.
  assert (Hform : t_SNR b = Spec.SNR_closed_form (considerRain config) e r).
  { unfold b.
    rewrite LinkBudgetFacts.tactical_SNR_eq; apply LinkBudgetFacts.terminal_SNR_eq. }
  assert (Hsnr : t_SNR b < -190).
  { rewrite Hform.
    apply LinkBudgetFacts.SNR_closed_form_upper; assumption. }
  pose proof (LinkBudgetFacts.tactical_modulation config e r) as Hmod.
  cbv zeta in Hmod; fold b in Hmod.
  assert (Hmargin : margin b = t_SNR b - 5) by apply tactical_margin.
  assert (Hrow : Spec.modulation_table (t_SNR b) = ("QPSK"%string, 50%nat)).
  { unfold Spec.modulation_table.
    repeat match goal with
           | |- context [Rlt_dec ?x ?y] =>
               destruct (Rlt_dec x y); [exfalso; lra |]
           end.
    reflexivity. }
  rewrite Hrow in Hmod.
  split; [exact Hform | split; [exact Hsnr |]].
  split; [congruence | split; [congruence |]].
  rewrite Hmargin; unfold rfStatus, snrClass, js_gt, js_lt.
  repeat match goal with
         | |- context [Rlt_dec ?x ?y] =>
             destruct (Rlt_dec x y); [exfalso; lra |]
         end.
  split; reflexivity.
Qed.

(** At 45 degrees under the rain attenuation of 2 mm/h. *)
Lemma tactical_link_always_degraded_witness :
  let cfg := mkConfig true true false 5 in
  let r := Tactical.calculateRainAttenuation cfg 45 2 in
  let b := Tactical.calculateLinkBudget cfg 45 r in
  0 <= r
  /\ dataRate b = 50%nat /\ rfStatus (margin b) = "DEGRADED"%string.
Proof.
  intros cfg r b.
  assert (Hr : 0 <= r).
  { unfold r; rewrite LinkBudgetFacts.tactical_rain_eq.
    rewrite LinkBudgetFacts.rain_formula
      by (simpl; first [lra | reflexivity]).
    apply LinkBudgetFacts.rain_closed_form_range; lra. }
  destruct (@tactical_link_always_degraded cfg 45 r ltac:(lra) Hr)
    as (_ & _ & _ & Hrate & Hstatus & _).
  split; [exact Hr | split; [exact Hrate | exact Hstatus]].
Defined.

(** X13: for an elevation that is not negative the simulated SNR of the
    basic variant is 15 + 0.3 e - 30 / (e + 10): its floor of -5 dB never
    applies, the value is at least 12 dB, and it never decreases when the
    elevation grows. *)
Theorem simulated_SNR_increasing :
  forall e1 e2 : R,
    0 <= e1 -> e1 <= e2 ->
    simulatedSNR e1 = 15 + 0.3 * e1 - 30 / (e1 + 10)
    /\ 12 <= simulatedSNR e1
    /\ simulatedSNR e1 <= simulatedSNR e2.
Proof.
  intros e1 e2 H1 H12.
  assert (Hval : forall e, 0 <= e ->
                 12 <= 15 + 0.3 * e - 30 / (e + 10)).
  { intros e He.
    assert (Hinv : / (e + 10) <= / 10) by (apply Rinv_le_contravar; lra).
    unfold Rdiv; lra. }
  assert (Hsim : forall e, 0 <= e ->
                 simulatedSNR e = 15 + 0.3 * e - 30 / (e + 10)).
  { intros e He; unfold simulatedSNR, Math_max.
    apply Rmax_right; specialize (Hval e He); lra. }
  rewrite !Hsim by lra.
  split; [reflexivity |]; split; [apply Hval; exact H1 |].
  assert (Hinv : / (e2 + 10) <= / (e1 + 10))
    by (apply Rinv_le_contravar; lra).
  unfold Rdiv; lra.
Qed.

(** From 20 to 45 degrees. *)
Lemma simulated_SNR_increasing_witness :
  12 <= simulatedSNR 20 /\ simulatedSNR 20 <= simulatedSNR 45.
Proof.
  exact (proj2 (@simulated_SNR_increasing 20 45 ltac:(lra) ltac:(lra))).
Defined.
End RFAnalysisFacts.

(* ================================================================== *)
(** * The throughput chart of the enhanced variant *)

Module ThroughputChartFacts.
Import JSMath JSNumber LinkBudget ThroughputChart.
Open Scope R_scope.

Lemma bySign_positive {A : Type} (x : R) (n z p : A) :
  0 < x -> bySign x n z p = p.
Proof.
  intros Hx; unfold bySign.
  destruct (Rlt_dec x 0); [exfalso; lra |].
  destruct (Rlt_dec 0 x); [reflexivity | contradiction].
Qed.

Lemma bySign_negative {A : Type} (x : R) (n z p : A) :
  x < 0 -> bySign x n z p = n.
Proof.
  intros Hx; unfold bySign.
  destruct (Rlt_dec x 0); [reflexivity | contradiction].
Qed.

Lemma div_by_nonzero (x y : R) : y <> 0 -> div (Fin x) (Fin y) = Fin (x / y).
Proof.
  intros Hy; unfold div.
  destruct (Req_dec_T y 0); [contradiction | reflexivity].
Qed.

Lemma div_by_zero (x : R) : 0 < x -> div (Fin x) (Fin 0) = PInf.
Proof.
  intros Hx; unfold div.
  destruct (Req_dec_T 0 0) as [_ | Hne]; [| contradiction Hne; reflexivity].
  apply bySign_positive; exact Hx.
Qed.

Lemma log10_of_positive (x : R) :
  0 < x -> log10 (Fin x) = Fin (Math_log10 x).
Proof. intros Hx; unfold log10; apply bySign_positive; exact Hx. Qed.

Lemma log10_of_negative (x : R) : x < 0 -> log10 (Fin x) = NaN.
Proof. intros Hx; unfold log10; apply bySign_negative; exact Hx. Qed.

Lemma mul_PInf_positive (x : R) : 0 < x -> mul (Fin x) PInf = PInf.
Proof. intros Hx; unfold mul; apply bySign_positive; exact Hx. Qed.

Lemma mul_PInf_by_positive (x : R) : 0 < x -> mul PInf (Fin x) = PInf.
Proof. intros Hx; unfold mul; apply bySign_positive; exact Hx. Qed.

Lemma add_NaN_l (b : Num) : add NaN b = NaN.
Proof. destruct b; reflexivity. Qed.

Lemma sub_NaN_l (b : Num) : sub NaN b = NaN.
Proof. unfold sub; apply add_NaN_l. Qed.

Lemma sub_NInf_finite (x : R) : sub NInf (Fin x) = NInf.
Proof. reflexivity. Qed.

(** [Math.log10] from a negative power of ten up. *)
Lemma log10_at_least_neg (x : R) (n : nat) :
  / 10 ^ n <= x -> - INR n <= Math_log10 x.
Proof.
  intros Hle; unfold Math_log10.
  pose proof VariantFacts.ln_10_pos as H10.
  assert (Hpow : 0 < 10 ^ n) by (apply pow_lt; lra).
  assert (Hinv : 0 < / 10 ^ n) by (apply Rinv_0_lt_compat; exact Hpow).
  assert (Hln : - (INR n * ln 10) <= ln x).
  { rewrite <- ln_pow, <- ln_Rinv by lra.
    apply LinkBudgetMore.ln_mono; assumption. }
  apply Rmult_le_reg_r with (r := ln 10); [exact H10 |].
  unfold Rdiv; rewrite Rmult_assoc, Rinv_l by lra.
  lra.
Qed.

(** The three logarithms of the free-space loss add up to at least 8:
    the product of the distance in metres, the frequency and 4 pi / c is
    at least 10^8. *)
Lemma fspl_logs_at_least (s : R) :
  0 < s <= 1 ->
  8 <= Math_log10 (550 / s * 1000) + Math_log10 Enhanced.FREQ_DOWNLINK
       + Math_log10 (4 * Math_PI / Enhanced.SPEED_OF_LIGHT).
Proof.
  intros [Hs Hs1].
  unfold Enhanced.FREQ_DOWNLINK, Enhanced.SPEED_OF_LIGHT, Math_PI.
  pose proof PI2_3_2 as Hpi.
  pose proof VariantFacts.ln_10_pos as H10.
  assert (Hd : 550000 <= 550 / s * 1000).
  { apply Rmult_le_reg_r with (r := s); [exact Hs |].
    replace (550 / s * 1000 * s) with 550000 by (field; lra).
    nra. }
  assert (Hc : 4 / 100000000 <= 4 * PI / 299792458) by lra.
  set (d := 550 / s * 1000) in *.
  set (c := 4 * PI / 299792458) in *.
  assert (Hdf : 550000 * 11.5e9 <= d * 11.5e9) by lra.
  assert (Hprod : 10 ^ 8 <= d * 11.5e9 * c).
  { apply Rle_trans with (r2 := 550000 * 11.5e9 * (4 / 100000000));
      [simpl; lra |].
    apply Rmult_le_compat; lra. }
  apply LinkBudgetFacts.log10_at_least in Hprod; simpl in Hprod.
  unfold Math_log10 in *.
  rewrite (ln_mult (d * 11.5e9) c), (ln_mult d 11.5e9) in Hprod by nra.
  unfold Rdiv in *; lra.
Qed.

(** The SNR for a satellite above the horizon: a number below zero. *)
Lemma SNR_above_horizon (el : R) :
  0 < el < 180 ->
  exists snr, j_SNR (calculateLinkBudget el) = Fin snr /\ snr < 0.
Proof.
  intros [H0 H180].
  pose proof PI_RGT_0 as Hpi.
  assert (Hs : 0 < sin (el * PI / 180)) by (apply sin_gt_0; nra).
  pose proof (SIN_bound (el * PI / 180)) as [_ Hs1].
  destruct (@LinkBudgetFacts.sin_clamped_unit 5 el ltac:(lra) H180)
    as [Hs5 _].
  pose proof (fspl_logs_at_least (conj Hs Hs1)) as Hlogs.
  assert (Hnoise : - INR 12 <= Math_log10 (Enhanced.BOLTZMANN
                     * Enhanced.NOISE_TEMP * Enhanced.BANDWIDTH)).
  { apply log10_at_least_neg.
    unfold Enhanced.BOLTZMANN, Enhanced.NOISE_TEMP, Enhanced.BANDWIDTH.
    replace (/ 10 ^ 12) with (1 / 1000000000000) by (simpl; lra).
    lra. }
  simpl in Hnoise.
  pose proof (VariantFacts.rainLoss_bound el) as [Hrain _].
  unfold calculateLinkBudget, calculateLinkBudget_at, Math_sin, Math_max,
    Math_PI in *.
  cbv zeta; cbn [j_SNR].
  set (s := sin (el * PI / 180)) in *.
  set (s5 := sin (Rmax el 5 * PI / 180)) in *.
  assert (Hatm : 0 < 0.5 / s5) by (apply Rdiv_lt_0_compat; lra).
  assert (Hdist : 0 < 550 / s * 1000).
  { apply Rmult_lt_0_compat; [apply Rdiv_lt_0_compat |]; lra. }
  rewrite !div_by_nonzero by lra.
  cbn [mul].
  rewrite (log10_of_positive Hdist).
  rewrite (@log10_of_positive Enhanced.FREQ_DOWNLINK)
    by (unfold Enhanced.FREQ_DOWNLINK; lra).
  rewrite (@log10_of_positive (4 * PI / Enhanced.SPEED_OF_LIGHT))
    by (unfold Enhanced.SPEED_OF_LIGHT; apply Rdiv_lt_0_compat; lra).
  rewrite (@log10_of_positive (Enhanced.BOLTZMANN * Enhanced.NOISE_TEMP
                               * Enhanced.BANDWIDTH))
    by (unfold Enhanced.BOLTZMANN, Enhanced.NOISE_TEMP, Enhanced.BANDWIDTH;
        lra).
  cbn [mul add sub neg].
  eexists; split; [reflexivity |].
  unfold Enhanced.SATELLITE_EIRP, Enhanced.TERMINAL_GAIN.
  lra.
Qed.

(** At the horizon the slant distance is infinite and the SNR is
    -Infinity. *)
Lemma SNR_at_horizon : j_SNR (calculateLinkBudget 0) = NInf.
Proof.
  pose proof PI_RGT_0 as Hpi.
  assert (Hs5 : 0 < sin (Rmax 0 5 * PI / 180)).
  { rewrite Rmax_right by lra; apply sin_gt_0; nra. }
  unfold calculateLinkBudget, calculateLinkBudget_at, Math_sin, Math_max,
    Math_PI.
  cbv zeta; cbn [j_SNR].
  replace (0 * PI / 180) with 0 by lra.
  rewrite sin_0, div_by_zero by lra.
  rewrite mul_PInf_by_positive by lra.
  change (log10 PInf) with PInf.
  rewrite mul_PInf_positive by lra.
  rewrite (@log10_of_positive Enhanced.FREQ_DOWNLINK)
    by (unfold Enhanced.FREQ_DOWNLINK; lra).
  rewrite (@log10_of_positive (4 * PI / Enhanced.SPEED_OF_LIGHT))
    by (unfold Enhanced.SPEED_OF_LIGHT; apply Rdiv_lt_0_compat; lra).
  rewrite (@log10_of_positive (Enhanced.BOLTZMANN * Enhanced.NOISE_TEMP
                               * Enhanced.BANDWIDTH))
    by (unfold Enhanced.BOLTZMANN, Enhanced.NOISE_TEMP, Enhanced.BANDWIDTH;
        lra).
  rewrite div_by_nonzero by lra.
  reflexivity.
Qed.

(** Below the horizon the slant distance is negative, its logarithm is
    NaN and so is the SNR. *)
Lemma SNR_below_horizon (el : R) :
  -180 < el < 0 -> j_SNR (calculateLinkBudget el) = NaN.
Proof.
  intros [H180 H0].
  pose proof PI_RGT_0 as Hpi.
  assert (Hs : sin (el * PI / 180) < 0) by (apply sin_lt_0_var; nra).
  unfold calculateLinkBudget, calculateLinkBudget_at, Math_sin, Math_PI.
  cbv zeta; cbn [j_SNR].
  set (s := sin (el * PI / 180)) in *.
  assert (Hdist : 550 / s * 1000 < 0).
  { assert (Hinv : / s < 0) by (apply Rinv_lt_0_compat; exact Hs).
    unfold Rdiv; nra. }
  rewrite div_by_nonzero by lra.
  cbn [mul].
  rewrite (log10_of_negative Hdist).
  cbn [mul].
  rewrite !add_NaN_l.
  rewrite !sub_NaN_l; reflexivity.
Qed.

(** A bar is 0 as soon as the SNR compares below zero. *)
Lemma throughputOf_unsupported (snr : Num) (bits : R) :
  0 <= bits -> lt snr (Fin 0) = true -> throughputOf snr bits = 0.
Proof.
  intros Hbits Hlt; unfold throughputOf; cbv zeta.
  assert (H : lt snr (Fin (bits * 3)) = true).
  { destruct snr as [x | | |]; try discriminate; [| reflexivity].
    cbn [lt] in Hlt |- *.
    apply JSMathFacts.js_lt_true in Hlt; apply JSMathFacts.js_lt_true; lra. }
  rewrite H; reflexivity.
Qed.

(** With a NaN SNR the comparison fails and the bar is drawn in full. *)
Lemma throughputOf_NaN (bits : R) :
  throughputOf NaN bits = bits * (Enhanced.BANDWIDTH / 1.2) / 1e6.
Proof. reflexivity. Qed.

Lemma SNR_unsupported (el : R) :
  0 <= el < 180 -> lt (j_SNR (calculateLinkBudget el)) (Fin 0) = true.
Proof.
  intros [[Hpos | <-] H180].
  - destruct (@SNR_above_horizon el (conj Hpos H180)) as (snr & -> & Hneg).
    cbn [lt]; apply JSMathFacts.js_lt_true; exact Hneg.
  - rewrite SNR_at_horizon; reflexivity.
Qed.

(** X11: the throughput chart of [updateRFAnalysis] takes its SNR from
    [calculateLinkBudget(st.el)].  For a selected satellite at an
    elevation from 0 up to (not including) 180 degrees that SNR compares
    below zero, hence below the requirement of every modulation: all
    eight bars are 0 and drawn red.  For a satellite below the horizon
    the slant distance is negative, the SNR is NaN, the test
    [currentSNR < requiredSNR] is false and every bar is drawn in full,
    bits * 250e6 / 1.2 / 1e6 Mbps, and green. *)
Theorem throughput_bars_by_elevation :
  forall el : R,
    -180 < el < 180 ->
    (0 <= el ->
     throughputs el = [0; 0; 0; 0; 0; 0; 0; 0]
     /\ barColours el = repeat "#ff4444"%string 8)
    /\ (el < 0 ->
        j_SNR (calculateLinkBudget el) = NaN
        /\ throughputs el
           = map (fun bits => bits * (Enhanced.BANDWIDTH / 1.2) / 1e6)
                 bitsPerSymbol
        /\ barColours el = repeat "#00ff44"%string 8).
Proof.
  intros el [Hlo Hhi]; split.
  - intros H0.
    pose proof (@SNR_unsupported el (conj H0 Hhi)) as Hlt.
    assert (Hbars : throughputs el = [0; 0; 0; 0; 0; 0; 0; 0]).
    { unfold throughputs, bitsPerSymbol; cbv zeta; cbn [map].
      rewrite !throughputOf_unsupported by first [lra | exact Hlt].
      reflexivity. }
    split; [exact Hbars |].
    unfold barColours; rewrite Hbars; cbn [map repeat].
    replace (js_gt 0 0) with false by (symmetry; js_decide).
    reflexivity.
  - intros H0.
    pose proof (@SNR_below_horizon el (conj Hlo H0)) as Hnan.
    assert (Hbars : throughputs el
                    = map (fun bits => bits * (Enhanced.BANDWIDTH / 1.2) / 1e6)
                          bitsPerSymbol).
    { unfold throughputs; cbv zeta; rewrite Hnan.
      apply map_ext; intros bits; apply throughputOf_NaN. }
    split; [exact Hnan | split; [exact Hbars |]].
    unfold barColours; rewrite Hbars.
    unfold bitsPerSymbol, Enhanced.BANDWIDTH; cbn [map repeat].
    repeat match goal with
           | |- context [js_gt ?x 0] =>
               replace (js_gt x 0) with true by (symmetry; js_decide)
           end.
    reflexivity.
Qed.

(** A satellite at 30 degrees against one 10 degrees below the horizon. *)
Lemma throughput_bars_by_elevation_witness :
  throughputs 30 = [0; 0; 0; 0; 0; 0; 0; 0]
  /\ j_SNR (calculateLinkBudget (-10)) = NaN
  /\ barColours (-10) = repeat "#00ff44"%string 8.
Proof.
  destruct (@throughput_bars_by_elevation 30 ltac:(lra)) as [Hup _].
  destruct (@throughput_bars_by_elevation (-10) ltac:(lra)) as [_ Hdown].
  destruct (Hup ltac:(lra)) as [Hbars _].
  destruct (Hdown ltac:(lra)) as (Hnan & _ & Hgreen).
  split; [exact Hbars | split; [exact Hnan | exact Hgreen]].
Defined.
End ThroughputChartFacts.

(* ================================================================== *)
(** * Footprint radius *)

Module FootprintFacts.
Import JSMath Draw.
Open Scope R_scope.

(** [acos] is decreasing. *)
Lemma acos_antitone (x y : R) :
  -1 <= x -> x <= y -> y <= 1 -> acos y <= acos x.
Proof.
  intros Hx Hxy Hy.
  pose proof (acos_bound x) as [Hx0 Hx1].
  pose proof (acos_bound y) as [Hy0 Hy1].
  apply cos_decr_0; try assumption.
  rewrite !cos_acos by lra; exact Hxy.
Qed.

(** The Earth-to-orbit ratio times the cosine of the mask, for a mask
    between 0 and 90 degrees and an altitude that is not negative. *)
Lemma footprint_argument (altKm e : R) :
  0 <= altKm -> 0 <= e <= PI / 2 ->
  0 <= 6371 / (6371 + altKm) * cos e <= cos e /\ cos e <= 1.
Proof.
  intros Halt [He0 He1].
  pose proof PI_RGT_0 as Hpi.
  assert (Hcos : 0 <= cos e) by (apply cos_ge_0; lra).
  pose proof (COS_bound e) as [_ Hcos1].
  assert (Hr : 0 < 6371 / (6371 + altKm) <= 1).
  { split; [apply Rdiv_lt_0_compat; lra |].
    apply Rmult_le_reg_r with (r := 6371 + altKm); [lra |].
    replace (6371 / (6371 + altKm) * (6371 + altKm)) with 6371
      by (field; lra).
    lra. }
  repeat split; nra.
Qed.

(** X14: for a mask between 0 and 90 degrees the footprint radius never
    decreases when the altitude grows and stays within a quarter of the
    Earth's circumference (6371 * pi / 2 km).  For a mask of at most 89
    degrees it is positive from an altitude of 1 km up, and up to
    100 000 km a satellite at least 1 km higher has a strictly larger
    footprint. *)
Theorem footprint_radius_range :
  forall alt1 alt2 elevMinDeg : R,
    0 <= alt1 -> alt1 <= alt2 -> 0 <= elevMinDeg <= 90 ->
    calculateFootprintRadius alt1 elevMinDeg
    <= calculateFootprintRadius alt2 elevMinDeg
    /\ calculateFootprintRadius alt2 elevMinDeg <= 6371 * (PI / 2)
    /\ (elevMinDeg <= 89 ->
        (1 <= alt1 -> 0 < calculateFootprintRadius alt1 elevMinDeg)
        /\ (alt1 + 1 <= alt2 -> alt2 <= 100000 ->
            calculateFootprintRadius alt1 elevMinDeg
            < calculateFootprintRadius alt2 elevMinDeg)).
Proof.
  intros alt1 alt2 m Halt1 Halt12 [Hm0 Hm90].
  unfold calculateFootprintRadius, Math_PI; cbv zeta.
  pose proof PI_RGT_0 as Hpi.
  set (e := m * PI / 180).
  assert (He : 0 <= e <= PI / 2) by (unfold e; split; nra).
  destruct (@footprint_argument alt1 e Halt1 He) as [[Ha0 Ha1] Hc1].
  destruct (@footprint_argument alt2 e ltac:(lra) He) as [[Hb0 Hb1] _].
  assert (Hcos : 0 <= cos e) by lra.
  assert (Hself : acos (cos e) = e) by (apply acos_cos; lra).
  assert (Hlow : e <= acos (6371 / (6371 + alt1) * cos e)).
  { rewrite <- Hself at 1; apply acos_antitone; lra. }
  assert (Hratios : forall a b, 0 <= a -> a <= b ->
            6371 / (6371 + b) <= 6371 / (6371 + a)).
  { intros a b Ha Hab; unfold Rdiv; apply Rmult_le_compat_l; [lra |].
    apply Rinv_le_contravar; lra. }
  assert (Hmono : acos (6371 / (6371 + alt1) * cos e)
                  <= acos (6371 / (6371 + alt2) * cos e)).
  { apply acos_antitone; try lra.
    apply Rmult_le_compat_r; [exact Hcos | apply Hratios; lra]. }
  assert (Hhigh : acos (6371 / (6371 + alt2) * cos e) <= PI / 2).
  { rewrite <- (acos_cos (PI / 2)) by lra.
    apply acos_antitone; rewrite ?cos_PI2; lra. }
  split; [nra | split; [nra |]].
  intros Hm89.
  assert (Hcospos : 0 < cos e) by (apply cos_gt_0; unfold e; nra).
  assert (Hbelow : forall a, 0 < a -> 6371 / (6371 + a) < 1).
  { intros a Ha.
    apply Rmult_lt_reg_r with (r := 6371 + a); [lra |].
    replace (6371 / (6371 + a) * (6371 + a)) with 6371 by (field; lra).
    lra. }
  split.
  - intros Hkm.
    pose proof (Hbelow alt1 ltac:(lra)) as Hratio.
    destruct Hlow as [Hlt | Heq]; [nra |].
    exfalso.
    apply (f_equal cos) in Heq; rewrite cos_acos in Heq by lra.
    nra.
  - intros Hgap _.
    assert (Hstrict : 6371 / (6371 + alt2) < 6371 / (6371 + alt1)).
    { unfold Rdiv; apply Rmult_lt_compat_l; [lra |].
      apply Rinv_lt_contravar; [nra | lra]. }
    destruct Hmono as [Hlt | Heq]; [nra |].
    exfalso.
    apply (f_equal cos) in Heq; rewrite !cos_acos in Heq by lra.
    nra.
Qed.

(** At 550 km against 1200 km under the default 25 degree mask. *)
Lemma footprint_radius_range_witness :
  0 < calculateFootprintRadius 550 25
  /\ calculateFootprintRadius 550 25 < calculateFootprintRadius 1200 25
  /\ calculateFootprintRadius 1200 25 <= 6371 * (PI / 2).
Proof.
  destruct (@footprint_radius_range 550 1200 25
              ltac:(lra) ltac:(lra) ltac:(lra)) as (_ & Hhigh & Hstrict).
  destruct (Hstrict ltac:(lra)) as [Hpos Hgrow].
  split; [apply Hpos; lra | split; [apply Hgrow; lra | exact Hhigh]].
Defined.
End FootprintFacts.

(* ================================================================== *)
(** * The on-page log keeps the most recent lines *)

Module TerminalLogFacts.
Import TerminalLog.

Lemma trimTo_lastn (limit : nat) (children : list Line) :
  trimTo limit children = lastn limit children.
Proof.
  unfold lastn; induction children as [| x rest IH]; [reflexivity |].
  cbn [trimTo].
  destruct (limit <? List.length (x :: rest))%nat eqn:Hlt.
  - apply Nat.ltb_lt in Hlt; simpl in Hlt.
    rewrite IH; simpl List.length.
    replace (S (List.length rest) - limit)%nat
      with (S (List.length rest - limit)) by lia.
    reflexivity.
  - apply Nat.ltb_ge in Hlt.
    replace (List.length (x :: rest) - limit)%nat with 0%nat by lia.
    reflexivity.
Qed.

Lemma lastn_length {A : Type} (n : nat) (l : list A) :
  List.length (lastn n l) = Nat.min n (List.length l).
Proof. unfold lastn; rewrite length_skipn; lia. Qed.

(** Cutting to the last [n], appending and cutting again is cutting the
    whole. *)
Lemma lastn_app_lastn {A : Type} (n : nat) (a b : list A) :
  lastn n (lastn n a ++ b) = lastn n (a ++ b).
Proof.
  destruct (Nat.le_gt_cases (List.length a) n) as [Hle | Hgt].
  - unfold lastn at 2.
    replace (List.length a - n)%nat with 0%nat by lia; reflexivity.
  - unfold lastn at 1 3.
    rewrite !length_app, lastn_length.
    replace (Nat.min n (List.length a)) with n by lia.
    unfold lastn.
    rewrite !skipn_app, skipn_skipn, length_skipn.
    replace (n + List.length b - n + (List.length a - n))%nat
      with (List.length a + List.length b - n)%nat by lia.
    replace (n + List.length b - n
             - (List.length a - (List.length a - n)))%nat
      with (List.length a + List.length b - n - List.length a)%nat by lia.
    reflexivity.
Qed.

Lemma logAll_lastn (limit : nat) (lines : list Line) :
  forall children,
    lines <> [] ->
    logAll limit (Some children) lines
    = Some (lastn limit (children ++ lines)).
Proof.
  unfold logAll.
  induction lines as [| x lines IH]; intros children Hne;
    [contradiction Hne; reflexivity |].
  cbn [fold_left updateTerminalLog]; rewrite trimTo_lastn.
  destruct lines as [| y lines].
  - reflexivity.
  - rewrite IH by discriminate.
    rewrite lastn_app_lastn, <- app_assoc; reflexivity.
Qed.

(** X15: the on-page log keeps the most recent lines.  After any number
    of messages (at least one) the children of the log element are the
    last [limit] of the lines it held before followed by the messages (50
    in the terminal variant, 100 in the tactical one), so never more than
    [limit] lines; and a page without the element stays without. *)
Theorem log_keeps_most_recent :
  forall (limit : nat) (children lines : list Line),
    lines <> [] ->
    logAll limit (Some children) lines
    = Some (lastn limit (children ++ lines))
    /\ (List.length (lastn limit (children ++ lines)) <= limit)%nat
    /\ logAll limit None lines = None.
Proof.
  intros limit children lines Hne.
  split; [apply logAll_lastn; exact Hne |].
  split; [rewrite lastn_length; lia |].
  unfold logAll; clear Hne; induction lines as [| x lines IH];
    [reflexivity | exact IH].
Qed.

(** Three messages into a log limited to two lines. *)
Lemma log_keeps_most_recent_witness :
  let line := fun m => mkLine "12:00:00" "SYSTEM" m in
  logAll 2 (Some []) [line "a"; line "b"; line "c"]%string
  = Some [line "b"; line "c"]%string.
Proof.
  intros line.
  exact (proj1 (@log_keeps_most_recent 2 []
                  [line "a"; line "b"; line "c"]%string
                  ltac:(discriminate))).
Defined.
End TerminalLogFacts.

(* ================================================================== *)
(** * The build script *)

Module BuildScriptFacts.
Import JSMath BuildScript.
Open Scope R_scope.

Section WithBuiltins.
Variable json : Type.
Variable Number : option json -> JsNumber.
Variable trim : string -> string.
Variable numberText : R -> string.

Lemma insert_asc_perm (x : Built) (l : list Built) :
  Permutation (insert_asc x l) (x :: l).
Proof.
  induction l as [| y l IH]; simpl; [reflexivity |].
  destruct (js_lt _ _); [| reflexivity].
  rewrite IH; apply perm_swap.
Qed.

Lemma sort_asc_perm (l : list Built) : Permutation (sort_asc l) l.
Proof.
  induction l as [| x l IH]; simpl; [reflexivity |].
  rewrite insert_asc_perm; constructor; exact IH.
Qed.

Lemma insert_asc_sorted (x : Built) (l : list Built) :
  StronglySorted by_noradId l -> StronglySorted by_noradId (insert_asc x l).
Proof.
  induction l as [| y l IH]; intros Hs; simpl.
  - repeat constructor.
  - inversion Hs as [| ? ? Hs' Hall]; subst.
    destruct (js_lt (orZero (b_noradId y)) (orZero (b_noradId x))) eqn:Hlt.
    + apply JSMathFacts.js_lt_true in Hlt.
      constructor; [apply IH; exact Hs' |].
      apply (Permutation_Forall (Permutation_sym (insert_asc_perm x l))).
      constructor; [unfold by_noradId; lra | exact Hall].
    + apply JSMathFacts.js_lt_false in Hlt.
      constructor; [exact Hs |].
      constructor; [exact Hlt |].
      rewrite Forall_forall in *; intros z Hz.
      specialize (Hall z Hz); unfold by_noradId in *; lra.
Qed.

Lemma sort_asc_sorted (l : list Built) : StronglySorted by_noradId (sort_asc l).
Proof.
  induction l as [| x l IH]; simpl; [constructor |].
  apply insert_asc_sorted; exact IH.
Qed.

Lemma convert_lines (obj : RawObject json) (b : Built) :
  convert Number trim numberText obj = Some b ->
  nonEmpty (b_line1 b) = true /\ nonEmpty (b_line2 b) = true
  /\ exists st l1 l2,
       spaceTrack obj = Some st
       /\ TLE_LINE1 st = Some l1 /\ TLE_LINE2 st = Some l2
       /\ b_line1 b = trim l1 /\ b_line2 b = trim l2
       /\ b_noradId b = Number (NORAD_CAT_ID st).
Proof.
  unfold convert.
  destruct (spaceTrack obj) as [st |]; [| discriminate].
  destruct (TLE_LINE1 st) as [l1 |] eqn:H1; [| discriminate].
  destruct (TLE_LINE2 st) as [l2 |] eqn:H2; [| discriminate].
  cbn [option_map].
  destruct (nonEmpty (trim l1)) eqn:Hn1; [| discriminate].
  destruct (nonEmpty (trim l2)) eqn:Hn2; [| discriminate].
  cbn [negb orb]; intros [= <-]; cbn [b_line1 b_line2 b_noradId].
  split; [exact Hn1 |]; split; [exact Hn2 |].
  exists st, l1, l2; auto 8.
Qed.

Lemma mapFilter_In (raw : list (RawObject json)) (b : Built) :
  In b (mapFilter Number trim numberText raw)
  <-> exists obj, In obj raw /\ convert Number trim numberText obj = Some b.
Proof.
  induction raw as [| obj raw IH]; simpl.
  - split; [contradiction | intros (o & [] & _)].
  - destruct (convert Number trim numberText obj) as [b0 |] eqn:Hc; simpl;
      rewrite IH; split.
    + intros [<- | (o & Ho & Hb)]; eauto.
    + intros (o & [<- | Ho] & Hb); [left; congruence | eauto].
    + intros (o & Ho & Hb); eauto.
    + intros (o & [<- | Ho] & Hb); [congruence | eauto].
Qed.

Lemma mapFilter_length (raw : list (RawObject json)) :
  (List.length (mapFilter Number trim numberText raw) <= List.length raw)%nat.
Proof.
  induction raw as [| obj raw IH]; simpl; [lia |].
  destruct (convert Number trim numberText obj); simpl; lia.
Qed.
End WithBuiltins.


End BuildScriptFacts.

(* ================================================================== *)
(** * The two basic copies of [getSatState] *)

Module SatStateCopyFacts.
Import SatStateCalc SatStateCopies.

Section Lib.
Variables number satrec date gmstT eciT ecfT exn : Type.
Variable satellite : SatelliteJs number satrec date gmstT eciT ecfT exn.
Variable isFinite : number -> bool.
Variable zero : number.
Variable obs : Obs number.
Variable typeError : exn.

(** X17. The [getSatState] of docs/app.js behaves as the unguarded copy of
    the first basic file followed by a filter: a state the unguarded copy
    returns is passed on when its latitude, longitude and altitude are
    finite, and every other outcome of the unguarded copy (a state with a
    coordinate that is not finite, [null], or an exception, among them the
    [TypeError] on a missing propagation result) becomes [null]. *)
Theorem guarded_copy_filters_unguarded (rec : satrec) (time : date) :
  getSatState satellite isFinite zero obs rec time
  = guard isFinite
      (getSatState_unguarded satellite zero obs typeError rec time).
Proof.
  unfold getSatState, getSatState_body, getSatState_unguarded, guard,
    finiteState.
  cbn [s_lat s_lon s_alt].
  repeat first
    [ reflexivity
    | match goal with
      | |- context [bind ?m _] => destruct m eqn:?; cbn [bind try_catch s_lat s_lon s_alt]
      | |- context [match ?x with Some _ => _ | None => _ end] =>
          destruct x eqn:?; cbn [bind try_catch s_lat s_lon s_alt]
      | |- context [isFinite ?x] =>
          destruct (isFinite x) eqn:?; cbn [bind try_catch negb orb andb s_lat s_lon s_alt]
      end ].
Qed.
End Lib.
End SatStateCopyFacts.

(* ================================================================== *)
(** * The weather cache *)

Module WeatherFacts.
Import WeatherFetch WeatherSpec.
Open Scope R_scope.

Lemma fallback_plausible : plausible fallback.
Proof. unfold plausible, fallback; cbn; lra. Qed.

Lemma fresh_plausible (d : Draws) :
  unitDraws d ->
  plausible (mkWeather (d_cloud d * 100) (d_precip d * 10)
                       (60 + d_humidity d * 30) (20 + d_temp d * 15)).
Proof. unfold unitDraws, plausible; cbn; lra. Qed.

Lemma catchClause_plausible (fx : Effects) (s : WState) :
  storedPlausible s ->
  storedPlausible (fst (catchClause fx s))
  /\ (forall w, snd (catchClause fx s) = Some w -> plausible w).
Proof.
  intros Hs; unfold catchClause.
  destruct (log_error_throws fx); cbn [fst snd].
  - split; [exact Hs | discriminate].
  - split; [exact fallback_plausible |].
    intros w Hw; injection Hw as <-; exact fallback_plausible.
Qed.

Lemma fetch_plausible (now : Z) (d : Draws) (fx : Effects) (s : WState) :
  unitDraws d -> storedPlausible s ->
  storedPlausible (fst (fetchWeatherData now d fx s))
  /\ (forall w, snd (fetchWeatherData now d fx s) = Some w -> plausible w).
Proof.
  intros Hd Hs.
  assert (Hfresh : storedPlausible
            (mkWState (Some (mkWeather (d_cloud d * 100) (d_precip d * 10)
                               (60 + d_humidity d * 30)
                               (20 + d_temp d * 15))) now))
    by (exact (fresh_plausible Hd)).
  unfold fetchWeatherData.
  assert (Hre :
    let r :=
      if log_before_throws fx then catchClause fx s
      else
        if display_throws fx
        then catchClause fx
               (mkWState (Some (mkWeather (d_cloud d * 100)
                  (d_precip d * 10) (60 + d_humidity d * 30)
                  (20 + d_temp d * 15))) now)
        else if log_after_throws fx
        then catchClause fx
               (mkWState (Some (mkWeather (d_cloud d * 100)
                  (d_precip d * 10) (60 + d_humidity d * 30)
                  (20 + d_temp d * 15))) now)
        else (mkWState (Some (mkWeather (d_cloud d * 100)
                  (d_precip d * 10) (60 + d_humidity d * 30)
                  (20 + d_temp d * 15))) now,
              Some (mkWeather (d_cloud d * 100)
                  (d_precip d * 10) (60 + d_humidity d * 30)
                  (20 + d_temp d * 15))) in
    storedPlausible (fst r) /\ (forall w, snd r = Some w -> plausible w)).
  { cbv zeta.
    destruct (log_before_throws fx);
      [apply catchClause_plausible; exact Hs |].
    destruct (display_throws fx);
      [apply catchClause_plausible; exact Hfresh |].
    destruct (log_after_throws fx);
      [apply catchClause_plausible; exact Hfresh |].
    cbn [fst snd]; split; [exact Hfresh |].
    intros w Hw; injection Hw as <-; exact (fresh_plausible Hd). }
  cbv zeta in Hre |- *.
  destruct (weatherData s) as [w0 |] eqn:Hw0; [| exact Hre].
  destruct (now - weatherLastFetch s <? 30 * 60 * 1000)%Z; [| exact Hre].
  cbn [fst snd]; split; [exact Hs |].
  intros w Hw; injection Hw as <-.
  unfold storedPlausible in Hs; rewrite Hw0 in Hs; exact Hs.
Qed.

Lemma fetchAll_plausible (calls : list Call) :
  unitCalls calls -> forall s, storedPlausible s ->
  storedPlausible (fetchAll calls s).
Proof.
  unfold unitCalls, fetchAll.
  induction 1 as [| c calls Hc _ IH]; intros s Hs; cbn [fold_left].
  - exact Hs.
  - apply IH. apply fetch_plausible; assumption.
Qed.

(** X18. Whatever the clock readings and whichever of the logging and
    display calls throw, after any sequence of [fetchWeatherData] calls
    from the initial globals a further call that resolves returns weather
    within the simulated ranges (cloud cover from 0 to 100, precipitation
    from 0 to 10, humidity from 60 to 90, temperature from 20 to 35, the
    bounds included), and so is the weather left in the globals: the
    fallback of the [catch] clause lies in the same ranges as the random
    draws. *)
Theorem weather_within_ranges
  (calls : list Call) (now : Z) (d : Draws) (fx : Effects) (w : Weather) :
  unitCalls calls -> unitDraws d ->
  snd (fetchWeatherData now d fx (fetchAll calls initial)) = Some w ->
  plausible w
  /\ storedPlausible
       (fst (fetchWeatherData now d fx (fetchAll calls initial))).
Proof.
  intros Hcalls Hd Hw.
  assert (Hs : storedPlausible (fetchAll calls initial))
    by (apply fetchAll_plausible; [exact Hcalls | exact I]).
  destruct (@fetch_plausible now d fx _ Hd Hs) as [Hst Hret].
  split; [exact (Hret w Hw) | exact Hst].
Qed.

Lemma weather_within_ranges_witness :
  let calls := [call_failing; call_fresh] in
  let w := mkWeather 50 (5/2) 70 32 in
  snd (fetchWeatherData (c_now call_cached) (c_draws call_cached)
         (c_fx call_cached) (fetchAll calls initial)) = Some w
  /\ plausible w.
Proof.
  assert (Hd1 : unitDraws draws1)
    by (unfold unitDraws, draws1; cbn; lra).
  assert (Hret :
    snd (fetchWeatherData (c_now call_cached) (c_draws call_cached)
           (c_fx call_cached) (fetchAll [call_failing; call_fresh] initial))
    = Some (mkWeather 50 (5/2) 70 32)).
  { unfold fetchAll, fetchWeatherData, catchClause; cbn.
    f_equal; unfold draws1; cbn; f_equal; lra. }
  cbv zeta; split; [exact Hret |].
  refine (proj1 (@weather_within_ranges [call_failing; call_fresh]
                   (c_now call_cached) (c_draws call_cached)
                   (c_fx call_cached) _ _ _ Hret)).
  - unfold unitCalls.
    apply Forall_cons; [exact Hd1 |].
    apply Forall_cons; [exact Hd1 | apply Forall_nil].
  - unfold unitDraws, call_cached; cbn; lra.
Defined.

Lemma cached_step (c : Call) (s : WState) (w : Weather) :
  weatherData s = Some w ->
  (c_now c - weatherLastFetch s < 30 * 60 * 1000)%Z ->
  fetchWeatherData (c_now c) (c_draws c) (c_fx c) s = (s, Some w).
Proof.
  intros Hw Hlt; unfold fetchWeatherData; rewrite Hw.
  destruct (Z.ltb_spec (c_now c - weatherLastFetch s) (30 * 60 * 1000));
    [reflexivity | lia].
Qed.

Lemma cached_all (calls : list Call) (s : WState) (w : Weather) :
  weatherData s = Some w ->
  within30min (weatherLastFetch s) calls ->
  fetchAll calls s = s.
Proof.
  intros Hw; unfold within30min, fetchAll.
  induction 1 as [| c calls Hc _ IH]; cbn [fold_left]; [reflexivity |].
  rewrite (@cached_step c s w Hw Hc); exact IH.
Qed.

(** X19. After a fetch at time [t0] on which nothing throws and which
    finds no weather younger than 30 minutes, every later call whose clock
    reads less than [t0] + 30 minutes returns the weather drawn at [t0],
    whatever it would draw itself and however many calls lie in between;
    the globals do not change. *)
Theorem weather_cached_for_30_minutes
  (t0 : Z) (d0 : Draws) (s0 : WState) (calls : list Call) (c : Call) :
  (forall w0, weatherData s0 = Some w0 ->
              (30 * 60 * 1000 <= t0 - weatherLastFetch s0)%Z) ->
  within30min t0 (calls ++ [c]) ->
  let s1 := fst (fetchWeatherData t0 d0 quiet s0) in
  let fresh := mkWeather (d_cloud d0 * 100) (d_precip d0 * 10)
                         (60 + d_humidity d0 * 30) (20 + d_temp d0 * 15) in
  fetchWeatherData (c_now c) (c_draws c) (c_fx c) (fetchAll calls s1)
  = (s1, Some fresh)
  /\ s1 = mkWState (Some fresh) t0.
Proof.
  intros Hold Hin s1 fresh.
  assert (Hs1 : s1 = mkWState (Some fresh) t0).
  { unfold s1, fetchWeatherData, quiet; cbn.
    destruct (weatherData s0) as [w0 |] eqn:Hw0; [| reflexivity].
    specialize (Hold w0 eq_refl).
    destruct (Z.ltb_spec (t0 - weatherLastFetch s0) 1800000);
      [lia | reflexivity]. }
  split; [| exact Hs1].
  unfold within30min in Hin; apply Forall_app in Hin as [Hcalls Hc].
  assert (Hdata : weatherData s1 = Some fresh) by (rewrite Hs1; reflexivity).
  assert (Hlast : weatherLastFetch s1 = t0) by (rewrite Hs1; reflexivity).
  rewrite (@cached_all calls s1 fresh Hdata)
    by (rewrite Hlast; exact Hcalls).
  apply cached_step; [exact Hdata |].
  rewrite Hlast; inversion Hc; assumption.
Qed.

Lemma weather_cached_for_30_minutes_witness :
  let s0 := fetchAll [call_failing] initial in
  let s1 := fst (fetchWeatherData (c_now call_fresh) draws1 quiet s0) in
  fetchWeatherData (c_now call_cached) (c_draws call_cached)
    (c_fx call_cached) (fetchAll [] s1)
  = (s1, Some (mkWeather (d_cloud draws1 * 100) (d_precip draws1 * 10)
                 (60 + d_humidity draws1 * 30) (20 + d_temp draws1 * 15))).
Proof.
  cbv zeta.
  refine (proj1 (@weather_cached_for_30_minutes (c_now call_fresh) draws1
                   (fetchAll [call_failing] initial) [] call_cached _ _)).
  - intros w0 _; vm_compute; discriminate.
  - unfold within30min; cbn [app].
    apply Forall_cons; [vm_compute; reflexivity | apply Forall_nil].
Defined.
End WeatherFacts.
